(** * tab5-webradio: the radio streaming core of [HalEsp32]

    A shallow embedding of the ring buffer, the ICY de-interleaver of the
    HTTP data handler, the MP3 frame synchroniser of the decode task and
    the start/stop controller (the most complete of the versions of the
    radio file, the one with stream ids and frame synchronisation),
    followed by the properties of the specification that concern them.

    Conventions.
    - [size_t] and [uint32_t] are 32 bits wide on the target; they are
      values of [Z] and every C operation that can wrap is written with
      [size_wrap].
    - a byte is a [Z] in [0, 256); a memory region is a [list Z].
    - a FreeRTOS mutex is seen from the calling task: [holder] tells what
      the other owner of the mutex does while the caller waits. *)

From Stdlib Require Import ZArith List Lia String Ascii.
From stdpp Require Import base option list numbers.

Local Open Scope Z_scope.

(* ====================================================================== *)
(** * Part I: the embedding                                                *)
(* ====================================================================== *)

(** ** Machine integers *)

Definition SIZE_WIDTH : Z := 2 ^ 32.
Definition size_wrap (x : Z) : Z := x mod SIZE_WIDTH.

(** ** FreeRTOS mutexes *)

(** What the current owner of a mutex does while the caller waits. *)
Inductive holder : Type :=
| Free                         (* nobody holds the mutex *)
| ReleasedAfter (ms : Z)       (* held, given back after [ms] milliseconds *)
| NeverReleased.               (* held by a task that never gives it back *)

(** The tick argument of [xSemaphoreTake]. *)
Inductive wait : Type :=
| pdMS_TO_TICKS (ms : Z)
| portMAX_DELAY.

(** [xSemaphoreTake mutex ticks]: [Some true] when the mutex was taken,
    [Some false] on timeout, [None] when the call never returns. *)
Definition xSemaphoreTake (h : holder) (w : wait) : option bool :=
  match h, w with
  | Free, _ => Some true
  | ReleasedAfter d, pdMS_TO_TICKS ms => Some (d <=? ms)
  | ReleasedAfter _, portMAX_DELAY => Some true
  | NeverReleased, pdMS_TO_TICKS _ => Some false
  | NeverReleased, portMAX_DELAY => None
  end.

(** The longest time a wait can last, when it is bounded. *)
Definition wait_bound (w : wait) : option Z :=
  match w with
  | pdMS_TO_TICKS ms => Some ms
  | portMAX_DELAY => None
  end.

(** ** Ring buffer *)

Definition RING_BUFFER_SIZE : Z := 256 * 1024.
Definition PREBUFFER_SIZE : Z := 64 * 1024.
Definition MIN_BUFFER_LEVEL : Z := 8 * 1024.
Definition SPECTRUM_BANDS : Z := 32.

Module RingBuffer.

(** A buffer whose member [buffer] is set; [mutex] tells whether the
    handle is set. *)
Record t : Type := mk {
  buffer : list Z;
  size : Z;
  writePos : Z;
  readPos : Z;
  dataAvailable : Z;
  mutex : bool
}.

(** The wait used by [write], [read] and [available]. *)
Definition lock_wait : wait := pdMS_TO_TICKS 100.

(** [init(bufferSize)] on the buffer as it is before the first start
    ([buffer == nullptr], the cursors and the count zero).  [mem] is what
    the allocations give, a region of arbitrary content ([None]: both
    failed); [mutex_created] tells whether [xSemaphoreCreateMutex] gives a
    handle.  Returns the buffer ([None]: [buffer] is still null) and the
    value returned: when the mutex cannot be created, [buffer] and [size]
    are set all the same. *)
Definition init (mem : option (list Z)) (mutex_created : bool)
    (bufferSize : Z) : option t * bool :=
  match mem with
  | None => (None, false)
  | Some m =>
      (Some {| buffer := m; size := bufferSize;
               writePos := 0; readPos := 0; dataAvailable := 0;
               mutex := mutex_created |},
       mutex_created)
  end.

(** [xSemaphoreTake(mutex, ticks)] on the mutex of the buffer, [h] being
    what its owner does.  With a null handle the call is outside the
    contract of FreeRTOS and does not come back ([configASSERT]). *)
Definition take_mutex (h : holder) (rb : t) (w : wait) : option bool :=
  if mutex rb then xSemaphoreTake h w else None.

Definition reset (h : holder) (rb : t) : option t :=
  taken ← take_mutex h rb portMAX_DELAY;
  if (taken : bool) then
    Some {| buffer := buffer rb; size := size rb;
            writePos := 0; readPos := 0; dataAvailable := 0;
            mutex := mutex rb |}
  else Some rb.

(** The body of the copy loop of [write], over the bytes [data[0..toWrite)].
    A store outside the buffer leaves the list as it is; under [wf] the
    write cursor is always inside. *)
Fixpoint write_loop (buf : list Z) (sz wpos : Z) (data : list Z) : list Z * Z :=
  match data with
  | [] => (buf, wpos)
  | b :: rest =>
      write_loop (<[Z.to_nat wpos := b]> buf) sz
                 (size_wrap (wpos + 1) mod sz) rest
  end.

(** [write(data, len)] with [len = length data]; returns the buffer and
    the number of bytes written. *)
Definition write (h : holder) (rb : t) (data : list Z) : option (t * Z) :=
  taken ← take_mutex h rb lock_wait;
  if (taken : bool) then
    let len := Z.of_nat (length data) in
    let freeSpace := size_wrap (size rb - dataAvailable rb) in
    let toWrite := if len <? freeSpace then len else freeSpace in
    let '(buf', w') :=
      write_loop (buffer rb) (size rb) (writePos rb)
                 (take (Z.to_nat toWrite) data) in
    Some ({| buffer := buf'; size := size rb; writePos := w';
             readPos := readPos rb;
             dataAvailable := size_wrap (dataAvailable rb + toWrite);
             mutex := mutex rb |},
          toWrite)
  else Some (rb, 0).

(** The copy loop of [read]: the bytes stored into [data[0..toRead)]
    and the final read cursor. *)
Fixpoint read_loop (buf : list Z) (sz rpos : Z) (n : nat) : list Z * Z :=
  match n with
  | O => ([], rpos)
  | S n' =>
      let b := nth (Z.to_nat rpos) buf 0 in
      let '(out, r') := read_loop buf sz (size_wrap (rpos + 1) mod sz) n' in
      (b :: out, r')
  end.

(** [read(data, len)]: returns the buffer, the bytes copied to the
    caller and their count. *)
Definition read (h : holder) (rb : t) (len : Z) : option (t * list Z * Z) :=
  taken ← take_mutex h rb lock_wait;
  if (taken : bool) then
    let toRead := if len <? dataAvailable rb then len else dataAvailable rb in
    let '(out, r') :=
      read_loop (buffer rb) (size rb) (readPos rb) (Z.to_nat toRead) in
    Some ({| buffer := buffer rb; size := size rb; writePos := writePos rb;
             readPos := r';
             dataAvailable := size_wrap (dataAvailable rb - toRead);
             mutex := mutex rb |},
          out, toRead)
  else Some (rb, [], 0).

Definition available (h : holder) (rb : t) : option Z :=
  taken ← take_mutex h rb lock_wait;
  if (taken : bool) then Some (dataAvailable rb) else Some 0.

Definition bufferPercent (h : holder) (rb : t) : option Z :=
  avail ← available h rb;
  Some (size_wrap (avail * 100) / size rb).

(** *** Representation invariant and abstraction *)

Record wf (rb : t) : Prop := {
  wf_size : 0 < size rb < SIZE_WIDTH;
  wf_len : Z.of_nat (length (buffer rb)) = size rb;
  wf_w : 0 <= writePos rb < size rb;
  wf_r : 0 <= readPos rb < size rb;
  wf_avail : 0 <= dataAvailable rb <= size rb;
  wf_link : writePos rb = (readPos rb + dataAvailable rb) mod size rb;
  wf_mutex : mutex rb = true
}.

(** The queued bytes, oldest first. *)
Definition contents (rb : t) : list Z :=
  map (fun i => nth (Z.to_nat ((readPos rb + Z.of_nat i) mod size rb))
                    (buffer rb) 0)
      (seq 0 (Z.to_nat (dataAvailable rb))).

Definition free_space (rb : t) : Z := size rb - dataAvailable rb.

End RingBuffer.

#[global] Instance RingBuffer_eq_dec : EqDecision RingBuffer.t.
Proof. solve_decision. Defined.

(** ** Sequences of ring-buffer operations *)

(** One completed call.  [write] and [read] carry what the mutex does
    during their bounded wait; [reset] waits with [portMAX_DELAY], so a
    completed [reset] found the mutex given back after [ms] milliseconds. *)
Inductive rb_op : Type :=
| OpWrite (h : holder) (data : list Z)
| OpRead (h : holder) (len : Z)
| OpReset (ms : Z).

(** What a call did: the value it returned. *)
Inductive rb_event : Type :=
| EvWrote (n : Z)
| EvRead (n : Z)
| EvReset.

Definition rb_exec (rb : RingBuffer.t) (op : rb_op)
  : option (RingBuffer.t * rb_event) :=
  match op with
  | OpWrite h data =>
      '(rb', n) ← RingBuffer.write h rb data; Some (rb', EvWrote n)
  | OpRead h len =>
      '(rb', _, n) ← RingBuffer.read h rb len; Some (rb', EvRead n)
  | OpReset ms =>
      rb' ← RingBuffer.reset (ReleasedAfter ms) rb; Some (rb', EvReset)
  end.

(** Runs the calls in order; the events are listed oldest first. *)
Fixpoint rb_run (rb : RingBuffer.t) (ops : list rb_op)
  : option (RingBuffer.t * list rb_event) :=
  match ops with
  | [] => Some (rb, [])
  | op :: ops' =>
      '(rb1, ev) ← rb_exec rb op;
      '(rb2, evs) ← rb_run rb1 ops';
      Some (rb2, ev :: evs)
  end.

(** [len] of a [read] is a [size_t]. *)
Definition rb_op_ok (op : rb_op) : Prop :=
  match op with
  | OpRead _ len => 0 <= len < SIZE_WIDTH
  | _ => True
  end.

(** Bytes written and read over the whole history. *)
Definition total_written (evs : list rb_event) : Z :=
  fold_right (fun ev acc => match ev with EvWrote n => n + acc | _ => acc end)
             0 evs.

Definition total_read (evs : list rb_event) : Z :=
  fold_right (fun ev acc => match ev with EvRead n => n + acc | _ => acc end)
             0 evs.

(** Bytes written and read since the most recent [reset]: the pair
    (written, read) after the events, starting from [(w, r)]. *)
Fixpoint since_reset (w r : Z) (evs : list rb_event) : Z * Z :=
  match evs with
  | [] => (w, r)
  | EvWrote n :: evs' => since_reset (w + n) r evs'
  | EvRead n :: evs' => since_reset w (r + n) evs'
  | EvReset :: evs' => since_reset 0 0 evs'
  end.

Definition written_since_reset (evs : list rb_event) : Z :=
  (since_reset 0 0 evs).1.

Definition read_since_reset (evs : list rb_event) : Z :=
  (since_reset 0 0 evs).2.

(** ** Outcomes of task code *)

(** A piece of task code finishes with a value, waits for ever on a
    mutex, leaves defined C behaviour (a null buffer, a read outside an
    array), or is cut by the fuel of a loop of the model. *)
Inductive result (A : Type) : Type :=
| Ok (a : A)
| Blocks
| Fault
| OutOfFuel.

Arguments Ok {A} a.
Arguments Blocks {A}.
Arguments Fault {A}.
Arguments OutOfFuel {A}.

Definition rbind {A B : Type} (m : result A) (k : A -> result B) : result B :=
  match m with
  | Ok a => k a
  | Blocks => Blocks
  | Fault => Fault
  | OutOfFuel => OutOfFuel
  end.

(** A call that returns [None] when its wait never ends. *)
Definition call {A : Type} (o : option A) : result A :=
  match o with
  | Some a => Ok a
  | None => Blocks
  end.

(** A call of a method of the ring buffer [rb]: every method takes the
    mutex of the buffer first, which is a fault when the handle is null. *)
Definition rb_call {A : Type} (rb : RingBuffer.t) (o : option A) : result A :=
  if RingBuffer.mutex rb then call o else Fault.

Notation "'do' x <- m ; k" := (rbind m (fun x => k))
  (at level 10, x pattern, m at level 100, k at level 200).

(** ** The state of the radio *)

(** Modelled from the spec: [RadioState_t] is declared in the HAL base
    header, which is not among the sources; its values are the four
    lifecycle states, under the names the code uses. *)
Inductive RadioState_t : Type :=
| RADIO_STOPPED
| RADIO_BUFFERING
| RADIO_PLAYING
| RADIO_ERROR.

(** Modelled from the spec: [RadioMetadata_t] is declared in the same
    header; its fields are the four attributes of the metadata, under the
    names the code uses.  Strings are lists of bytes. *)
Record RadioMetadata_t : Type := mkMeta {
  title : list Z;
  station : list Z;
  bitrate : Z;
  bufferPercent : Z
}.

(** [s_radio].  A task handle is the number of the task; [mutex] and
    [hal] tell whether the pointer is set. *)
Record RadioStreamState : Type := mkRadio {
  mutex : bool;
  state : RadioState_t;
  currentUrl : list Z;
  streamTitle : list Z;
  icyMetaInt : Z;
  bytesUntilMeta : Z;
  stopRequested : bool;
  httpTask : option nat;
  audioTask : option nat;
  ringBuffer : option RingBuffer.t;   (* [None]: [buffer == nullptr] *)
  spectrum : list Z;
  hal : bool;
  streamId : Z
}.

Inductive log_msg : Type :=
| WarnRingBufferFull (dropped : Z)
| WarnIcySpansChunks (metaLen : Z)
| WarnHttpTaskStillRunning
| WarnAudioTaskStillRunning
| WarnNoValidFrame (bytesRead : Z)
| InfoIcyMetaInt (n : Z)
| InfoStation (name : list Z)
| InfoNowPlaying (t : list Z)
| InfoFoundHeader (offset : Z)
| InfoMsg (text : string)
| ErrorMsg (text : string).

(** The statics of the byte source handed to the decoder. *)
Record AudioStatics : Type := mkAudio {
  s_audio_ring_buffer : bool;
  s_stream_position : Z;
  s_header_buffer : option (list Z);
  s_header_bytes_saved : Z;
  s_header_read_pos : Z;
  s_header_replay_mode : bool;
  s_first_header_read_logged : bool
}.

(** Everything the radio code reads and writes: [s_radio], the file
    statics, the two function statics [lastFullLog], the HAL members
    [_radio_state] and [radioMetadata], and the log. *)
Record World : Type := mkWorld {
  s_radio : RadioStreamState;
  s_http_task_stream_id : Z;
  audio : AudioStatics;
  lastFullLog_icy : Z;
  lastFullLog_raw : Z;
  _radio_state : RadioState_t;
  radioMetadata : RadioMetadata_t;
  log : list log_msg
}.

Definition set_radio (f : RadioStreamState -> RadioStreamState) (w : World) : World :=
  mkWorld (f (s_radio w)) (s_http_task_stream_id w) (audio w)
          (lastFullLog_icy w) (lastFullLog_raw w) (_radio_state w)
          (radioMetadata w) (log w).

Definition set_meta (f : RadioMetadata_t -> RadioMetadata_t) (w : World) : World :=
  mkWorld (s_radio w) (s_http_task_stream_id w) (audio w)
          (lastFullLog_icy w) (lastFullLog_raw w) (_radio_state w)
          (f (radioMetadata w)) (log w).

Definition set_audio (f : AudioStatics -> AudioStatics) (w : World) : World :=
  mkWorld (s_radio w) (s_http_task_stream_id w) (f (audio w))
          (lastFullLog_icy w) (lastFullLog_raw w) (_radio_state w)
          (radioMetadata w) (log w).

Definition set_hal_state (st : RadioState_t) (w : World) : World :=
  mkWorld (s_radio w) (s_http_task_stream_id w) (audio w)
          (lastFullLog_icy w) (lastFullLog_raw w) st
          (radioMetadata w) (log w).

Definition set_http_task_stream_id (id : Z) (w : World) : World :=
  mkWorld (s_radio w) id (audio w)
          (lastFullLog_icy w) (lastFullLog_raw w) (_radio_state w)
          (radioMetadata w) (log w).

Definition set_lastFullLog_icy (t : Z) (w : World) : World :=
  mkWorld (s_radio w) (s_http_task_stream_id w) (audio w)
          t (lastFullLog_raw w) (_radio_state w)
          (radioMetadata w) (log w).

Definition set_lastFullLog_raw (t : Z) (w : World) : World :=
  mkWorld (s_radio w) (s_http_task_stream_id w) (audio w)
          (lastFullLog_icy w) t (_radio_state w)
          (radioMetadata w) (log w).

(** Messages are appended: the log reads oldest first. *)
Definition add_log (m : log_msg) (w : World) : World :=
  mkWorld (s_radio w) (s_http_task_stream_id w) (audio w)
          (lastFullLog_icy w) (lastFullLog_raw w) (_radio_state w)
          (radioMetadata w) (log w ++ [m]).

(** Field updates of [s_radio]. *)
Definition with_state (st : RadioState_t) (r : RadioStreamState) :=
  mkRadio (mutex r) st (currentUrl r) (streamTitle r) (icyMetaInt r)
          (bytesUntilMeta r) (stopRequested r) (httpTask r) (audioTask r)
          (ringBuffer r) (spectrum r) (hal r) (streamId r).

Definition with_streamTitle (t : list Z) (r : RadioStreamState) :=
  mkRadio (mutex r) (state r) (currentUrl r) t (icyMetaInt r)
          (bytesUntilMeta r) (stopRequested r) (httpTask r) (audioTask r)
          (ringBuffer r) (spectrum r) (hal r) (streamId r).

Definition with_icyMetaInt (n : Z) (r : RadioStreamState) :=
  mkRadio (mutex r) (state r) (currentUrl r) (streamTitle r) n
          (bytesUntilMeta r) (stopRequested r) (httpTask r) (audioTask r)
          (ringBuffer r) (spectrum r) (hal r) (streamId r).

Definition with_bytesUntilMeta (n : Z) (r : RadioStreamState) :=
  mkRadio (mutex r) (state r) (currentUrl r) (streamTitle r) (icyMetaInt r)
          n (stopRequested r) (httpTask r) (audioTask r)
          (ringBuffer r) (spectrum r) (hal r) (streamId r).

Definition with_stopRequested (b : bool) (r : RadioStreamState) :=
  mkRadio (mutex r) (state r) (currentUrl r) (streamTitle r) (icyMetaInt r)
          (bytesUntilMeta r) b (httpTask r) (audioTask r)
          (ringBuffer r) (spectrum r) (hal r) (streamId r).

Definition with_httpTask (t : option nat) (r : RadioStreamState) :=
  mkRadio (mutex r) (state r) (currentUrl r) (streamTitle r) (icyMetaInt r)
          (bytesUntilMeta r) (stopRequested r) t (audioTask r)
          (ringBuffer r) (spectrum r) (hal r) (streamId r).

Definition with_audioTask (t : option nat) (r : RadioStreamState) :=
  mkRadio (mutex r) (state r) (currentUrl r) (streamTitle r) (icyMetaInt r)
          (bytesUntilMeta r) (stopRequested r) (httpTask r) t
          (ringBuffer r) (spectrum r) (hal r) (streamId r).

Definition with_ringBuffer (rb : option RingBuffer.t) (r : RadioStreamState) :=
  mkRadio (mutex r) (state r) (currentUrl r) (streamTitle r) (icyMetaInt r)
          (bytesUntilMeta r) (stopRequested r) (httpTask r) (audioTask r)
          rb (spectrum r) (hal r) (streamId r).

Definition with_spectrum (sp : list Z) (r : RadioStreamState) :=
  mkRadio (mutex r) (state r) (currentUrl r) (streamTitle r) (icyMetaInt r)
          (bytesUntilMeta r) (stopRequested r) (httpTask r) (audioTask r)
          (ringBuffer r) sp (hal r) (streamId r).

Definition with_title (t : list Z) (m : RadioMetadata_t) :=
  mkMeta t (station m) (bitrate m) (bufferPercent m).

Definition with_station (t : list Z) (m : RadioMetadata_t) :=
  mkMeta (title m) t (bitrate m) (bufferPercent m).

Definition with_bitrate (n : Z) (m : RadioMetadata_t) :=
  mkMeta (title m) (station m) n (bufferPercent m).

Definition with_bufferPercent (n : Z) (m : RadioMetadata_t) :=
  mkMeta (title m) (station m) (bitrate m) n.

(** The mutexes as the running task meets them: the mutex of the ring
    buffer, [s_radio.mutex], and the tick clock in milliseconds. *)
Record Env : Type := mkEnv {
  rb_holder : holder;
  radio_holder : holder;
  now_ms : Z
}.

(** ** C strings *)

(** The bytes of a string literal. *)
Definition bytes (s : string) : list Z :=
  map (fun a => Z.of_N (N_of_ascii a)) (list_ascii_of_string s).

(** The C string that starts at a pointer into [mem]: the bytes before the
    first NUL.  The memory after the received chunk is taken to be a NUL. *)
Fixpoint c_str (mem : list Z) : list Z :=
  match mem with
  | [] => []
  | b :: rest => if b =? 0 then [] else b :: c_str rest
  end.

Fixpoint starts_with (needle s : list Z) : bool :=
  match needle, s with
  | [], _ => true
  | _ :: _, [] => false
  | n :: needle', c :: s' => (n =? c) && starts_with needle' s'
  end.

(** [strstr]: the string from the first occurrence of [needle] on. *)
Fixpoint strstr (s needle : list Z) : option (list Z) :=
  if starts_with needle s then Some s
  else match s with
       | [] => None
       | _ :: s' => strstr s' needle
       end.

(** [strchr] for a character other than NUL. *)
Fixpoint strchr (s : list Z) (c : Z) : option (list Z) :=
  match s with
  | [] => None
  | b :: s' => if b =? c then Some s else strchr s' c
  end.

(** ** ICY metadata parsing *)

(** [metadata] is the chunk from the first byte of the frame on; [strstr]
    and [strchr] do not look at [len]. *)

Definition parse_icy_metadata (e : Env) (w : World) (metadata : list Z)
    (len : Z) : result World :=
  match strstr (c_str metadata) (bytes "StreamTitle='") with
  | Some found =>
      let titleStart := drop 13 found in
      match strchr titleStart 39 with
      | Some titleEnd =>
          let titleLen :=
            Z.of_nat (length titleStart) - Z.of_nat (length titleEnd) in
          if (0 <? titleLen) && ((0 <? titleLen) && (titleLen <? 256)) then
            do taken <- call (xSemaphoreTake (radio_holder e) (pdMS_TO_TICKS 100));
            if (taken : bool) then
              let t := take (Z.to_nat titleLen) titleStart in
              let w1 := set_radio (with_streamTitle t) w in
              let w2 := if hal (s_radio w1)
                        then set_meta (with_title t) w1 else w1 in
              Ok (add_log (InfoNowPlaying t) w2)
            else Ok w
          else Ok w
      | None => Ok w
      end
  | None => Ok w
  end.

(** ** HTTP event handler *)

Inductive esp_err_t : Type := ESP_OK | ESP_FAIL.

(** A response header, after [strcasecmp] on the key and, for the two
    numbers, [atoi] on the value. *)
Inductive http_header : Type :=
| icy_metaint (value : Z)
| icy_name (value : list Z)
| icy_br (value : Z)
| other_header.

Inductive esp_http_client_event_t : Type :=
| HTTP_EVENT_ON_HEADER (h : http_header)
| HTTP_EVENT_ON_DATA (data : list Z)
| HTTP_EVENT_OTHER.

(** [ringBuffer.write] from the handler, with the rate-limited warning
    of the ICY branch. *)
Definition write_audio (e : Env) (w : World) (chunk : list Z) : result World :=
  match ringBuffer (s_radio w) with
  | None => Fault
  | Some rb =>
      do (rb', written) <- rb_call rb (RingBuffer.write (rb_holder e) rb chunk);
      let w1 := set_radio (with_ringBuffer (Some rb')) w in
      Ok (if written <? Z.of_nat (length chunk) then
            if 1000 <? size_wrap (now_ms e - lastFullLog_icy w1) then
              set_lastFullLog_icy (now_ms e)
                (add_log (WarnRingBufferFull (Z.of_nat (length chunk) - written)) w1)
            else w1
          else w1)
  end.

(** The [while] loop of the ICY branch; [dataPos] is the loop variable and
    every turn of the loop takes one unit of [fuel].  The [int] values of
    the loop stay between 0 and the chunk length plus 4080. *)
Fixpoint icy_loop (e : Env) (fuel : nat) (w : World) (data : list Z)
    (dataPos : Z) : result World :=
  let dataLen := Z.of_nat (length data) in
  if (dataPos <? dataLen)
     && (s_http_task_stream_id w =? streamId (s_radio w)) then
    match fuel with
    | O => OutOfFuel
    | S fuel' =>
        if 0 <? bytesUntilMeta (s_radio w) then
          let audioBytes :=
            if dataLen - dataPos <? bytesUntilMeta (s_radio w)
            then dataLen - dataPos else bytesUntilMeta (s_radio w) in
          do w1 <- write_audio e w
                     (take (Z.to_nat audioBytes) (drop (Z.to_nat dataPos) data));
          icy_loop e fuel'
            (set_radio (with_bytesUntilMeta
                          (bytesUntilMeta (s_radio w1) - audioBytes)) w1)
            data (dataPos + audioBytes)
        else
          let metaLen := nth (Z.to_nat dataPos) data 0 * 16 in
          let dataPos := dataPos + 1 in
          do (w1, dataPos) <-
            (if 0 <? metaLen then
               if dataPos + metaLen <=? dataLen then
                 do w1 <- parse_icy_metadata e w
                            (drop (Z.to_nat dataPos) data) metaLen;
                 Ok (w1, dataPos + metaLen)
               else
                 Ok (add_log (WarnIcySpansChunks metaLen) w, dataLen)
             else Ok (w, dataPos));
          icy_loop e fuel'
            (set_radio (with_bytesUntilMeta (icyMetaInt (s_radio w1))) w1)
            data dataPos
    end
  else Ok w.

(** The branch without ICY metadata. *)
Definition write_raw (e : Env) (w : World) (data : list Z) : result World :=
  match ringBuffer (s_radio w) with
  | None => Fault
  | Some rb =>
      do (rb', written) <- rb_call rb (RingBuffer.write (rb_holder e) rb data);
      let w1 := set_radio (with_ringBuffer (Some rb')) w in
      Ok (if written <? Z.of_nat (length data) then
            if 1000 <? size_wrap (now_ms e - lastFullLog_raw w1) then
              set_lastFullLog_raw (now_ms e)
                (add_log (WarnRingBufferFull (Z.of_nat (length data) - written)) w1)
            else w1
          else w1)
  end.

(** "Update buffer percentage". *)
Definition update_buffer_percent (e : Env) (w : World) : result World :=
  do taken <- call (xSemaphoreTake (radio_holder e) (pdMS_TO_TICKS 10));
  if (taken : bool) then
    if hal (s_radio w) then
      match ringBuffer (s_radio w) with
      | None => Fault
      | Some rb =>
          do pct <- rb_call rb (RingBuffer.bufferPercent (rb_holder e) rb);
          Ok (set_meta (with_bufferPercent pct) w)
      end
    else Ok w
  else Ok w.

Definition http_event_handler (e : Env) (w : World)
    (evt : esp_http_client_event_t) : result (World * esp_err_t) :=
  match evt with
  | HTTP_EVENT_ON_HEADER (icy_metaint v) =>
      Ok (add_log (InfoIcyMetaInt v)
            (set_radio (fun r => with_bytesUntilMeta v (with_icyMetaInt v r)) w),
          ESP_OK)
  | HTTP_EVENT_ON_HEADER (icy_name v) =>
      do taken <- call (xSemaphoreTake (radio_holder e) (pdMS_TO_TICKS 100));
      if (taken : bool) then
        let w1 := if hal (s_radio w) then set_meta (with_station v) w else w in
        Ok (add_log (InfoStation v) w1, ESP_OK)
      else Ok (w, ESP_OK)
  | HTTP_EVENT_ON_HEADER (icy_br v) =>
      do taken <- call (xSemaphoreTake (radio_holder e) (pdMS_TO_TICKS 100));
      if (taken : bool) then
        Ok (if hal (s_radio w) then set_meta (with_bitrate v) w else w, ESP_OK)
      else Ok (w, ESP_OK)
  | HTTP_EVENT_ON_HEADER other_header => Ok (w, ESP_OK)
  | HTTP_EVENT_ON_DATA data =>
      if stopRequested (s_radio w) then Ok (w, ESP_FAIL)
      else if negb (s_http_task_stream_id w =? streamId (s_radio w))
      then Ok (w, ESP_FAIL)
      else
        do w1 <- (if 0 <? icyMetaInt (s_radio w)
                  then icy_loop e (length data) w data 0
                  else write_raw e w data);
        do w2 <- update_buffer_percent e w1;
        Ok (w2, ESP_OK)
  | HTTP_EVENT_OTHER => Ok (w, ESP_OK)
  end.

(** The body chunks of one connection, handed to the handler in order;
    delivery ends when the handler asks for the request to be stopped. *)
Fixpoint feed (e : Env) (w : World) (chunks : list (list Z)) : result World :=
  match chunks with
  | [] => Ok w
  | c :: rest =>
      do (w1, err) <- http_event_handler e w (HTTP_EVENT_ON_DATA c);
      match err with
      | ESP_OK => feed e w1 rest
      | ESP_FAIL => Ok w1
      end
  end.

(** ** The ICY framing, byte by byte *)

(** Where the stream stands: [InAudio k], [k] audio bytes before the next
    length byte; [AtLength], the next byte is a length byte;
    [InMeta m], [m] metadata bytes left in the frame. *)
Inductive icy_phase : Type :=
| InAudio (k : Z)
| AtLength
| InMeta (m : Z).

Definition icy_step (N : Z) (ph : icy_phase) (b : Z) : icy_phase * list Z :=
  match ph with
  | InAudio k => (if k <=? 1 then AtLength else InAudio (k - 1), [b])
  | AtLength => (if b =? 0 then InAudio N else InMeta (b * 16), [])
  | InMeta m => (if m <=? 1 then InAudio N else InMeta (m - 1), [])
  end.

(** The audio bytes of a stream, and the phase at its end. *)
Fixpoint icy_audio (N : Z) (ph : icy_phase) (stream : list Z) : list Z :=
  match stream with
  | [] => []
  | b :: rest =>
      let '(ph', out) := icy_step N ph b in out ++ icy_audio N ph' rest
  end.

Fixpoint icy_phase_after (N : Z) (ph : icy_phase) (stream : list Z) : icy_phase :=
  match stream with
  | [] => ph
  | b :: rest => icy_phase_after N (icy_step N ph b).1 rest
  end.

(** The phase that the counter [bytesUntilMeta] stands for. *)
Definition phase_of (k : Z) : icy_phase :=
  if 0 <? k then InAudio k else AtLength.

Definition in_meta (ph : icy_phase) : bool :=
  match ph with InMeta _ => true | _ => false end.

(** No chunk ends inside a metadata frame (between a length byte that is
    not zero and the last byte of its frame). *)
Fixpoint frames_unsplit (N : Z) (ph : icy_phase) (chunks : list (list Z)) : bool :=
  match chunks with
  | [] => true
  | c :: rest =>
      let ph' := icy_phase_after N ph c in
      negb (in_meta ph') && frames_unsplit N ph' rest
  end.

Definition is_byte (b : Z) : Prop := 0 <= b < 256.

(** ** The controller: [HalEsp32] *)

(** The state before the first call.  [HalBase::radioMetadata] is
    declared in a header that is not part of the sources at hand, so its
    initial value is a parameter. *)
Definition initial_world (meta0 : RadioMetadata_t) : World :=
  {| s_radio :=
       {| mutex := false; state := RADIO_STOPPED; currentUrl := [];
          streamTitle := []; icyMetaInt := 0; bytesUntilMeta := 0;
          stopRequested := false; httpTask := None; audioTask := None;
          ringBuffer := None; spectrum := repeat 0 (Z.to_nat SPECTRUM_BANDS);
          hal := false; streamId := 0 |};
     s_http_task_stream_id := 0;
     audio :=
       {| s_audio_ring_buffer := false; s_stream_position := 0;
          s_header_buffer := None; s_header_bytes_saved := 0;
          s_header_read_pos := 0; s_header_replay_mode := false;
          s_first_header_read_logged := false |};
     lastFullLog_icy := 0; lastFullLog_raw := 0;
     _radio_state := RADIO_STOPPED;
     radioMetadata := meta0;
     log := [] |}.

Definition getRadioState (e : Env) (w : World) : result RadioState_t :=
  if negb (mutex (s_radio w)) then Ok RADIO_STOPPED
  else
    do taken <- call (xSemaphoreTake (radio_holder e) (pdMS_TO_TICKS 100));
    if (taken : bool) then Ok (state (s_radio w)) else Ok (_radio_state w).

(** What the two tasks do while [stopRadioStream] polls their handles:
    [true] when the task clears its own handle before the 50 polls are
    over. *)
Record StopEnv : Type := mkStopEnv {
  audio_exits : bool;
  http_exits : bool
}.

(** One of the two wait loops of [stopRadioStream]: the handle after the
    loop. *)
Definition wait_for_task (handle : option nat) (exits : bool) : option nat :=
  match handle with
  | Some t => if exits then None else Some t
  | None => None
  end.

Definition stopRadioStream (e : Env) (se : StopEnv) (w : World) : result World :=
  let w := add_log (InfoMsg "Stopping radio stream") w in
  let w := set_radio (with_stopRequested true) w in
  let w := set_radio (fun r => with_audioTask
                                 (wait_for_task (audioTask r) (audio_exits se)) r) w in
  let w := set_radio (fun r => with_httpTask
                                 (wait_for_task (httpTask r) (http_exits se)) r) w in
  let w := match httpTask (s_radio w) with
           | Some _ => set_radio (with_httpTask None)
                         (add_log WarnHttpTaskStillRunning w)
           | None => w
           end in
  let w := match audioTask (s_radio w) with
           | Some _ => set_radio (with_audioTask None)
                         (add_log WarnAudioTaskStillRunning w)
           | None => w
           end in
  let w := set_audio (fun a => mkAudio false 0 (s_header_buffer a)
                                 (s_header_bytes_saved a) (s_header_read_pos a)
                                 (s_header_replay_mode a)
                                 (s_first_header_read_logged a)) w in
  do w <- (if mutex (s_radio w) then
             do taken <- call (xSemaphoreTake (radio_holder e) portMAX_DELAY);
             Ok (if (taken : bool)
                 then set_radio (with_state RADIO_STOPPED) w else w)
           else Ok w);
  let w := set_hal_state RADIO_STOPPED w in
  Ok (set_meta (fun m => with_bufferPercent 0 (with_title [] m)) w).

(** What [startRadioStream] gets from the system: the outcome of the stop
    waits, of the allocations and of the two [xTaskCreate], and the
    numbers of the tasks created. *)
Record StartEnv : Type := mkStartEnv {
  stop_env : StopEnv;
  mutex_created : bool;
  ring_memory : option (list Z);   (* [None]: both allocations failed *)
  ring_mutex_created : bool;       (* [xSemaphoreCreateMutex] in [init] *)
  http_created : option nat;
  audio_created : option nat
}.

(** "Initialize ring buffer" in [startRadioStream]: [init] is called when
    [buffer] is null.  Returns whether the start goes on. *)
Definition init_ring_buffer (se : StartEnv) (w : World) : World * bool :=
  match ringBuffer (s_radio w) with
  | Some _ => (w, true)
  | None =>
      let '(rb, ok) := RingBuffer.init (ring_memory se)
                         (ring_mutex_created se) RING_BUFFER_SIZE in
      (set_radio (with_ringBuffer rb) w, ok)
  end.

Definition startRadioStream (e : Env) (se : StartEnv) (w : World)
    (url : list Z) : result (World * bool) :=
  let w := add_log (InfoMsg "Starting radio stream") w in
  do w <- stopRadioStream e (stop_env se) w;
  if negb (mutex (s_radio w)) && negb (mutex_created se) then
    Ok (add_log (ErrorMsg "Failed to create radio mutex") w, false)
  else
    let w := set_radio (fun r =>
               mkRadio true (state r) (currentUrl r) (streamTitle r)
                       (icyMetaInt r) (bytesUntilMeta r) (stopRequested r)
                       (httpTask r) (audioTask r) (ringBuffer r) (spectrum r)
                       (hal r) (streamId r)) w in
    let '(w, ok) := init_ring_buffer se w in
    if negb ok then
      Ok (add_log (ErrorMsg "Failed to init ring buffer") w, false)
    else
    match ringBuffer (s_radio w) with
    | None => Fault
    | Some rb =>
        do rb <- rb_call rb (RingBuffer.reset (rb_holder e) rb);
        let w := set_radio (with_ringBuffer (Some rb)) w in
        do taken <- call (xSemaphoreTake (radio_holder e) portMAX_DELAY);
        let w :=
          if (taken : bool) then
            let w := set_radio (fun r =>
                       mkRadio (mutex r) RADIO_BUFFERING url [] 0 0 false
                               (httpTask r) (audioTask r) (ringBuffer r)
                               (repeat 0 (Z.to_nat SPECTRUM_BANDS)) true
                               (size_wrap (streamId r + 1))) w in
            let w := set_meta (fun m => mkMeta [] [] (bitrate m) 0) w in
            add_log (InfoMsg "Starting stream") w
          else w in
        let w := set_hal_state RADIO_BUFFERING w in
        match http_created se with
        | None =>
            Ok (set_hal_state RADIO_ERROR
                  (add_log (ErrorMsg "Failed to create HTTP stream task") w),
                false)
        | Some ht =>
            let w := set_radio (with_httpTask (Some ht)) w in
            match audio_created se with
            | None =>
                Ok (set_hal_state RADIO_ERROR
                      (set_radio (with_stopRequested true)
                         (add_log (ErrorMsg "Failed to create audio decode task") w)),
                    false)
            | Some at_ =>
                Ok (set_radio (with_audioTask (Some at_)) w, true)
            end
        end
    end.

Definition getRadioSpectrum (w : World) (out : list Z) (len : Z) : list Z :=
  let copyLen := if len <? SPECTRUM_BANDS then len else SPECTRUM_BANDS in
  take (Z.to_nat copyLen) (spectrum (s_radio w)) ++ drop (Z.to_nat copyLen) out.

(** The first statements of [http_stream_task]: the task reads the live
    stream id and stores it in the file static. *)
Definition http_stream_task_begin (w : World) : World * Z :=
  let myStreamId := streamId (s_radio w) in
  (add_log (InfoMsg "HTTP stream task started")
     (set_http_task_stream_id myStreamId w), myStreamId).

(** The last statements of [http_stream_task], once
    [esp_http_client_perform] has returned [err]. *)
Definition http_stream_task_end (e : Env) (w : World) (err : esp_err_t)
  : result World :=
  do w <- match err with
          | ESP_FAIL =>
              if stopRequested (s_radio w) then
                Ok (add_log (InfoMsg "HTTP stream stopped by user request") w)
              else
                let w := add_log (ErrorMsg "HTTP stream error") w in
                do taken <- call (xSemaphoreTake (radio_holder e) portMAX_DELAY);
                Ok (if (taken : bool)
                    then set_radio (with_state RADIO_ERROR) w else w)
          | ESP_OK =>
              Ok (add_log (InfoMsg "HTTP stream completed normally") w)
          end;
  Ok (set_radio (with_httpTask None)
        (add_log (InfoMsg "HTTP stream task ended") w)).

(** ** The tasks side by side *)

(** The HTTP tasks that exist, each with the local [myStreamId] it
    captured ([None] until the task has run its first statements). *)
Record System : Type := mkSystem {
  world : World;
  http_tasks : list (nat * option Z)
}.

Inductive sys_event : Type :=
| CallStart (se : StartEnv) (url : list Z)   (* the caller runs [startRadioStream] *)
| CallStop (se : StopEnv)                    (* the caller runs [stopRadioStream] *)
| HttpTaskBegins (t : nat)                   (* task [t] runs its first statements *)
| HttpEvent (t : nat) (evt : esp_http_client_event_t).
                                             (* the client of task [t] calls the handler *)

Fixpoint task_lookup (t : nat) (ts : list (nat * option Z)) : option (option Z) :=
  match ts with
  | [] => None
  | (t', id) :: rest => if Nat.eqb t t' then Some id else task_lookup t rest
  end.

Definition task_remove (t : nat) (ts : list (nat * option Z)) :=
  filter (fun p => negb (Nat.eqb t p.1)) ts.

Definition task_set (t : nat) (id : Z) (ts : list (nat * option Z)) :=
  map (fun p => if Nat.eqb t p.1 then (t, Some id) else p) ts.

(** The HTTP task whose handle is in [s_radio.httpTask] leaves the
    system when it exits during the wait of [stopRadioStream]. *)
Definition after_stop_wait (se : StopEnv) (w : World)
    (ts : list (nat * option Z)) :=
  match httpTask (s_radio w) with
  | Some t => if http_exits se then task_remove t ts else ts
  | None => ts
  end.

Definition sys_step (e : Env) (s : System) (ev : sys_event) : result System :=
  match ev with
  | CallStart se url =>
      let ts := after_stop_wait (stop_env se) (world s) (http_tasks s) in
      do (w, ok) <- startRadioStream e se (world s) url;
      Ok (mkSystem w
            (match httpTask (s_radio w) with
             | Some t => ts ++ [(t, None)]
             | None => ts
             end))
  | CallStop se =>
      let ts := after_stop_wait se (world s) (http_tasks s) in
      do w <- stopRadioStream e se (world s);
      Ok (mkSystem w ts)
  | HttpTaskBegins t =>
      match task_lookup t (http_tasks s) with
      | Some None =>
          let '(w, myStreamId) := http_stream_task_begin (world s) in
          Ok (mkSystem w (task_set t myStreamId (http_tasks s)))
      | _ => Ok s
      end
  | HttpEvent t evt =>
      match task_lookup t (http_tasks s) with
      | Some (Some _) =>
          do (w, err) <- http_event_handler e (world s) evt;
          match err with
          | ESP_OK => Ok (mkSystem w (http_tasks s))
          | ESP_FAIL =>
              do w <- http_stream_task_end e w ESP_FAIL;
              Ok (mkSystem w (task_remove t (http_tasks s)))
          end
      | _ => Ok s
      end
  end.

Fixpoint sys_run (e : Env) (s : System) (evs : list sys_event) : result System :=
  match evs with
  | [] => Ok s
  | ev :: rest => do s1 <- sys_step e s ev; sys_run e s1 rest
  end.

(** The bytes queued in the ring buffer of a world. *)
Definition queued (w : World) : list Z :=
  match ringBuffer (s_radio w) with
  | Some rb => RingBuffer.contents rb
  | None => []
  end.

(** ** The decode task: prebuffer wait *)

Definition HEADER_BUFFER_SIZE : Z := 4096.

(** One turn of the prebuffer loop of [audio_decode_task], with what
    follows the loop when the turn leaves it. *)
Inductive prebuffer_outcome : Type :=
| KeepWaiting                       (* [vTaskDelay(50)], then the next turn *)
| LeftDuringPrebuffer (w : World)   (* the task ends, stop was requested *)
| PrebufferComplete (w : World).    (* the state is set, playback start follows *)

Definition prebuffer_poll (e : Env) (w : World) : result prebuffer_outcome :=
  match ringBuffer (s_radio w) with
  | None => Fault
  | Some rb =>
      do avail <- rb_call rb (RingBuffer.available (rb_holder e) rb);
      if (avail <? PREBUFFER_SIZE) && negb (stopRequested (s_radio w)) then
        Ok KeepWaiting
      else if stopRequested (s_radio w) then
        Ok (LeftDuringPrebuffer
              (set_radio (with_audioTask None)
                 (add_log (InfoMsg "Audio decode task stopped during prebuffer") w)))
      else
        do taken <- call (xSemaphoreTake (radio_holder e) portMAX_DELAY);
        let w1 := if (taken : bool)
                  then set_radio (with_state RADIO_PLAYING) w else w in
        Ok (PrebufferComplete
              (add_log (InfoMsg "Prebuffer complete, starting playback") w1))
  end.

(** The prebuffer loop over the worlds that its successive turns find
    (the other tasks run between two turns).  When the list ends the task
    is still waiting. *)
Fixpoint prebuffer_wait (e : Env) (ws : list World) : result prebuffer_outcome :=
  match ws with
  | [] => Ok KeepWaiting
  | w :: rest =>
      do o <- prebuffer_poll e w;
      match o with
      | KeepWaiting => prebuffer_wait e rest
      | _ => Ok o
      end
  end.

(** ** The decode task: frame synchronisation *)

Definition valid_frame_header (b0 b1 b2 : Z) : bool :=
  if negb (b0 =? 255) || negb (Z.land b1 224 =? 224) then false
  else
    let version := Z.land (Z.shiftr b1 3) 3 in
    let layer := Z.land (Z.shiftr b1 1) 3 in
    if (version =? 1) || (layer =? 0) then false
    else
      let bitrateIdx := Z.land (Z.shiftr b2 4) 15 in
      let sampleRateIdx := Z.land (Z.shiftr b2 2) 3 in
      if (bitrateIdx =? 0) || (bitrateIdx =? 15) || (sampleRateIdx =? 3)
      then false else true.

(** The scan loop [for (i = 0; i < bytesRead - 3; i++)]: [bound] is the
    value of [bytesRead - 3] as a [size_t]; a read outside the header
    buffer is a fault.  Returns [syncOffset]. *)
Fixpoint sync_scan (fuel : nat) (hb : list Z) (bound i : Z) : result Z :=
  if i <? bound then
    match fuel with
    | O => OutOfFuel
    | S fuel' =>
        match hb !! Z.to_nat i, hb !! Z.to_nat (i + 1), hb !! Z.to_nat (i + 2) with
        | Some b0, Some b1, Some b2 =>
            if valid_frame_header b0 b1 b2 then Ok i
            else sync_scan fuel' hb bound (i + 1)
        | _, _, _ => Fault
        end
    end
  else Ok (-1).

Definition find_sync (hb : list Z) (bytesRead : Z) : result Z :=
  sync_scan (S (length hb)) hb (size_wrap (bytesRead - 3)) 0.

(** [memmove(buf, buf + off, n)]; the bytes moved lie inside the
    buffer, or the call is a fault. *)
Definition memmove_front (buf : list Z) (off n : Z) : result (list Z) :=
  if off + n <=? Z.of_nat (length buf) then
    Ok (take (Z.to_nat n) (drop (Z.to_nat off) buf) ++ drop (Z.to_nat n) buf)
  else Fault.

(** The three branches after the scan: the header buffer and
    [s_header_bytes_saved].  The count [bytesRead - syncOffset] is a
    [size_t]: it wraps when the offset found lies beyond the bytes read. *)
Definition align_header (hb : list Z) (bytesRead syncOffset : Z)
  : result (list Z * Z) :=
  if 0 <? syncOffset then
    let saved := size_wrap (bytesRead - syncOffset) in
    do hb' <- memmove_front hb syncOffset saved;
    Ok (hb', saved)
  else Ok (hb, bytesRead).

(** The whole synchroniser on a header buffer whose first [bytesRead]
    bytes were just read from the ring buffer. *)
Definition frame_sync (hb : list Z) (bytesRead : Z) : result (Z * list Z * Z) :=
  do syncOffset <- find_sync hb bytesRead;
  do (hb', saved) <- align_header hb bytesRead syncOffset;
  Ok (syncOffset, hb', saved).

(** The replay content: the first [s_header_bytes_saved] bytes of the
    header buffer. *)
Definition sync_window (a : AudioStatics) : list Z :=
  match s_header_buffer a with
  | Some hb => take (Z.to_nat (s_header_bytes_saved a)) hb
  | None => []
  end.

(** What the system answers while the decode task starts playback. *)
Record PlayerEnv : Type := mkPlayerEnv {
  header_memory : option (list Z);   (* [None]: both allocations failed *)
  player_new_ok : bool;
  fopencookie_ok : bool;
  player_play_ok : bool
}.

(** [ringbuffer_close], run by [fclose] on the stream. *)
Definition ringbuffer_close (a : AudioStatics) : AudioStatics :=
  mkAudio (s_audio_ring_buffer a) 0 (s_header_buffer a) 0 0 false
          (s_first_header_read_logged a).

(** [audio_decode_task] from the allocation of the header buffer to
    [audio_player_play]; the boolean tells whether the decoder now plays
    from the byte source backed by the ring buffer. *)
Definition audio_decode_start (e : Env) (pe : PlayerEnv) (w : World)
  : result (World * bool) :=
  let hb0 := match s_header_buffer (audio w) with
             | Some hb => Some hb
             | None => header_memory pe
             end in
  match hb0 with
  | None =>
      Ok (set_radio (with_audioTask None)
            (add_log (ErrorMsg "Failed to allocate header buffer") w), false)
  | Some hb =>
      match ringBuffer (s_radio w) with
      | None => Fault
      | Some rb =>
          do available <- rb_call rb (RingBuffer.available (rb_holder e) rb);
          let scanSize := if available <? HEADER_BUFFER_SIZE
                          then available else HEADER_BUFFER_SIZE in
          do (rb', out, bytesRead) <-
            rb_call rb (RingBuffer.read (rb_holder e) rb scanSize);
          let hb := out ++ drop (length out) hb in
          do (syncOffset, hb', saved) <- frame_sync hb bytesRead;
          let w := set_radio (with_ringBuffer (Some rb')) w in
          let w := add_log (if 0 <=? syncOffset
                            then InfoFoundHeader syncOffset
                            else WarnNoValidFrame bytesRead) w in
          let w := set_audio (fun _ => mkAudio true 0 (Some hb') saved 0 true false) w in
          if negb (player_new_ok pe) then
            Ok (set_radio (with_audioTask None)
                  (add_log (ErrorMsg "Failed to create audio player") w), false)
          else if negb (fopencookie_ok pe) then
            Ok (set_radio (with_audioTask None)
                  (add_log (ErrorMsg "Failed to create stream FILE") w), false)
          else if negb (player_play_ok pe) then
            Ok (set_radio (with_audioTask None)
                  (set_audio ringbuffer_close
                     (add_log (ErrorMsg "Failed to start playback") w)), false)
          else Ok (w, true)
      end
  end.

(** The replay branch of [ringbuffer_read]: the bytes served from the
    header buffer for a request of [size] bytes. *)
Definition header_replay_read (a : AudioStatics) (size : Z)
  : AudioStatics * list Z :=
  match s_header_buffer a with
  | Some hb =>
      if s_header_replay_mode a && (s_header_read_pos a <? s_header_bytes_saved a)
      then
        let headerAvail := size_wrap (s_header_bytes_saved a - s_header_read_pos a) in
        let toRead := if size <? headerAvail then size else headerAvail in
        let out := take (Z.to_nat toRead) (drop (Z.to_nat (s_header_read_pos a)) hb) in
        let pos := size_wrap (s_header_read_pos a + toRead) in
        (mkAudio (s_audio_ring_buffer a)
                 (size_wrap (s_stream_position a + toRead))
                 (Some hb) (s_header_bytes_saved a) pos
                 (if s_header_bytes_saved a <=? pos then false
                  else s_header_replay_mode a)
                 true,
         out)
      else (a, [])
  | None => (a, [])
  end.

(** ** The frame header as the specification words it *)

(** Follows the specification: byte0 is 0xFF, the top three bits of byte1
    are 111, the version field (bits 4-3 of byte1) is not 01, the layer
    field (bits 2-1 of byte1) is not 00, the bitrate index (top four bits
    of byte2) is neither 0000 nor 1111 and the sample-rate index
    (bits 3-2 of byte2) is not 11. *)
Definition spec_header (b0 b1 b2 : Z) : Prop :=
  b0 = 255 /\ b1 / 32 = 7 /\ (b1 / 8) mod 4 <> 1 /\ (b1 / 2) mod 4 <> 0 /\
  b2 / 16 <> 0 /\ b2 / 16 <> 15 /\ (b2 / 4) mod 4 <> 3.

(** Offset [i] of [window] starts a header in the words of the
    specification: the three bytes exist and pass the checks. *)
Definition spec_header_at (window : list Z) (i : nat) : Prop :=
  exists b0 b1 b2,
    window !! i = Some b0 /\ window !! (i + 1)%nat = Some b1 /\
    window !! (i + 2)%nat = Some b2 /\ spec_header b0 b1 b2.

(** ** Invariants used by the proofs *)

(** The ledger invariant of a buffer of capacity [C] on which [w] bytes
    were written and [r] bytes read since the last reset. *)
Definition ledger_inv (C : Z) (rb : RingBuffer.t) (w r : Z) : Prop :=
  RingBuffer.wf rb /\ RingBuffer.size rb = C /\ 0 <= r <= w /\
  RingBuffer.dataAvailable rb = w - r /\ RingBuffer.readPos rb = r mod C.

(** A live session with metadata interval [N]: the task that feeds the
    handler is the current one, no stop is requested, and the ring buffer
    [rb] is in place. *)
Definition streaming (N : Z) (w : World) (rb : RingBuffer.t) : Prop :=
  icyMetaInt (s_radio w) = N /\
  s_http_task_stream_id w = streamId (s_radio w) /\
  stopRequested (s_radio w) = false /\
  ringBuffer (s_radio w) = Some rb /\
  RingBuffer.wf rb /\
  0 <= bytesUntilMeta (s_radio w) <= N.

(** The ring buffer is allocated and has its mutex. *)
Definition ring_usable (w : World) : Prop :=
  exists rb, ringBuffer (s_radio w) = Some rb /\ RingBuffer.mutex rb = true.

(** The ring buffer has its mutex, if it is allocated: no [init] has
    failed to create it. *)
Definition ring_intact (w : World) : Prop :=
  match ringBuffer (s_radio w) with
  | Some rb => RingBuffer.mutex rb = true
  | None => True
  end.

(** [startRadioStream] gets a ring buffer with its mutex: the one it finds
    has it, or none is allocated yet and [init] will succeed. *)
Definition ring_ready (se : StartEnv) (w : World) : Prop :=
  match ringBuffer (s_radio w) with
  | Some rb => RingBuffer.mutex rb = true
  | None => is_Some (ring_memory se) /\ ring_mutex_created se = true
  end.

(** [w1] differs from [w] at most in the title, the metadata and the log. *)
Definition same_stream (w w1 : World) : Prop :=
  s_http_task_stream_id w1 = s_http_task_stream_id w /\
  ringBuffer (s_radio w1) = ringBuffer (s_radio w) /\
  icyMetaInt (s_radio w1) = icyMetaInt (s_radio w) /\
  bytesUntilMeta (s_radio w1) = bytesUntilMeta (s_radio w) /\
  stopRequested (s_radio w1) = stopRequested (s_radio w) /\
  streamId (s_radio w1) = streamId (s_radio w) /\
  state (s_radio w1) = state (s_radio w).

(** The test of the scan loop at offset [i], as a boolean. *)
Definition header_at (hb : list Z) (i : Z) : bool :=
  match hb !! Z.to_nat i, hb !! Z.to_nat (i + 1), hb !! Z.to_nat (i + 2) with
  | Some b0, Some b1, Some b2 => valid_frame_header b0 b1 b2
  | _, _, _ => false
  end.

(** The checks of [spec_header] as a boolean. *)
Definition spec_header_b (b0 b1 b2 : Z) : bool :=
  (b0 =? 255) && (b1 / 32 =? 7) && negb ((b1 / 8) mod 4 =? 1)
  && negb ((b1 / 2) mod 4 =? 0) && negb (b2 / 16 =? 0)
  && negb (b2 / 16 =? 15) && negb ((b2 / 4) mod 4 =? 3).

(** All the bytes. *)
Definition all_bytes : list Z := map Z.of_nat (seq 0 256).

(** A world without its log. *)
Definition forget_log (w : World) : World :=
  mkWorld (s_radio w) (s_http_task_stream_id w) (audio w)
          (lastFullLog_icy w) (lastFullLog_raw w) (_radio_state w)
          (radioMetadata w) [].

(** What [available()] returns to the decode task in the world [w]. *)
Definition seen_avail (e : Env) (w : World) : Z :=
  match ringBuffer (s_radio w) with
  | Some rb => default 0 (RingBuffer.available (rb_holder e) rb)
  | None => 0
  end.

(** The prebuffer loop goes on in [w]: below the threshold and no stop. *)
Definition still_waiting (e : Env) (w : World) : Prop :=
  seen_avail e w < PREBUFFER_SIZE /\ stopRequested (s_radio w) = false.

(** What an outcome of the prebuffer loop says about the worlds [ws]
    that its turns found. *)
Definition prebuffer_outcome_ok (e : Env) (ws : list World)
    (o : prebuffer_outcome) : Prop :=
  match o with
  | KeepWaiting => Forall (still_waiting e) ws
  | LeftDuringPrebuffer w1 =>
      exists pre w post,
        ws = pre ++ w :: post /\ Forall (still_waiting e) pre /\
        stopRequested (s_radio w) = true /\
        state (s_radio w1) = state (s_radio w)
  | PrebufferComplete w1 =>
      exists pre w post,
        ws = pre ++ w :: post /\ Forall (still_waiting e) pre /\
        PREBUFFER_SIZE <= seen_avail e w /\
        stopRequested (s_radio w) = false /\
        state (s_radio w1) = RADIO_PLAYING /\
        ringBuffer (s_radio w1) = ringBuffer (s_radio w) /\
        audio w1 = audio w
  end.

(** The header buffer that the decode task works with: the one it has,
    else the one allocated now. *)
Definition header_buffer_for (pe : PlayerEnv) (w : World) : option (list Z) :=
  match s_header_buffer (audio w) with
  | Some hb => Some hb
  | None => header_memory pe
  end.

(** ** Concrete inputs of the examples *)

(** Both mutexes free. *)
Definition env_free : Env := mkEnv Free Free 0.

Definition meta_empty : RadioMetadata_t := mkMeta [] [] 0 0.

(** The system before the first call. *)
Definition system0 : System := mkSystem (initial_world meta_empty) [].

(** A call of [startRadioStream] in which every allocation succeeds, the
    tasks created get the numbers [http] and [audio], and the tasks of the
    previous session do or do not leave in time. *)
Definition start_ok (exits : StopEnv) (http audio : nat) : StartEnv :=
  mkStartEnv exits true (Some (repeat 0 (Z.to_nat RING_BUFFER_SIZE))) true
             (Some http) (Some audio).

(** A session that has received the header [icy-metaint: N]. *)
Definition live_session (N : Z) : list sys_event :=
  [CallStart (start_ok (mkStopEnv true true) 1 11) (bytes "http://x");
   HttpTaskBegins 1;
   HttpEvent 1 (HTTP_EVENT_ON_HEADER (icy_metaint N))].

(** The world of a live session with interval [N], counter [k] and ring
    buffer [rb], written out. *)
Definition live_world (N k : Z) (rb : RingBuffer.t) : World :=
  set_radio (fun r =>
      mkRadio true RADIO_BUFFERING (bytes "http://x") [] N k false
              (Some 1%nat) (Some 11%nat) (Some rb) (spectrum r) true 1)
    (set_http_task_stream_id 1 (initial_world meta_empty)).

(** The stream of the example: 100 audio bytes, the length byte 2, the
    frame [StreamTitle='A - B';] padded with NUL to 32 bytes, 50 audio
    bytes. *)
Definition example_audio1 : list Z := map Z.of_nat (seq 1 100).
Definition example_audio2 : list Z := map Z.of_nat (seq 101 50).
Definition example_frame : list Z :=
  bytes "StreamTitle='A - B';" ++ repeat 0 12.
Definition example_stream : list Z :=
  example_audio1 ++ [2] ++ example_frame ++ example_audio2.

(** A full ring buffer: the consumer has not drained anything. *)
Definition rb_full : RingBuffer.t :=
  RingBuffer.mk (repeat 0 (Z.to_nat RING_BUFFER_SIZE)) RING_BUFFER_SIZE
                0 0 RING_BUFFER_SIZE true.

(** What an example looks at in the outcome of a run: the queued bytes,
    [s_radio.streamTitle], [radioMetadata.title] and the counter. *)
Definition rmap {A B : Type} (f : A -> B) (r : result A) : result B :=
  do a <- r; Ok (f a).

Definition seen (s : System) : list Z * list Z * list Z * Z :=
  (queued (world s), streamTitle (s_radio (world s)),
   title (radioMetadata (world s)), bytesUntilMeta (s_radio (world s))).

(** The clock five seconds after boot, both mutexes free. *)
Definition env_later : Env := mkEnv Free Free 5000.

(** What the handler returned, whether the ring buffer is still the full
    one, the title, and the log. *)
Definition seen_sink (r : World * esp_err_t)
  : esp_err_t * bool * list Z * list log_msg :=
  (r.2, bool_decide (ringBuffer (s_radio r.1) = Some rb_full),
   streamTitle (s_radio r.1), log r.1).

(** A probe window with 37 junk bytes before a frame header, and a full
    probe window whose only header starts three bytes before its end. *)
Definition junk37_window : list Z :=
  repeat 0 37 ++ [255; 251; 144; 0; 1; 2; 3].

Definition tail_window : list Z :=
  repeat 0 4093 ++ [255; 251; 144].

(** The synchroniser seen from outside: [syncOffset] and the replay
    content. *)
Definition sync_result (r : result (Z * list Z * Z)) : result (Z * list Z) :=
  rmap (fun '(off, hb, saved) => (off, take (Z.to_nat saved) hb)) r.

(** A metadata frame of 16 bytes cut by a chunk boundary after its fifth
    byte: interval 4, audio bytes 1 to 10. *)
Definition split_frame : list Z := bytes "StreamTitle='X';".
Definition split_chunk1 : list Z := [1; 2; 3; 4] ++ [1] ++ take 5 split_frame.
Definition split_chunk2 : list Z :=
  drop 5 split_frame ++ [5; 6; 7; 8] ++ [0] ++ [9; 10].

(** Two starts in a row: the HTTP task of the first session is still in
    its request when the wait of the second start runs out, the task of
    the second session begins. *)
Definition restart_trace : list sys_event :=
  [CallStart (start_ok (mkStopEnv true true) 1 11) (bytes "http://x");
   HttpTaskBegins 1;
   CallStart (start_ok (mkStopEnv true false) 2 12) (bytes "http://y");
   HttpTaskBegins 2].

(** The id captured by task 1, the live id, the file static, and the
    queued bytes. *)
Definition seen_ids (s : System) : option (option Z) * Z * Z * list Z :=
  (task_lookup 1 (http_tasks s), streamId (s_radio (world s)),
   s_http_task_stream_id (world s), queued (world s)).

Definition seen_log (s : System) : list log_msg := log (world s).

(** The session of the example, its stream delivered in two data events
    that meet after [k] bytes. *)
Definition example_run (k : nat) : list sys_event :=
  live_session 100 ++
  [HttpEvent 1 (HTTP_EVENT_ON_DATA (take k example_stream));
   HttpEvent 1 (HTTP_EVENT_ON_DATA (drop k example_stream))].

(** The world that the prebuffer loop leaves when it finds the ring buffer
    full and no stop requested. *)
Definition playing_world : World :=
  add_log (InfoMsg "Prebuffer complete, starting playback")
    (set_radio (with_state RADIO_PLAYING) (live_world 0 0 rb_full)).

(** What an example looks at after playback start: whether the decoder
    plays from the byte source, [s_radio.state], the handle of the decode
    task, [stopRequested], the answer of [getRadioState] and the last
    message logged. *)
Definition seen_playback (e : Env) (r : World * bool)
  : bool * RadioState_t * option nat * bool * result RadioState_t * log_msg :=
  (r.2, state (s_radio r.1), audioTask (s_radio r.1),
   stopRequested (s_radio r.1), getRadioState e r.1,
   List.last (log r.1) (InfoMsg EmptyString)).

(** A header buffer of zeroed memory. *)
Definition header_zeros : list Z := repeat 0 (Z.to_nat HEADER_BUFFER_SIZE).

(** A buffer of capacity 4 that holds the single byte 7. *)
Definition rb_one_byte : RingBuffer.t :=
  RingBuffer.mk [7; 0; 0; 0] 4 1 0 1 true.

(** The empty buffer of capacity [n] that a successful [init] leaves in
    zeroed memory. *)
Definition rb_empty (n : nat) : RingBuffer.t :=
  RingBuffer.mk (repeat 0 n) (Z.of_nat n) 0 0 0 true.

(** ** The flow of bytes through the ring buffer *)

(** Runs the calls in order and keeps, since the most recent [reset], the
    bytes that [write] accepted and the bytes that [read] handed out,
    oldest first. *)
Fixpoint rb_flow (rb : RingBuffer.t) (acc del : list Z) (ops : list rb_op)
  : option (RingBuffer.t * list Z * list Z) :=
  match ops with
  | [] => Some (rb, acc, del)
  | OpWrite h data :: ops' =>
      '(rb', n) ← RingBuffer.write h rb data;
      rb_flow rb' (acc ++ take (Z.to_nat n) data) del ops'
  | OpRead h len :: ops' =>
      '(rb', out, _) ← RingBuffer.read h rb len;
      rb_flow rb' acc (del ++ out) ops'
  | OpReset ms :: ops' =>
      rb' ← RingBuffer.reset (ReleasedAfter ms) rb;
      rb_flow rb' [] [] ops'
  end.

(** ** Events of a stopped system *)

(** An event other than a call of [startRadioStream]. *)
Definition not_start (ev : sys_event) : Prop :=
  match ev with
  | CallStart _ _ => False
  | _ => True
  end.

(** ** The decode task: the byte source of the decoder *)

(** What the byte source logs. *)
Inductive read_msg : Type :=
| InfoFirstHeaderRead (toRead : Z) (first4 : list Z)
| InfoHeaderReplayComplete
| WarnBufferLow (available : Z)
| InfoBufferHealthy (kb : Z)
| WarnBufferEmpty
| WarnStillWaiting (seconds : Z)
| InfoReadStopRequested
| ErrorReadTimeout
| InfoSeekReplay (saved : Z).

(** The world as the byte source sees it: with the two function statics
    of [ringbuffer_read] and with the messages of the byte source, oldest
    first. *)
Record Source : Type := mkSource {
  src_world : World;
  lastBufferLog : Z;
  lastHealthyLog : Z;
  src_log : list read_msg
}.

Definition src_set_world (f : World -> World) (s : Source) : Source :=
  mkSource (f (src_world s)) (lastBufferLog s) (lastHealthyLog s) (src_log s).

Definition src_set_audio (f : AudioStatics -> AudioStatics) (s : Source) : Source :=
  src_set_world (set_audio f) s.

Definition src_add_log (m : read_msg) (s : Source) : Source :=
  mkSource (src_world s) (lastBufferLog s) (lastHealthyLog s) (src_log s ++ [m]).

Definition with_stream_position (p : Z) (a : AudioStatics) : AudioStatics :=
  mkAudio (s_audio_ring_buffer a) p (s_header_buffer a)
          (s_header_bytes_saved a) (s_header_read_pos a)
          (s_header_replay_mode a) (s_first_header_read_logged a).

Definition SEEK_SET : Z := 0.
Definition SEEK_CUR : Z := 1.
Definition SEEK_END : Z := 2.

(** The conversion of a [size_t] to [off_t], a 32-bit [long] on the
    target. *)
Definition off_t_of (x : Z) : Z := (x + 2 ^ 31) mod 2 ^ 32 - 2 ^ 31.

(** [ringbuffer_seek]: the state, [*offset] and the value returned. *)
Definition ringbuffer_seek (s : Source) (offset whence : Z) : Source * Z * Z :=
  let a := audio (src_world s) in
  if (whence =? SEEK_SET) && (offset =? 0) then
    match s_header_buffer a with
    | Some hb =>
        if 0 <? s_header_bytes_saved a then
          (src_add_log (InfoSeekReplay (s_header_bytes_saved a))
             (src_set_audio
                (fun a => mkAudio (s_audio_ring_buffer a) 0 (Some hb)
                                  (s_header_bytes_saved a) 0 true
                                  (s_first_header_read_logged a)) s),
           offset, 0)
        else (src_set_audio (with_stream_position 0) s, offset, 0)
    | None => (src_set_audio (with_stream_position 0) s, offset, 0)
    end
  else if (whence =? SEEK_CUR) && (offset =? 0) then
    (s, off_t_of (s_stream_position a), 0)
  else if whence =? SEEK_END then (s, offset, -1)
  else (s, offset, -1).

(** [memcpy(buf + off, data, n)] into the buffer of the caller; [None]
    when the copy leaves the buffer. *)
Definition store (buf : list Z) (off : Z) (data : list Z) : option (list Z) :=
  if off + Z.of_nat (length data) <=? Z.of_nat (length buf) then
    Some (take (Z.to_nat off) buf ++ data
          ++ drop (Z.to_nat off + length data) buf)
  else None.

(** [samples[k]] of the [int16_t] array at [mem], little-endian. *)
Definition int16_at (mem : list Z) (k : Z) : option Z :=
  lo ← mem !! Z.to_nat (2 * k);
  hi ← mem !! Z.to_nat (2 * k + 1);
  let u := lo + 256 * hi in
  Some (if u <? 32768 then u else u - 65536).

(** The inner loop of the spectrum: [sum] after the samples of one band.
    A sample outside the memory of the caller is a fault. *)
Fixpoint band_sum (mem : list Z) (numSamples samplesPerBand band : Z)
    (fuel : nat) (i sum : Z) : result Z :=
  if (i <? samplesPerBand) && (band * samplesPerBand + i <? numSamples) then
    match fuel with
    | O => OutOfFuel
    | S fuel' =>
        match int16_at mem (band * samplesPerBand + i) with
        | Some sample =>
            band_sum mem numSamples samplesPerBand band fuel'
                     (i + 1) (sum + Z.abs sample)
        | None => Fault
        end
    end
  else Ok sum.

(** The outer loop: [s_radio.spectrum] after the bands. *)
Fixpoint band_loop (mem : list Z) (numSamples samplesPerBand : Z)
    (fuel : nat) (band : Z) (sp : list Z) : result (list Z) :=
  if (band <? SPECTRUM_BANDS) && (band * samplesPerBand <? numSamples) then
    match fuel with
    | O => OutOfFuel
    | S fuel' =>
        do sum <- band_sum mem numSamples samplesPerBand band
                    (Z.to_nat samplesPerBand) 0 0;
        let avg := Z.quot sum samplesPerBand in
        band_loop mem numSamples samplesPerBand fuel' (band + 1)
          (<[Z.to_nat band := Z.quot (avg * 255) 32768 mod 256]> sp)
    end
  else Ok sp.

(** "Update spectrum data from audio": [mem] is the memory at [buf] as
    the pointer stands at that point.  The [int] values stay far below
    2^31 for the request sizes of a stream. *)
Definition read_spectrum (mem : list Z) (totalRead : Z) (sp : list Z)
  : result (list Z) :=
  let numSamples := Z.quot totalRead 2 in
  let samplesPerBand := Z.quot numSamples SPECTRUM_BANDS in
  let samplesPerBand := if samplesPerBand <? 1 then 1 else samplesPerBand in
  band_loop mem numSamples samplesPerBand (Z.to_nat SPECTRUM_BANDS) 0 sp.

(** What happens around the wait loop of [ringbuffer_read]: the mutexes
    and the clock at each turn, and what the other tasks do to the world
    during the [vTaskDelay] that ends it. *)
Record ReadEnv : Type := mkReadEnv {
  env_at : nat -> Env;
  during_delay : nat -> World -> World
}.

Definition maxRetries : Z := 3000.

(** The header replay is on and has bytes left. *)
Definition replaying (a : AudioStatics) : bool :=
  match s_header_buffer a with
  | Some _ =>
      s_header_replay_mode a && (s_header_read_pos a <? s_header_bytes_saved a)
  | None => false
  end.

(** The wait loop of [ringbuffer_read]: the state, the bytes copied from
    the ring buffer and their count.  The loop goes through the pointer
    [s_audio_ring_buffer]: a turn that finds it null is a fault. *)
Fixpoint read_wait (re : ReadEnv) (fuel : nat) (retries : Z) (s : Source)
    (size : Z) : result (Source * list Z * Z) :=
  let w := src_world s in
  if (retries <? maxRetries) && negb (stopRequested (s_radio w)) then
    match fuel with
    | O => OutOfFuel
    | S fuel' =>
        let e := env_at re (Z.to_nat retries) in
        match ringBuffer (s_radio w) with
        | None => Fault
        | Some rb =>
            if negb (s_audio_ring_buffer (audio w)) then Fault else
            do available <- rb_call rb (RingBuffer.available (rb_holder e) rb);
            if 0 <? available then
              let now := now_ms e in
              let s :=
                if (available <? MIN_BUFFER_LEVEL)
                   && (1000 <? size_wrap (now - lastBufferLog s))
                then mkSource (src_world s) now (lastHealthyLog s)
                              (src_log s ++ [WarnBufferLow available])
                else s in
              let s :=
                if (MIN_BUFFER_LEVEL <=? available)
                   && (10000 <? size_wrap (now - lastHealthyLog s))
                then mkSource (src_world s) (lastBufferLog s) now
                              (src_log s ++ [InfoBufferHealthy (available / 1024)])
                else s in
              let toRead := if size <? available then size else available in
              do (rb', out, bytesRead) <-
                rb_call rb (RingBuffer.read (rb_holder e) rb toRead);
              Ok (src_set_world (set_radio (with_ringBuffer (Some rb'))) s,
                  out, bytesRead)
            else
              let s :=
                if retries =? 0 then src_add_log WarnBufferEmpty s
                else if Z.rem retries 100 =? 0
                     then src_add_log (WarnStillWaiting (Z.quot retries 100)) s
                     else s in
              read_wait re fuel' (retries + 1)
                (src_set_world (during_delay re (Z.to_nat retries)) s) size
        end
    end
  else Ok (s, [], 0).

(** The replay branch of [ringbuffer_read]: the state, the memory of the
    caller, [totalRead], and whether the branch was taken.  A copy that
    leaves the header buffer or the buffer of the caller is a fault; the
    first message prints [buf[0..3]]. *)
Definition read_replay_part (s : Source) (buf : list Z) (size : Z)
  : result (Source * list Z * Z * bool) :=
  let a := audio (src_world s) in
  if replaying a then
    let headerAvail :=
      size_wrap (s_header_bytes_saved a - s_header_read_pos a) in
    let toRead := if size <? headerAvail then size else headerAvail in
    let '(a1, out) := header_replay_read a size in
    if negb (Z.of_nat (length out) =? toRead) then Fault
    else
      match store buf 0 out with
      | None => Fault
      | Some buf1 =>
          do s1 <-
            (if s_first_header_read_logged a then Ok s
             else if Z.of_nat (length buf1) <? 4 then Fault
                  else Ok (src_add_log
                             (InfoFirstHeaderRead toRead (take 4 buf1)) s));
          let s2 :=
            if s_header_bytes_saved a <=? s_header_read_pos a1
            then src_add_log InfoHeaderReplayComplete s1 else s1 in
          Ok (src_set_audio (fun _ => a1) s2, buf1, toRead, true)
      end
  else Ok (s, buf, 0, false).

(** [ringbuffer_read] after the replay branch, when the request is not
    yet satisfied: [size] is the count still wanted, [totalRead] the count
    already copied, which is also how far [buf] has advanced. *)
Definition read_ring_part (re : ReadEnv) (s : Source) (buf : list Z)
    (size totalRead : Z) : result (Source * list Z * Z) :=
  do (s, out, bytesRead) <- read_wait re (Z.to_nat maxRetries) 0 s size;
  match store buf totalRead out with
  | None => Fault
  | Some buf2 =>
      let s :=
        src_set_audio
          (fun a => with_stream_position
                      (size_wrap (s_stream_position a + bytesRead)) a) s in
      let totalRead' := totalRead + bytesRead in
      if totalRead' =? 0 then
        Ok (src_add_log
              (if stopRequested (s_radio (src_world s))
               then InfoReadStopRequested else ErrorReadTimeout) s,
            buf2, -1)
      else
        do sp <- read_spectrum (drop (Z.to_nat totalRead) buf2) totalRead'
                   (spectrum (s_radio (src_world s)));
        Ok (src_set_world (set_radio (with_spectrum sp)) s, buf2, totalRead')
  end.

(** [ringbuffer_read(cookie, buf, size)]: [buf] is the memory of the
    caller from the pointer on.  Returns the state, that memory and the
    value returned. *)
Definition ringbuffer_read (re : ReadEnv) (s : Source) (buf : list Z)
    (size : Z) : result (Source * list Z * Z) :=
  if negb (s_audio_ring_buffer (audio (src_world s)))
     || stopRequested (s_radio (src_world s))
  then Ok (s, buf, -1)
  else
    do (s, buf, totalRead, served) <- read_replay_part s buf size;
    if (served : bool) then
      if size <=? totalRead then Ok (s, buf, totalRead)
      else read_ring_part re s buf (size_wrap (size - totalRead)) totalRead
    else read_ring_part re s buf size totalRead.

(** The source as [audio_decode_task] leaves it to the decoder, and a
    [ReadEnv] in which nothing else runs. *)
Definition source_of (w : World) : Source := mkSource w 0 0 [].

Definition quiet (e : Env) : ReadEnv := mkReadEnv (fun _ => e) (fun _ w => w).

(** ** The decode task: after playback *)

(** [audio_decode_task] from the end of its monitor loop on. *)
Definition audio_decode_task_end (e : Env) (w : World) : result World :=
  let w := set_audio (fun a => mkAudio false (s_stream_position a)
                                 (s_header_buffer a) (s_header_bytes_saved a)
                                 (s_header_read_pos a) (s_header_replay_mode a)
                                 (s_first_header_read_logged a)) w in
  do w <- (if mutex (s_radio w) then
             do taken <- call (xSemaphoreTake (radio_holder e) (pdMS_TO_TICKS 100));
             Ok (if (taken : bool)
                 then set_radio (with_state RADIO_STOPPED) w else w)
           else Ok w);
  Ok (set_radio (with_audioTask None)
        (add_log (InfoMsg "Audio decode task ended") w)).

(** One turn of the monitor loop: [idle] is the answer of
    [audio_player_get_state], [lastStatusLog] the local of the task.
    Returns whether the loop goes on. *)
Definition monitor_poll (e : Env) (idle : bool) (lastStatusLog : Z) (w : World)
  : result (bool * Z * World) :=
  if stopRequested (s_radio w) then Ok (false, lastStatusLog, w)
  else if idle then
    Ok (false, lastStatusLog, add_log (InfoMsg "Audio player became idle") w)
  else if 5000 <? size_wrap (now_ms e - lastStatusLog) then
    match ringBuffer (s_radio w) with
    | None => Fault
    | Some rb =>
        do _ <- rb_call rb (RingBuffer.available (rb_holder e) rb);
        do _ <- rb_call rb (RingBuffer.bufferPercent (rb_holder e) rb);
        Ok (true, now_ms e, add_log (InfoMsg "Status") w)
    end
  else Ok (true, lastStatusLog, w).

(** ** Conditions on the byte source *)


(** ** Concrete inputs of the byte source *)

(** A ring buffer of capacity 16 that holds the bytes 1 to 12, and one of
    capacity 64 that holds the bytes 0 to 59. *)
Definition rb16 : RingBuffer.t :=
  RingBuffer.mk [1; 2; 3; 4; 5; 6; 7; 8; 9; 10; 11; 12; 0; 0; 0; 0] 16 12 0 12
                true.


(** The statics of a source that saved the six bytes 101 to 106 and has
    not replayed any, and those of a source without header buffer. *)
Definition replay6 : AudioStatics :=
  mkAudio true 0 (Some [101; 102; 103; 104; 105; 106; 0; 0]) 6 0 true false.


(** A live session without ICY metadata whose decoder reads from the ring
    buffer [rb] with the statics [a]. *)
Definition decoding (a : AudioStatics) (rb : RingBuffer.t) : World :=
  set_audio (fun _ => a) (live_world 0 0 rb).

(** ** The stations *)

Module radio.

Record Station : Type := mkStation {
  id : string;
  name : string;
  description : string;
  streamUrl : string;
  color : Z
}.

Definition STATIONS : list Station :=
  [ mkStation "groovesalad" "Groove Salad" "Ambient/Downtempo"
              "https://ice1.somafm.com/groovesalad-128-mp3" 0x7B68EE;
    mkStation "dronezone" "Drone Zone" "Atmospheric Textures"
              "https://ice1.somafm.com/dronezone-128-mp3" 0x4682B4;
    mkStation "spacestation" "Space Station Soma" "Spaced-out Ambient"
              "https://ice1.somafm.com/spacestation-128-mp3" 0x191970;
    mkStation "deepspaceone" "Deep Space One" "Deep Ambient"
              "https://ice1.somafm.com/deepspaceone-128-mp3" 0x2F4F4F;
    mkStation "defcon" "DEF CON Radio" "Hacker Tunes"
              "https://ice1.somafm.com/defcon-128-mp3" 0x00FF00;
    mkStation "secretagent" "Secret Agent" "Lounge/Spy Music"
              "https://ice1.somafm.com/secretagent-128-mp3" 0xDC143C;
    mkStation "lush" "Lush" "Sensuous Vocals"
              "https://ice1.somafm.com/lush-128-mp3" 0xFF69B4;
    mkStation "bootliquor" "Boot Liquor" "Americana/Roots"
              "https://ice1.somafm.com/bootliquor-128-mp3" 0x8B4513;
    mkStation "thetrip" "The Trip" "Progressive House"
              "https://ice1.somafm.com/thetrip-128-mp3" 0xFF4500;
    mkStation "cliqhop" "cliqhop idm" "IDM/Glitch"
              "https://ice1.somafm.com/cliqhop-128-mp3" 0x9400D3 ].

(** [sizeof(STATIONS) / sizeof(STATIONS[0])]. *)
Definition STATION_COUNT : Z := Z.of_nat (length STATIONS).

End radio.

(** ** The view: [RadioView] *)

(** Modelled from the spec: [WifiState_t] is declared in the HAL base
    header, which is not among the sources; its values are the
    connectivity states that the core reads, under the names the code
    uses. *)
Inductive WifiState_t : Type :=
| WIFI_DISCONNECTED
| WIFI_CONNECTING
| WIFI_CONNECTED
| WIFI_FAILED.

(** The two texts of the play button: [LV_SYMBOL_PLAY " PLAY"] and
    [LV_SYMBOL_STOP " STOP"]. *)
Inductive play_label : Type := LabelPlay | LabelStop.

(** The members of the view that its action and update methods read or
    write.  Of a label the model keeps the text, of the spinner whether it
    is hidden, of the chart the 32 points of its series (it is circular
    with 32 points, so the 32 calls of [setNextValue] of one update replace
    them all), of the dialog whether it exists; colours and borders are
    left out.  [_selected_station] is an [int] that stays far from the
    ends of its range. *)
Record RadioView : Type := mkView {
  _selected_station : Z;
  _is_playing : bool;
  _spectrum_data : list Z;
  _wifi_dialog : bool;
  _station_name_label : list Z;
  _station_desc_label : list Z;
  _track_info_label : list Z;
  _status_label : list Z;
  _buffering_spinner_hidden : bool;
  _btn_play_label : play_label;
  _spectrum_chart : list Z
}.

(** What a method of the view gets from the system when it runs: the
    mutexes and the clock, the outcomes inside [startRadioStream] and
    [stopRadioStream], and the answer of [getWifiState]. *)
Record ViewEnv : Type := mkViewEnv {
  v_env : Env;
  v_start : StartEnv;
  v_wifi : WifiState_t
}.

Definition WifiState_eqb (a b : WifiState_t) : bool :=
  match a, b with
  | WIFI_DISCONNECTED, WIFI_DISCONNECTED => true
  | WIFI_CONNECTING, WIFI_CONNECTING => true
  | WIFI_CONNECTED, WIFI_CONNECTED => true
  | WIFI_FAILED, WIFI_FAILED => true
  | _, _ => false
  end.

(** [select_station(index)]; an index outside the table past the guard
    would be a read outside [STATIONS]. *)
Definition select_station (v : RadioView) (index : Z) : result RadioView :=
  if (index <? 0) || (radio.STATION_COUNT <=? index) then Ok v
  else
    match radio.STATIONS !! Z.to_nat index with
    | None => Fault
    | Some st =>
        Ok (mkView index (_is_playing v) (_spectrum_data v) (_wifi_dialog v)
                   (bytes (radio.name st)) (bytes (radio.description st))
                   (_track_info_label v) (_status_label v)
                   (_buffering_spinner_hidden v) (_btn_play_label v)
                   (_spectrum_chart v))
    end.

Definition play_selected_station (ve : ViewEnv) (v : RadioView) (w : World)
  : result (RadioView * World) :=
  if negb (WifiState_eqb (v_wifi ve) WIFI_CONNECTED) then
    Ok (mkView (_selected_station v) (_is_playing v) (_spectrum_data v)
               true
               (_station_name_label v) (_station_desc_label v)
               (bytes "Connect to WiFi first") (_status_label v)
               (_buffering_spinner_hidden v) (_btn_play_label v)
               (_spectrum_chart v), w)
  else
    match (if _selected_station v <? 0 then None
           else radio.STATIONS !! Z.to_nat (_selected_station v)) with
    | None => Fault
    | Some st =>
        let w := add_log (InfoMsg "Playing station") w in
        do (w, _) <- startRadioStream (v_env ve) (v_start ve) w
                       (bytes (radio.streamUrl st));
        Ok (mkView (_selected_station v) true (_spectrum_data v)
                   (_wifi_dialog v)
                   (_station_name_label v) (_station_desc_label v)
                   (_track_info_label v) (_status_label v)
                   (_buffering_spinner_hidden v) LabelStop
                   (_spectrum_chart v), w)
    end.

Definition stop_playback (ve : ViewEnv) (v : RadioView) (w : World)
  : result (RadioView * World) :=
  let w := add_log (InfoMsg "Stopping playback") w in
  do w <- stopRadioStream (v_env ve) (stop_env (v_start ve)) w;
  Ok (mkView (_selected_station v) false (_spectrum_data v) (_wifi_dialog v)
             (_station_name_label v) (_station_desc_label v)
             (bytes "Press Play to start streaming") (_status_label v)
             (_buffering_spinner_hidden v) LabelPlay (_spectrum_chart v), w).

Definition toggle_playback (ve : ViewEnv) (v : RadioView) (w : World)
  : result (RadioView * World) :=
  if _is_playing v then stop_playback ve v w
  else play_selected_station ve v w.

(** The [int] operator [%] rounds towards zero: [Z.rem]. *)
Definition prev_station (ve : ViewEnv) (v : RadioView) (w : World)
  : result (RadioView * World) :=
  let new_index :=
    Z.rem (_selected_station v - 1 + radio.STATION_COUNT) radio.STATION_COUNT in
  do v <- select_station v new_index;
  if _is_playing v then play_selected_station ve v w else Ok (v, w).

Definition next_station (ve : ViewEnv) (v : RadioView) (w : World)
  : result (RadioView * World) :=
  let new_index := Z.rem (_selected_station v + 1) radio.STATION_COUNT in
  do v <- select_station v new_index;
  if _is_playing v then play_selected_station ve v w else Ok (v, w).

Definition update_now_playing (ve : ViewEnv) (v : RadioView) (w : World)
  : result RadioView :=
  do state <- getRadioState (v_env ve) w;
  let v :=
    match state with
    | RADIO_BUFFERING =>
        mkView (_selected_station v) (_is_playing v) (_spectrum_data v)
               (_wifi_dialog v) (_station_name_label v)
               (_station_desc_label v) (_track_info_label v)
               (bytes "Buffering...") false (_btn_play_label v)
               (_spectrum_chart v)
    | RADIO_PLAYING =>
        mkView (_selected_station v) (_is_playing v) (_spectrum_data v)
               (_wifi_dialog v) (_station_name_label v)
               (_station_desc_label v) (_track_info_label v)
               (bytes "Playing") true (_btn_play_label v)
               (_spectrum_chart v)
    | RADIO_ERROR =>
        mkView (_selected_station v) false (_spectrum_data v)
               (_wifi_dialog v) (_station_name_label v)
               (_station_desc_label v) (_track_info_label v)
               (bytes "Error - Check WiFi") true LabelPlay
               (_spectrum_chart v)
    | RADIO_STOPPED =>
        mkView (_selected_station v) (_is_playing v) (_spectrum_data v)
               (_wifi_dialog v) (_station_name_label v)
               (_station_desc_label v) (_track_info_label v)
               [] true (_btn_play_label v) (_spectrum_chart v)
    end in
  let track :=
    match title (radioMetadata w), state with
    | _ :: _, _ => bytes "Now Playing: " ++ title (radioMetadata w)
    | [], RADIO_STOPPED => bytes "Press Play to start streaming"
    | [], _ => _track_info_label v
    end in
  Ok (mkView (_selected_station v) (_is_playing v) (_spectrum_data v)
             (_wifi_dialog v) (_station_name_label v) (_station_desc_label v)
             track (_status_label v) (_buffering_spinner_hidden v)
             (_btn_play_label v) (_spectrum_chart v)).

(** [update_spectrum]; the view class is in another name space than the
    spectrum block of [ringbuffer_read]. *)
Definition update_spectrum (ve : ViewEnv) (v : RadioView) (w : World)
  : result RadioView :=
  do state <- getRadioState (v_env ve) w;
  match state with
  | RADIO_PLAYING =>
      let data := getRadioSpectrum w (_spectrum_data v) 32 in
      Ok (mkView (_selected_station v) (_is_playing v) data
                 (_wifi_dialog v) (_station_name_label v)
                 (_station_desc_label v) (_track_info_label v)
                 (_status_label v) (_buffering_spinner_hidden v)
                 (_btn_play_label v) (take 32 data))
  | _ => Ok v
  end.

(** The actions of the user and of the update loop, run in order. *)
Inductive view_action : Type :=
| TapStation (index : Z)
| TapPrev
| TapNext
| TapPlay
| UpdateNowPlaying
| UpdateSpectrum.

Definition view_step (ve : ViewEnv) (a : view_action) (v : RadioView)
    (w : World) : result (RadioView * World) :=
  match a with
  | TapStation index =>
      do v <- select_station v index;
      if _is_playing v then play_selected_station ve v w else Ok (v, w)
  | TapPrev => prev_station ve v w
  | TapNext => next_station ve v w
  | TapPlay => toggle_playback ve v w
  | UpdateNowPlaying => do v <- update_now_playing ve v w; Ok (v, w)
  | UpdateSpectrum => do v <- update_spectrum ve v w; Ok (v, w)
  end.

Fixpoint view_run (steps : list (ViewEnv * view_action)) (v : RadioView)
    (w : World) : result (RadioView * World) :=
  match steps with
  | [] => Ok (v, w)
  | (ve, a) :: rest =>
      do (v1, w1) <- view_step ve a v w;
      view_run rest v1 w1
  end.

(** The selection is an index of the table. *)
Definition selection_ok (v : RadioView) : Prop :=
  0 <= _selected_station v < radio.STATION_COUNT.

(** The locks that a step of the view waits for without bound are given
    back. *)
Definition locks_return (ve : ViewEnv) : Prop :=
  radio_holder (v_env ve) <> NeverReleased /\
  rb_holder (v_env ve) <> NeverReleased.

(** The environment in which a step of the view returns: its locks are
    given back, and the mutex of the ring buffer can be created when a
    start has to initialise the buffer. *)
Definition view_env_ok (ve : ViewEnv) : Prop :=
  locks_return ve /\ ring_mutex_created (v_start ve) = true.

(** ** Concrete inputs of the view *)

(** The view as [init] leaves it: station 0 selected, nothing playing. *)
Definition view0 : RadioView :=
  mkView 0 false (repeat 0 32) false (bytes "Groove Salad")
         (bytes "Ambient/Downtempo") (bytes "Press Play to start streaming")
         [] true LabelPlay [].

(** Free mutexes, allocations and task creations that succeed, tasks that
    leave in time; WiFi connected or not. *)
Definition view_env (wifi : WifiState_t) : ViewEnv :=
  mkViewEnv env_free
    (mkStartEnv (mkStopEnv true true) true (Some (repeat 0 16)) true
                (Some 1%nat) (Some 11%nat))
    wifi.

(** As [view_env WIFI_CONNECTED], but no task can be created. *)
Definition view_env_no_task : ViewEnv :=
  mkViewEnv env_free
    (mkStartEnv (mkStopEnv true true) true (Some (repeat 0 16)) true None None)
    WIFI_CONNECTED.

(* ====================================================================== *)
(** * Part II: properties                                                  *)
(* ====================================================================== *)

Section RingBufferFacts.
Import RingBuffer.

Lemma size_wrap_small x : 0 <= x < SIZE_WIDTH -> size_wrap x = x.
Proof. intros H. unfold size_wrap. apply Z.mod_small. exact H. Qed.

Lemma mod_offset_inj (sz a b : Z) :
  0 < sz -> 0 <= a -> 0 <= b -> a - b < sz -> b - a < sz ->
  a mod sz = b mod sz -> a = b.
Proof.
  intros Hsz Ha Hb H1 H2 Heq.
  rewrite (Z.div_mod a sz), (Z.div_mod b sz) in H1, H2 by lia.
  rewrite Heq in H1, H2.
  assert (a / sz = b / sz) by nia.
  rewrite (Z.div_mod a sz), (Z.div_mod b sz) by lia. congruence.
Qed.

Lemma next_pos (sz w : Z) :
  0 < sz < SIZE_WIDTH -> 0 <= w < sz ->
  size_wrap (w + 1) mod sz = (w + 1) mod sz.
Proof.
  intros Hsz Hw. rewrite size_wrap_small; [reflexivity|].
  unfold SIZE_WIDTH in *. lia.
Qed.

Lemma write_loop_length buf sz w data :
  length (write_loop buf sz w data).1 = length buf.
Proof.
  revert buf w. induction data as [|b rest IH]; intros buf w; simpl.
  - reflexivity.
  - rewrite IH. apply length_insert.
Qed.

Lemma write_loop_pos buf sz w data :
  0 < sz < SIZE_WIDTH -> 0 <= w < sz ->
  (write_loop buf sz w data).2 = (w + Z.of_nat (length data)) mod sz.
Proof.
  intros Hsz. revert buf w.
  induction data as [|b rest IH]; intros buf w Hw; simpl.
  - rewrite Z.add_0_r, Z.mod_small; lia.
  - rewrite next_pos by assumption.
    rewrite IH by (apply Z.mod_pos_bound; lia).
    rewrite Zplus_mod_idemp_l. f_equal. lia.
Qed.

Lemma write_loop_old buf sz w data (j : nat) :
  0 < sz < SIZE_WIDTH -> 0 <= w < sz ->
  (forall i : nat, (i < length data)%nat ->
     Z.to_nat ((w + Z.of_nat i) mod sz) <> j) ->
  nth j (write_loop buf sz w data).1 0 = nth j buf 0.
Proof.
  intros Hsz. revert buf w.
  induction data as [|b rest IH]; intros buf w Hw Hj; simpl.
  - reflexivity.
  - rewrite next_pos by assumption.
    rewrite IH.
    + assert (Z.to_nat w <> j) as Hne.
      { specialize (Hj 0%nat). simpl in Hj.
        rewrite Z.add_0_r, Z.mod_small in Hj by lia. apply Hj. lia. }
      rewrite !nth_lookup. rewrite list_lookup_insert_ne by exact Hne.
      reflexivity.
    + apply Z.mod_pos_bound. lia.
    + intros i Hi. rewrite Zplus_mod_idemp_l.
      specialize (Hj (S i)). simpl length in Hj.
      replace (w + 1 + Z.of_nat i) with (w + Z.of_nat (S i)) by lia.
      apply Hj. lia.
Qed.

Lemma write_loop_new buf sz w data (i : nat) :
  0 < sz < SIZE_WIDTH -> 0 <= w < sz ->
  Z.of_nat (length buf) = sz ->
  Z.of_nat (length data) <= sz ->
  (i < length data)%nat ->
  nth (Z.to_nat ((w + Z.of_nat i) mod sz)) (write_loop buf sz w data).1 0
  = nth i data 0.
Proof.
  intros Hsz. revert buf w i.
  induction data as [|b rest IH]; intros buf w i Hw Hlen Hdata Hi;
    simpl in Hi; [lia|].
  simpl write_loop. rewrite next_pos by assumption.
  simpl length in Hdata.
  destruct i as [|i].
  - simpl. rewrite Z.add_0_r, Z.mod_small by lia.
    rewrite write_loop_old; try assumption.
    + rewrite nth_lookup, list_lookup_insert_eq by lia. reflexivity.
    + apply Z.mod_pos_bound. lia.
    + intros k Hk Heq. rewrite Zplus_mod_idemp_l in Heq.
      apply Z2Nat.inj in Heq; try lia;
        [|apply Z.mod_pos_bound; lia].
      rewrite <- (Z.mod_small w sz) in Heq at 2 by lia.
      apply mod_offset_inj in Heq; lia.
  - simpl nth.
    rewrite <- (IH (<[Z.to_nat w:=b]> buf) ((w + 1) mod sz) i).
    + rewrite Zplus_mod_idemp_l. do 3 f_equal. lia.
    + apply Z.mod_pos_bound. lia.
    + rewrite length_insert. exact Hlen.
    + lia.
    + lia.
Qed.

Lemma read_loop_spec buf sz r (n : nat) :
  0 < sz < SIZE_WIDTH -> 0 <= r < sz ->
  read_loop buf sz r n
  = (map (fun i => nth (Z.to_nat ((r + Z.of_nat i) mod sz)) buf 0) (seq 0 n),
     (r + Z.of_nat n) mod sz).
Proof.
  intros Hsz. revert r.
  induction n as [|n IH]; intros r Hr.
  - simpl. rewrite Z.add_0_r, Z.mod_small by lia. reflexivity.
  - simpl read_loop. rewrite next_pos by assumption.
    rewrite IH by (apply Z.mod_pos_bound; lia).
    rewrite <- cons_seq, <- seq_shift. simpl map. rewrite List.map_map.
    rewrite Z.add_0_r, (Z.mod_small r sz) by lia.
    f_equal; [f_equal|].
    + apply List.map_ext. intros i. rewrite Zplus_mod_idemp_l.
      do 3 f_equal. lia.
    + rewrite Zplus_mod_idemp_l. f_equal. lia.
Qed.

Lemma map_nth_seq (l : list Z) :
  map (fun k => nth k l 0) (seq 0 (length l)) = l.
Proof.
  apply (nth_ext _ _ 0 0).
  - rewrite List.length_map, List.length_seq. reflexivity.
  - intros k Hk. rewrite List.length_map, List.length_seq in Hk.
    rewrite (nth_indep _ 0 (nth 0%nat l 0)) by
      (rewrite List.length_map, List.length_seq; exact Hk).
    rewrite (List.map_nth (fun k => nth k l 0)).
    rewrite List.seq_nth by exact Hk. reflexivity.
Qed.

Lemma map_seq_eq (f : nat -> Z) (a n : nat) (l : list Z) :
  length l = n ->
  (forall k, (k < n)%nat -> f (a + k)%nat = nth k l 0) ->
  map f (seq a n) = l.
Proof.
  intros Hl Hf. apply (nth_ext _ _ 0 0).
  - rewrite List.length_map, List.length_seq. congruence.
  - intros k Hk. rewrite List.length_map, List.length_seq in Hk.
    rewrite (nth_indep _ 0 (f 0%nat)) by
      (rewrite List.length_map, List.length_seq; exact Hk).
    rewrite (List.map_nth f), List.seq_nth by exact Hk.
    apply Hf. exact Hk.
Qed.

Lemma contents_length rb :
  0 <= dataAvailable rb ->
  Z.of_nat (length (contents rb)) = dataAvailable rb.
Proof.
  intros H. unfold contents.
  rewrite List.length_map, List.length_seq. lia.
Qed.

(** [write] with the mutex taken appends the bytes that fit. *)
Lemma write_taken h rb data :
  wf rb -> xSemaphoreTake h lock_wait = Some true ->
  let n := Z.min (Z.of_nat (length data)) (free_space rb) in
  exists rb',
    write h rb data = Some (rb', n) /\ wf rb' /\
    size rb' = size rb /\ readPos rb' = readPos rb /\
    dataAvailable rb' = dataAvailable rb + n /\
    contents rb' = contents rb ++ take (Z.to_nat n) data.
Proof.
  intros [Hsz Hlen Hw Hr Ha Hlink Hmx] Htake n.
  unfold write, take_mutex. rewrite Hmx, Htake. simpl.
  unfold free_space in n.
  rewrite (size_wrap_small (size rb - dataAvailable rb)) by lia.
  assert ((if Z.of_nat (length data) <? size rb - dataAvailable rb
           then Z.of_nat (length data) else size rb - dataAvailable rb) = n)
    as -> by (unfold n; destruct (Z.ltb_spec (Z.of_nat (length data))
                                    (size rb - dataAvailable rb)); lia).
  assert (0 <= n <= size rb - dataAvailable rb) as Hn by (unfold n; lia).
  assert (length (take (Z.to_nat n) data) = Z.to_nat n) as Htk
    by (rewrite length_take; unfold n; lia).
  set (d := take (Z.to_nat n) data) in *.
  destruct (write_loop (buffer rb) (size rb) (writePos rb) d)
    as [buf' w'] eqn:Hloop.
  assert (length buf' = length (buffer rb)) as Hlen'.
  { pose proof (write_loop_length (buffer rb) (size rb) (writePos rb) d) as E.
    rewrite Hloop in E. exact E. }
  assert (w' = (writePos rb + n) mod size rb) as Hw'.
  { pose proof (write_loop_pos (buffer rb) (size rb) (writePos rb) d Hsz Hw)
      as E.
    rewrite Hloop, Htk in E. simpl in E. rewrite E. f_equal. lia. }
  rewrite (size_wrap_small (dataAvailable rb + n)) by lia.
  eexists. split; [reflexivity|].
  split; [|repeat split; simpl; try reflexivity].
  - constructor; simpl; try lia.
    + subst w'. apply Z.mod_pos_bound. lia.
    + subst w'. rewrite Hlink, Zplus_mod_idemp_l. f_equal. lia.
  - unfold contents. simpl.
    replace (Z.to_nat (dataAvailable rb + n))
      with (Z.to_nat (dataAvailable rb) + Z.to_nat n)%nat by lia.
    rewrite List.seq_app, List.map_app. f_equal.
    + apply List.map_ext_in. intros i Hi. apply List.in_seq in Hi.
      pose proof (write_loop_old (buffer rb) (size rb) (writePos rb) d
        (Z.to_nat ((readPos rb + Z.of_nat i) mod size rb)) Hsz Hw) as E.
      rewrite Hloop in E. simpl in E. apply E.
      intros k Hk Heq. rewrite Htk in Hk.
      apply Z2Nat.inj in Heq; try (apply Z.mod_pos_bound; lia).
      rewrite Hlink, Zplus_mod_idemp_l in Heq.
      apply mod_offset_inj in Heq; lia.
    + apply map_seq_eq; [exact Htk|]. intros k Hk.
      pose proof (write_loop_new (buffer rb) (size rb) (writePos rb) d k
        Hsz Hw Hlen) as E.
      rewrite Hloop in E. simpl in E. rewrite <- E by lia.
      rewrite Hlink, Zplus_mod_idemp_l. do 3 f_equal. lia.
Qed.

Lemma map_seq_shift (f : nat -> Z) (a n : nat) :
  map f (seq a n) = map (fun k => f (a + k)%nat) (seq 0 n).
Proof.
  apply map_seq_eq.
  - rewrite List.length_map, List.length_seq. reflexivity.
  - intros k Hk.
    rewrite (nth_indep _ 0 (f (a + 0)%nat)) by
      (rewrite List.length_map, List.length_seq; exact Hk).
    rewrite (List.map_nth (fun k => f (a + k)%nat)), List.seq_nth by exact Hk.
    reflexivity.
Qed.

(** [read] with the mutex taken removes the oldest bytes. *)
Lemma read_taken h rb len :
  wf rb -> xSemaphoreTake h lock_wait = Some true -> 0 <= len ->
  let n := Z.min len (dataAvailable rb) in
  exists rb',
    read h rb len = Some (rb', take (Z.to_nat n) (contents rb), n) /\
    wf rb' /\ size rb' = size rb /\
    readPos rb' = (readPos rb + n) mod size rb /\
    dataAvailable rb' = dataAvailable rb - n /\
    contents rb' = drop (Z.to_nat n) (contents rb).
Proof.
  intros [Hsz Hlen Hw Hr Ha Hlink Hmx] Htake Hl n.
  unfold read, take_mutex. rewrite Hmx, Htake. simpl.
  assert ((if len <? dataAvailable rb then len else dataAvailable rb) = n)
    as -> by (unfold n; destruct (Z.ltb_spec len (dataAvailable rb)); lia).
  assert (0 <= n <= dataAvailable rb) as Hn by (unfold n; lia).
  rewrite read_loop_spec by assumption.
  rewrite (size_wrap_small (dataAvailable rb - n)) by lia.
  assert (map (fun i => nth (Z.to_nat ((readPos rb + Z.of_nat i) mod size rb))
                            (buffer rb) 0) (seq 0 (Z.to_nat n))
          = take (Z.to_nat n) (contents rb)) as ->.
  { unfold contents. rewrite List.firstn_map, take_seq.
    do 2 f_equal. lia. }
  eexists. split; [reflexivity|].
  split; [|split; [reflexivity|split; [|split; [reflexivity|]]]].
  - constructor; simpl; try lia.
    + apply Z.mod_pos_bound. lia.
    + rewrite Zplus_mod_idemp_l, Hlink. f_equal. lia.
  - simpl. f_equal. lia.
  - unfold contents. simpl.
    rewrite List.skipn_map, List.skipn_seq.
    rewrite (map_seq_shift _ (0 + Z.to_nat n)).
    replace (Z.to_nat (dataAvailable rb) - Z.to_nat n)%nat
      with (Z.to_nat (dataAvailable rb - n)) by lia.
    apply List.map_ext. intros k. rewrite Zplus_mod_idemp_l.
    do 3 f_equal. lia.
Qed.

(** A successful [init] leaves a consistent, empty buffer. *)
Lemma wf_init mem created C rb :
  0 < C < SIZE_WIDTH ->
  init mem created C = (Some rb, true) ->
  Z.of_nat (length (buffer rb)) = C ->
  wf rb /\ size rb = C /\ dataAvailable rb = 0 /\ readPos rb = 0.
Proof.
  intros HC E Hm. unfold init in E. destruct mem as [m|]; [|discriminate].
  injection E as <- ->. simpl in Hm.
  split; [|auto]. constructor; simpl; try lia; reflexivity.
Qed.

Lemma take_mutex_wf h rb w :
  mutex rb = true -> take_mutex h rb w = xSemaphoreTake h w.
Proof. intros H. unfold take_mutex. rewrite H. reflexivity. Qed.

Lemma rb_call_wf {A : Type} rb (o : option A) :
  mutex rb = true -> rb_call rb o = call o.
Proof. intros H. unfold rb_call. rewrite H. reflexivity. Qed.

Lemma contents_empty rb : dataAvailable rb = 0 -> contents rb = [].
Proof. intros H. unfold contents. rewrite H. reflexivity. Qed.

Lemma take_bounded h ms :
  xSemaphoreTake h (pdMS_TO_TICKS ms) = Some true \/
  xSemaphoreTake h (pdMS_TO_TICKS ms) = Some false.
Proof.
  destruct h as [|d|]; simpl; auto.
  destruct (d <=? ms); auto.
Qed.

Lemma write_timeout h rb data :
  mutex rb = true ->
  xSemaphoreTake h lock_wait = Some false -> write h rb data = Some (rb, 0).
Proof.
  intros Hm H. unfold write. rewrite (take_mutex_wf _ _ _ Hm), H. reflexivity.
Qed.

Lemma read_timeout h rb len :
  mutex rb = true ->
  xSemaphoreTake h lock_wait = Some false -> read h rb len = Some (rb, [], 0).
Proof.
  intros Hm H. unfold read. rewrite (take_mutex_wf _ _ _ Hm), H. reflexivity.
Qed.

Lemma ledger_inv_exec C rb w r op :
  rb_op_ok op -> ledger_inv C rb w r ->
  exists rb' ev, rb_exec rb op = Some (rb', ev) /\
    ledger_inv C rb' (since_reset w r [ev]).1 (since_reset w r [ev]).2.
Proof.
  intros Hok (Hwf & HC & Hrw & Hav & Hrp).
  pose proof (wf_avail _ Hwf) as Hra.
  pose proof (wf_mutex _ Hwf) as Hmx.
  destruct op as [h data|h len|ms]; simpl in *.
  - destruct (take_bounded h 100) as [Ht|Ht].
    + destruct (write_taken h rb data Hwf Ht)
        as (rb' & E & Hwf' & Hs & Hr' & Ha' & _).
      rewrite E. simpl. do 2 eexists. split; [reflexivity|]. cbn [fst snd since_reset].
      unfold free_space in *.
      split; [exact Hwf'|]. split; [congruence|]. split; [lia|].
      split; [lia|congruence].
    + rewrite (write_timeout _ _ _ Hmx Ht). simpl.
      do 2 eexists. split; [reflexivity|]. cbn [fst snd since_reset].
      rewrite Z.add_0_r. split; [exact Hwf|]. auto.
  - destruct (take_bounded h 100) as [Ht|Ht].
    + destruct (read_taken h rb len Hwf Ht (proj1 Hok))
        as (rb' & E & Hwf' & Hs & Hr' & Ha' & _).
      rewrite E. simpl. do 2 eexists. split; [reflexivity|]. cbn [fst snd since_reset].
      split; [exact Hwf'|]. split; [congruence|]. split; [lia|].
      split; [lia|].
      rewrite Hr', Hrp, HC, Zplus_mod_idemp_l. reflexivity.
    + rewrite (read_timeout _ _ _ Hmx Ht). simpl.
      do 2 eexists. split; [reflexivity|]. cbn [fst snd since_reset].
      rewrite Z.add_0_r. split; [exact Hwf|]. auto.
  - unfold reset. rewrite (take_mutex_wf _ _ _ Hmx). simpl.
    do 2 eexists. split; [reflexivity|]. cbn [fst snd since_reset]. simpl.
    destruct Hwf as [Hsz Hlen Hw Hr Ha Hlink _].
    split; [constructor; simpl; try lia; try assumption;
            rewrite Z.mod_0_l; lia|].
    split; [simpl; assumption|]. split; [lia|]. split; [simpl; lia|].
    simpl. rewrite Z.mod_0_l; lia.
Qed.

Lemma ledger_inv_run C ops :
  forall rb w r,
    Forall rb_op_ok ops -> ledger_inv C rb w r ->
    exists rb' evs, rb_run rb ops = Some (rb', evs) /\
      ledger_inv C rb' (since_reset w r evs).1 (since_reset w r evs).2.
Proof.
  induction ops as [|op ops IH]; intros rb w r Hok Hinv.
  - exists rb, []. split; [reflexivity|exact Hinv].
  - inversion Hok as [|? ? Hop Hok']; subst. clear Hok. rename Hok' into Hok.
    destruct (ledger_inv_exec C rb w r op Hop Hinv) as (rb1 & ev & E1 & Hinv1).
    destruct (IH rb1 _ _ Hok Hinv1) as (rb2 & evs & E2 & Hinv2).
    exists rb2, (ev :: evs). simpl rb_run. rewrite E1. simpl. rewrite E2.
    split; [reflexivity|].
    destruct ev; exact Hinv2.
Qed.

End RingBufferFacts.

(* ---------------------------------------------------------------------- *)
(** ** Ring buffer: the properties                                         *)
(* ---------------------------------------------------------------------- *)

Lemma wf_rb_one_byte : RingBuffer.wf rb_one_byte.
Proof. constructor; simpl; unfold SIZE_WIDTH; try lia; reflexivity. Qed.

Lemma init_rb_empty (n : nat) :
  RingBuffer.init (Some (repeat 0 n)) true (Z.of_nat n)
  = (Some (rb_empty n), true).
Proof. reflexivity. Qed.

Lemma wf_rb_empty (n : nat) :
  0 < Z.of_nat n < SIZE_WIDTH -> RingBuffer.wf (rb_empty n).
Proof.
  intros Hn.
  apply (wf_init (Some (repeat 0 n)) true (Z.of_nat n) _ Hn (init_rb_empty n)).
  simpl. rewrite repeat_length. reflexivity.
Qed.

(** C3, as stated, fails once a [reset] is part of the sequence: after
    writing three bytes and resetting, [available()] is 0 while the total
    written minus the total read is 3. *)
Lemma C3_counterexample :
  RingBuffer.init (Some [0; 0; 0; 0]) true 4 = (Some (rb_empty 4), true) /\
  exists rb evs,
    rb_run (rb_empty 4)
           [OpWrite Free [1; 2; 3]; OpReset 0] = Some (rb, evs) /\
    RingBuffer.available Free rb = Some 0 /\
    total_written evs - total_read evs = 3 /\
    RingBuffer.available Free rb <> Some (total_written evs - total_read evs).
Proof.
  split; [reflexivity|].
  do 2 eexists. split; [reflexivity|]. simpl.
  split; [reflexivity|]. split; [reflexivity|]. discriminate.
Qed.

(** C3 (amended).  For every sequence of write, read and reset calls on a
    buffer of capacity [C] (reads and writes with any outcome of their
    bounded lock wait), the run completes and afterwards
    [0 <= available() <= C], [available()] is the number of bytes written
    minus the number of bytes read since the most recent reset, and the
    write and read cursors are those two counts modulo [C].  As [ops] is
    arbitrary, this holds after every call of a longer sequence. *)
Theorem C3_available_ledger (C : Z) (mem : list Z) (rb0 : RingBuffer.t)
    (ops : list rb_op) :
  0 < C < SIZE_WIDTH -> Z.of_nat (length mem) = C -> Forall rb_op_ok ops ->
  RingBuffer.init (Some mem) true C = (Some rb0, true) ->
  exists rb evs,
    rb_run rb0 ops = Some (rb, evs) /\
    (forall h, exists a, RingBuffer.available h rb = Some a /\ 0 <= a <= C) /\
    RingBuffer.available Free rb
      = Some (written_since_reset evs - read_since_reset evs) /\
    RingBuffer.writePos rb = written_since_reset evs mod C /\
    RingBuffer.readPos rb = read_since_reset evs mod C.
Proof.
  intros HC Hmem Hops Hinit.
  destruct (wf_init _ _ _ _ HC Hinit) as (Hwf0 & Hs0 & Ha0 & Hr0).
  { injection Hinit as <-. exact Hmem. }
  destruct (ledger_inv_run C ops rb0 0 0 Hops)
    as (rb & evs & E & Hwf & Hs & Hrw & Hav & Hrp).
  { split; [exact Hwf0|]. rewrite Z.mod_0_l by lia. repeat split; lia. }
  exists rb, evs. split; [exact E|].
  pose proof (RingBuffer.wf_avail _ Hwf) as Ha.
  pose proof (RingBuffer.wf_mutex _ Hwf) as Hmx.
  unfold written_since_reset, read_since_reset.
  split; [|split; [|split]].
  - intros h. unfold RingBuffer.available.
    rewrite (take_mutex_wf _ _ _ Hmx).
    destruct (take_bounded h 100) as [Ht|Ht]; unfold RingBuffer.lock_wait;
      rewrite Ht; simpl; eexists; (split; [reflexivity|lia]).
  - unfold RingBuffer.available. rewrite (take_mutex_wf _ _ _ Hmx).
    simpl. f_equal. exact Hav.
  - rewrite (RingBuffer.wf_link _ Hwf), Hrp, Hav, Hs, Zplus_mod_idemp_l.
    f_equal. lia.
  - exact Hrp.
Qed.

Lemma C3_available_ledger_witness :
  0 < 4 < SIZE_WIDTH /\ Z.of_nat (length [0; 0; 0; 0]) = 4 /\
  Forall rb_op_ok [OpWrite Free [1; 2; 3]; OpRead Free 2; OpWrite Free [4; 5; 6]] /\
  RingBuffer.init (Some [0; 0; 0; 0]) true 4 = (Some (rb_empty 4), true) /\
  exists rb evs,
    rb_run (rb_empty 4)
           [OpWrite Free [1; 2; 3]; OpRead Free 2; OpWrite Free [4; 5; 6]]
      = Some (rb, evs) /\
    (forall h, exists a, RingBuffer.available h rb = Some a /\ 0 <= a <= 4) /\
    RingBuffer.available Free rb
      = Some (written_since_reset evs - read_since_reset evs) /\
    RingBuffer.writePos rb = written_since_reset evs mod 4 /\
    RingBuffer.readPos rb = read_since_reset evs mod 4.
Proof.
  assert (0 < 4 < SIZE_WIDTH) as H1 by (unfold SIZE_WIDTH; lia).
  assert (Forall rb_op_ok
            [OpWrite Free [1; 2; 3]; OpRead Free 2; OpWrite Free [4; 5; 6]])
    as H3 by (repeat constructor; unfold SIZE_WIDTH; simpl; lia).
  split; [exact H1|]. split; [reflexivity|]. split; [exact H3|].
  split; [reflexivity|].
  exact (C3_available_ledger 4 [0; 0; 0; 0] (rb_empty 4) _ H1 eq_refl H3
           eq_refl).
Defined.

(** C4, as stated, fails on a buffer that already holds data: the read
    returns the oldest byte, not the byte just written. *)
Lemma C4_counterexample :
  RingBuffer.wf rb_one_byte /\
  Z.of_nat (length [9]) <= RingBuffer.free_space rb_one_byte /\
  exists rb1 rb2 out,
    RingBuffer.write Free rb_one_byte [9] = Some (rb1, 1) /\
    RingBuffer.read Free rb1 1 = Some (rb2, out, 1) /\
    out = [7] /\ out <> [9].
Proof.
  split; [exact wf_rb_one_byte|].
  split; [unfold RingBuffer.free_space; simpl; lia|].
  do 3 eexists. split; [reflexivity|]. split; [reflexivity|].
  split; [reflexivity|discriminate].
Qed.

(** C4 (amended).  For every byte sequence [b] no longer than the free
    space, [write(b)] stores all of [b] and the immediate
    [read(len(b))] returns the first [len(b)] bytes of the queue, which
    is the previously buffered bytes followed by [b]; on an empty buffer
    it returns exactly [b], byte for byte and in order. *)
Theorem C4_write_read_round_trip (h1 h2 : holder) (rb : RingBuffer.t) (b : list Z) :
  RingBuffer.wf rb ->
  xSemaphoreTake h1 RingBuffer.lock_wait = Some true ->
  xSemaphoreTake h2 RingBuffer.lock_wait = Some true ->
  Z.of_nat (length b) <= RingBuffer.free_space rb ->
  exists rb1 rb2 out,
    RingBuffer.write h1 rb b = Some (rb1, Z.of_nat (length b)) /\
    RingBuffer.read h2 rb1 (Z.of_nat (length b))
      = Some (rb2, out, Z.of_nat (length b)) /\
    out = take (length b) (RingBuffer.contents rb ++ b) /\
    (RingBuffer.dataAvailable rb = 0 ->
       out = b /\ RingBuffer.dataAvailable rb2 = 0).
Proof.
  intros Hwf Ht1 Ht2 Hfree.
  destruct (write_taken h1 rb b Hwf Ht1)
    as (rb1 & E1 & Hwf1 & Hs1 & Hr1 & Ha1 & Hc1).
  rewrite Z.min_l in E1, Ha1, Hc1 by exact Hfree.
  rewrite Nat2Z.id, firstn_all in Hc1.
  pose proof (RingBuffer.wf_avail _ Hwf) as Ha.
  destruct (read_taken h2 rb1 (Z.of_nat (length b)) Hwf1 Ht2 ltac:(lia))
    as (rb2 & E2 & Hwf2 & Hs2 & Hr2 & Ha2 & Hc2).
  rewrite Z.min_l in E2, Ha2, Hc2 by lia.
  rewrite Nat2Z.id in E2, Hc2. rewrite Hc1 in E2.
  exists rb1, rb2, (take (length b) (RingBuffer.contents rb ++ b)).
  split; [exact E1|]. split; [exact E2|]. split; [reflexivity|].
  intros Hempty. rewrite (contents_empty rb Hempty). simpl.
  split; [apply firstn_all|lia].
Qed.

Lemma C4_write_read_round_trip_witness :
  RingBuffer.wf (rb_empty 4) /\
  exists rb1 rb2 out,
    RingBuffer.write Free (rb_empty 4) [5; 6; 7]
      = Some (rb1, 3) /\
    RingBuffer.read Free rb1 3 = Some (rb2, out, 3) /\
    out = take 3 (RingBuffer.contents (rb_empty 4)
                  ++ [5; 6; 7]) /\
    (RingBuffer.dataAvailable (rb_empty 4) = 0 ->
       out = [5; 6; 7] /\ RingBuffer.dataAvailable rb2 = 0).
Proof.
  assert (RingBuffer.wf (rb_empty 4)) as Hwf
    by (apply wf_rb_empty; unfold SIZE_WIDTH; simpl; lia).
  split; [exact Hwf|].
  apply (C4_write_read_round_trip Free Free _ [5; 6; 7] Hwf eq_refl eq_refl).
  simpl. unfold RingBuffer.free_space. simpl. lia.
Defined.

(** C5.  [write(data, len)] copies exactly [min(len, C - available)]
    bytes (the first ones of [data], appended to the queue) and returns
    that count; [read(buf, max_len)] copies exactly
    [min(max_len, available)] bytes (the oldest ones) and returns 0 on an
    empty buffer.  Both wait for the mutex for a bounded time (100 ms), both
    return whatever the owner of the mutex does, and on timeout they
    return 0 and leave the buffer as it was. *)
Theorem C5_write_read_counts (h : holder) (rb : RingBuffer.t)
    (data : list Z) (max_len : Z) :
  RingBuffer.wf rb -> 0 <= max_len < SIZE_WIDTH ->
  wait_bound RingBuffer.lock_wait = Some 100 /\
  (exists rb' n,
     RingBuffer.write h rb data = Some (rb', n) /\
     (xSemaphoreTake h RingBuffer.lock_wait = Some true ->
        n = Z.min (Z.of_nat (length data))
                  (RingBuffer.size rb - RingBuffer.dataAvailable rb) /\
        RingBuffer.contents rb'
          = RingBuffer.contents rb ++ take (Z.to_nat n) data /\
        RingBuffer.dataAvailable rb' = RingBuffer.dataAvailable rb + n) /\
     (xSemaphoreTake h RingBuffer.lock_wait = Some false ->
        n = 0 /\ rb' = rb)) /\
  (exists rb' out n,
     RingBuffer.read h rb max_len = Some (rb', out, n) /\
     (xSemaphoreTake h RingBuffer.lock_wait = Some true ->
        n = Z.min max_len (RingBuffer.dataAvailable rb) /\
        out = take (Z.to_nat n) (RingBuffer.contents rb) /\
        Z.of_nat (length out) = n /\
        RingBuffer.contents rb' = drop (Z.to_nat n) (RingBuffer.contents rb) /\
        (RingBuffer.dataAvailable rb = 0 -> n = 0)) /\
     (xSemaphoreTake h RingBuffer.lock_wait = Some false ->
        n = 0 /\ out = [] /\ rb' = rb)).
Proof.
  intros Hwf Hlen. pose proof (RingBuffer.wf_avail _ Hwf) as Ha.
  pose proof (RingBuffer.wf_mutex _ Hwf) as Hmx.
  split; [reflexivity|].
  destruct (take_bounded h 100) as [Ht|Ht];
    change (pdMS_TO_TICKS 100) with RingBuffer.lock_wait in Ht.
  - destruct (write_taken h rb data Hwf Ht)
      as (rb1 & E1 & _ & _ & _ & Ha1 & Hc1).
    destruct (read_taken h rb max_len Hwf Ht (proj1 Hlen))
      as (rb2 & E2 & _ & _ & _ & Ha2 & Hc2).
    split.
    + do 2 eexists. split; [exact E1|].
      split; [intros _|intros Hf; congruence].
      unfold RingBuffer.free_space in *. auto.
    + do 3 eexists. split; [exact E2|].
      split; [intros _|intros Hf; congruence].
      split; [reflexivity|]. split; [reflexivity|].
      split; [|split; [exact Hc2|lia]].
      rewrite length_take. pose proof (contents_length rb (proj1 Ha)). lia.
  - split.
    + do 2 eexists. split; [apply write_timeout; [exact Hmx|exact Ht]|].
      split; [intros Hf; congruence|auto].
    + do 3 eexists. split; [apply read_timeout; [exact Hmx|exact Ht]|].
      split; [intros Hf; congruence|auto].
Qed.

Lemma C5_write_read_counts_witness :
  RingBuffer.wf rb_one_byte /\ 0 <= 8 < SIZE_WIDTH /\
  (exists rb' n,
     RingBuffer.write (ReleasedAfter 30) rb_one_byte [1; 2; 3; 4; 5]
       = Some (rb', n) /\ n = 3) /\
  (exists rb' out n,
     RingBuffer.read (ReleasedAfter 30) rb_one_byte 8 = Some (rb', out, n) /\
     n = 1 /\ out = [7]).
Proof.
  assert (0 <= 8 < SIZE_WIDTH) as H8 by (unfold SIZE_WIDTH; lia).
  split; [exact wf_rb_one_byte|]. split; [exact H8|].
  destruct (C5_write_read_counts (ReleasedAfter 30) rb_one_byte
              [1; 2; 3; 4; 5] 8 wf_rb_one_byte H8)
    as (_ & (rb1 & n1 & E1 & T1 & _) & (rb2 & out & n2 & E2 & T2 & _)).
  split.
  - exists rb1, n1. split; [exact E1|]. apply (T1 eq_refl).
  - exists rb2, out, n2. split; [exact E2|].
    destruct (T2 eq_refl) as (-> & -> & _). split; reflexivity.
Defined.

(* ---------------------------------------------------------------------- *)
(** ** ICY framing: the byte-level reference                               *)
(* ---------------------------------------------------------------------- *)

Section IcyReference.
Variable N : Z.

Lemma icy_audio_app ph s1 s2 :
  icy_audio N ph (s1 ++ s2)
  = icy_audio N ph s1 ++ icy_audio N (icy_phase_after N ph s1) s2.
Proof.
  revert ph. induction s1 as [|b s1 IH]; intros ph; simpl.
  - reflexivity.
  - destruct (icy_step N ph b) as [ph' out]. simpl.
    rewrite IH, app_assoc. reflexivity.
Qed.

Lemma icy_phase_after_app ph s1 s2 :
  icy_phase_after N ph (s1 ++ s2)
  = icy_phase_after N (icy_phase_after N ph s1) s2.
Proof.
  revert ph. induction s1 as [|b s1 IH]; intros ph; simpl.
  - reflexivity.
  - apply IH.
Qed.

Lemma phase_of_pos k : 0 < k -> phase_of k = InAudio k.
Proof. intros H. unfold phase_of. destruct (Z.ltb_spec 0 k); [reflexivity|lia]. Qed.

Lemma phase_of_zero k : k <= 0 -> phase_of k = AtLength.
Proof. intros H. unfold phase_of. destruct (Z.ltb_spec 0 k); [lia|reflexivity]. Qed.

(** A run of audio bytes is copied as one block. *)
Lemma audio_block (s : list Z) :
  forall k, 1 <= k ->
    let a := Z.min (Z.of_nat (length s)) k in
    icy_audio N (InAudio k) s
    = take (Z.to_nat a) s ++ icy_audio N (phase_of (k - a)) (drop (Z.to_nat a) s)
    /\ icy_phase_after N (InAudio k) s
      = icy_phase_after N (phase_of (k - a)) (drop (Z.to_nat a) s).
Proof.
  induction s as [|b s IH]; intros k Hk a.
  - subst a. simpl. rewrite Z.min_l by lia. rewrite Z.sub_0_r.
    rewrite phase_of_pos by lia. split; reflexivity.
  - assert (exists n, Z.to_nat a = S n /\ Z.of_nat n = a - 1) as (n & Hn & Hn').
    { exists (Z.to_nat (a - 1)). subst a. simpl length. lia. }
    rewrite Hn. simpl.
    destruct (Z.leb_spec k 1) as [Hk1|Hk1].
    + assert (a = 1) as Ha by (subst a; simpl length; lia).
      assert (n = 0%nat) as -> by lia.
      rewrite Ha. replace (k - 1) with 0 by lia.
      rewrite phase_of_zero by lia. simpl. split; reflexivity.
    + destruct (IH (k - 1) ltac:(lia)) as [IH1 IH2].
      assert (Z.to_nat (Z.min (Z.of_nat (length s)) (k - 1)) = n) as E1
        by (subst a; simpl length in *; lia).
      assert (k - 1 - Z.min (Z.of_nat (length s)) (k - 1) = k - a) as E2
        by (subst a; simpl length in *; lia).
      rewrite E1, E2 in IH1, IH2.
      rewrite IH1, IH2. split; reflexivity.
Qed.

(** A metadata frame that lies in the stream is dropped as one block. *)
Lemma meta_block (s : list Z) :
  forall m, 1 <= m <= Z.of_nat (length s) ->
    icy_audio N (InMeta m) s = icy_audio N (InAudio N) (drop (Z.to_nat m) s)
    /\ icy_phase_after N (InMeta m) s
      = icy_phase_after N (InAudio N) (drop (Z.to_nat m) s).
Proof.
  induction s as [|b s IH]; intros m Hm; simpl length in Hm.
  - simpl in Hm. lia.
  - assert (exists n, Z.to_nat m = S n /\ Z.of_nat n = m - 1) as (n & Hn & Hn').
    { exists (Z.to_nat (m - 1)). lia. }
    rewrite Hn. simpl.
    destruct (Z.leb_spec m 1) as [Hm1|Hm1].
    + assert (n = 0%nat) as -> by lia. simpl. split; reflexivity.
    + destruct (IH (m - 1) ltac:(lia)) as [IH1 IH2].
      assert (Z.to_nat (m - 1) = n) as E1 by lia.
      rewrite E1 in IH1, IH2.
      rewrite IH1, IH2. split; reflexivity.
Qed.

(** A stream that ends inside a frame ends in the phase [InMeta]. *)
Lemma meta_short (s : list Z) :
  forall m, Z.of_nat (length s) < m ->
    in_meta (icy_phase_after N (InMeta m) s) = true.
Proof.
  induction s as [|b s IH]; intros m Hm; simpl length in Hm.
  - reflexivity.
  - simpl. destruct (Z.leb_spec m 1) as [Hm1|Hm1]; [lia|].
    apply IH. lia.
Qed.

End IcyReference.

(* ---------------------------------------------------------------------- *)
(** ** The HTTP data handler                                               *)
(* ---------------------------------------------------------------------- *)

Section IcyHandler.
Variable e : Env.
Variable N : Z.
Hypothesis N_pos : 0 < N.
Hypothesis rb_taken :
  xSemaphoreTake (rb_holder e) RingBuffer.lock_wait = Some true.

Lemma same_stream_refl w : same_stream w w.
Proof. repeat split. Qed.

Lemma parse_icy_metadata_ok w md len :
  exists w1, parse_icy_metadata e w md len = Ok w1 /\ same_stream w w1.
Proof.
  unfold parse_icy_metadata.
  destruct (strstr _ _) as [found|]; [|eexists; split; [reflexivity|apply same_stream_refl]].
  destruct (strchr _ _) as [titleEnd|]; [|eexists; split; [reflexivity|apply same_stream_refl]].
  destruct (_ && _); [|eexists; split; [reflexivity|apply same_stream_refl]].
  destruct (take_bounded (radio_holder e) 100) as [Ht|Ht]; rewrite Ht; simpl.
  - destruct (hal (s_radio w)); eexists; (split; [reflexivity|]);
      repeat split.
  - eexists; split; [reflexivity|apply same_stream_refl].
Qed.

Lemma update_buffer_percent_ok w rb :
  ringBuffer (s_radio w) = Some rb -> RingBuffer.mutex rb = true ->
  exists w1, update_buffer_percent e w = Ok w1 /\ same_stream w w1 /\
             streamTitle (s_radio w1) = streamTitle (s_radio w) /\
             title (radioMetadata w1) = title (radioMetadata w).
Proof.
  intros Hrb Hmx. unfold update_buffer_percent.
  destruct (take_bounded (radio_holder e) 10) as [Ht|Ht]; rewrite Ht; simpl.
  - destruct (hal (s_radio w)).
    + rewrite Hrb, (rb_call_wf _ _ Hmx).
      unfold RingBuffer.bufferPercent, RingBuffer.available.
      rewrite (take_mutex_wf _ _ _ Hmx), rb_taken. simpl.
      eexists. split; [reflexivity|].
      repeat split.
    + eexists. split; [reflexivity|]. repeat split.
  - eexists. split; [reflexivity|]. repeat split.
Qed.

Lemma write_audio_fits w rb chunk :
  ringBuffer (s_radio w) = Some rb -> RingBuffer.wf rb ->
  Z.of_nat (length chunk) <= RingBuffer.free_space rb ->
  exists rb',
    write_audio e w chunk = Ok (set_radio (with_ringBuffer (Some rb')) w) /\
    RingBuffer.wf rb' /\
    RingBuffer.contents rb' = RingBuffer.contents rb ++ chunk /\
    RingBuffer.free_space rb'
      = RingBuffer.free_space rb - Z.of_nat (length chunk).
Proof.
  intros Hrb Hwf Hfit. unfold write_audio. rewrite Hrb.
  destruct (write_taken (rb_holder e) rb chunk Hwf rb_taken)
    as (rb' & E & Hwf' & Hs & _ & Ha & Hc).
  rewrite Z.min_l in E, Ha, Hc by exact Hfit.
  rewrite (rb_call_wf _ _ (RingBuffer.wf_mutex _ Hwf)), E. simpl. rewrite Z.ltb_irrefl.
  exists rb'. split; [reflexivity|]. split; [exact Hwf'|].
  rewrite Nat2Z.id, firstn_all in Hc. split; [exact Hc|].
  unfold RingBuffer.free_space. lia.
Qed.

Lemma icy_loop_unfold fuel w data dataPos :
  icy_loop e fuel w data dataPos =
  let dataLen := Z.of_nat (length data) in
  if (dataPos <? dataLen)
     && (s_http_task_stream_id w =? streamId (s_radio w)) then
    match fuel with
    | O => OutOfFuel
    | S fuel' =>
        if 0 <? bytesUntilMeta (s_radio w) then
          let audioBytes :=
            if dataLen - dataPos <? bytesUntilMeta (s_radio w)
            then dataLen - dataPos else bytesUntilMeta (s_radio w) in
          do w1 <- write_audio e w
                     (take (Z.to_nat audioBytes) (drop (Z.to_nat dataPos) data));
          icy_loop e fuel'
            (set_radio (with_bytesUntilMeta
                          (bytesUntilMeta (s_radio w1) - audioBytes)) w1)
            data (dataPos + audioBytes)
        else
          let metaLen := nth (Z.to_nat dataPos) data 0 * 16 in
          let dataPos := dataPos + 1 in
          do (w1, dataPos) <-
            (if 0 <? metaLen then
               if dataPos + metaLen <=? dataLen then
                 do w1 <- parse_icy_metadata e w
                            (drop (Z.to_nat dataPos) data) metaLen;
                 Ok (w1, dataPos + metaLen)
               else
                 Ok (add_log (WarnIcySpansChunks metaLen) w, dataLen)
             else Ok (w, dataPos));
          icy_loop e fuel'
            (set_radio (with_bytesUntilMeta (icyMetaInt (s_radio w1))) w1)
            data dataPos
    end
  else Ok w.
Proof. destruct fuel; reflexivity. Qed.

Lemma drop_at (data : list Z) (pos : Z) :
  0 <= pos < Z.of_nat (length data) ->
  drop (Z.to_nat pos) data
  = nth (Z.to_nat pos) data 0 :: drop (Z.to_nat (pos + 1)) data.
Proof.
  intros H. replace (Z.to_nat (pos + 1)) with (S (Z.to_nat pos)) by lia.
  apply drop_S. rewrite nth_lookup.
  destruct (data !! Z.to_nat pos) eqn:E; [reflexivity|].
  apply lookup_ge_None in E. lia.
Qed.

(** The loop against the byte-level reference: when the rest of the chunk
    does not end inside a frame and the audio fits, the loop ends, queues
    exactly the audio bytes and leaves the counter at the reference
    phase. *)
Ltac streaming_tac :=
  unfold streaming; simpl;
  repeat (split; [first [assumption|congruence|lia]|]);
  first [assumption|congruence|lia].

Lemma icy_loop_ok fuel :
  forall w data pos rb,
    Forall is_byte data ->
    0 <= pos <= Z.of_nat (length data) ->
    Z.of_nat (length data) - pos <= Z.of_nat fuel ->
    streaming N w rb ->
    let rest := drop (Z.to_nat pos) data in
    let ph := phase_of (bytesUntilMeta (s_radio w)) in
    in_meta (icy_phase_after N ph rest) = false ->
    Z.of_nat (length (icy_audio N ph rest)) <= RingBuffer.free_space rb ->
    exists w' rb',
      icy_loop e fuel w data pos = Ok w' /\ streaming N w' rb' /\
      RingBuffer.contents rb'
        = RingBuffer.contents rb ++ icy_audio N ph rest /\
      phase_of (bytesUntilMeta (s_radio w')) = icy_phase_after N ph rest /\
      state (s_radio w') = state (s_radio w) /\
      RingBuffer.free_space rb'
        = RingBuffer.free_space rb - Z.of_nat (length (icy_audio N ph rest)).
Proof.
  induction fuel as [|fuel IH];
    intros w data pos rb Hbytes Hpos Hfuel Hst rest ph Hmeta Hfit;
    rewrite icy_loop_unfold; cbv zeta;
    destruct Hst as (HN & Hid & Hstop & Hrb & Hwf & Hk);
    rewrite Hid, Z.eqb_refl, andb_true_r;
    destruct (Z.ltb_spec pos (Z.of_nat (length data))) as [Hlt|Hge].
  - lia.
  - exists w, rb. subst rest ph. rewrite drop_ge in * by lia. simpl.
    rewrite app_nil_r. split; [reflexivity|]. split; [streaming_tac|].
    repeat split. lia.
  - destruct (Z.ltb_spec 0 (bytesUntilMeta (s_radio w))) as [Hk0|Hk0].
    + (* audio bytes *)
      set (k := bytesUntilMeta (s_radio w)) in *.
      set (len := Z.of_nat (length data)) in *.
      assert ((if len - pos <? k then len - pos else k)
              = Z.min (Z.of_nat (length rest)) k) as ->.
      { subst rest. rewrite length_drop.
        destruct (Z.ltb_spec (len - pos) k); lia. }
      set (a := Z.min (Z.of_nat (length rest)) k) in *.
      assert (1 <= a <= len - pos) as Ha.
      { subst a rest. rewrite length_drop. lia. }
      subst ph. rewrite phase_of_pos in Hmeta, Hfit |- * by exact Hk0.
      destruct (audio_block N rest k ltac:(lia)) as [A1 A2].
      fold a in A1, A2. rewrite A1 in Hfit |- *. rewrite A2 in Hmeta |- *.
      rewrite length_app in Hfit.
      assert (length (take (Z.to_nat a) rest) = Z.to_nat a) as Htk.
      { rewrite length_take. subst a. lia. }
      destruct (write_audio_fits w rb (take (Z.to_nat a) rest) Hrb Hwf)
        as (rb1 & E & Hwf1 & Hc1 & Hf1); [lia|].
      fold rest. rewrite E. simpl rbind.
      set (w1 := set_radio _ (set_radio _ w)).
      assert (drop (Z.to_nat (pos + a)) data = drop (Z.to_nat a) rest) as Hd.
      { subst rest. rewrite drop_drop. f_equal. lia. }
      destruct (IH w1 data (pos + a) rb1 Hbytes ltac:(lia) ltac:(lia))
        as (w' & rb' & E' & Hst' & Hc' & Hp' & Hs' & Hf').
      * subst w1. streaming_tac.
      * subst w1. simpl. rewrite Hd. exact Hmeta.
      * subst w1. simpl. fold k. rewrite Hd. lia.
      * exists w', rb'. split; [exact E'|]. split; [exact Hst'|].
        subst w1. simpl in Hc', Hp', Hs', Hf'. fold k in Hf'.
        rewrite Hd in Hc', Hp', Hf'.
        split; [rewrite Hc', Hc1, app_assoc; reflexivity|].
        split; [exact Hp'|]. split; [exact Hs'|].
        rewrite length_app. lia.
    + (* length byte *)
      assert (bytesUntilMeta (s_radio w) = 0) as Hk1 by lia.
      subst ph. rewrite phase_of_zero in Hmeta, Hfit |- * by lia.
      subst rest. rewrite (drop_at data pos) in Hmeta, Hfit |- * by lia.
      set (L := nth (Z.to_nat pos) data 0) in *.
      set (rest' := drop (Z.to_nat (pos + 1)) data) in *.
      assert (is_byte L) as HL.
      { pose proof (proj1 (List.Forall_forall _ _) Hbytes) as Hb.
        apply Hb. subst L. apply nth_In. lia. }
      unfold is_byte in HL.
      assert (Z.of_nat (length rest') = Z.of_nat (length data) - (pos + 1))
        as Hlen' by (subst rest'; rewrite length_drop; lia).
      simpl icy_audio in Hfit |- *. simpl icy_phase_after in Hmeta |- *.
      destruct (Z.ltb_spec 0 (L * 16)) as [HL0|HL0].
      * (* a frame follows *)
        destruct (Z.eqb_spec L 0) as [?|_]; [lia|]. simpl in Hmeta, Hfit |- *.
        destruct (Z.leb_spec (pos + 1 + L * 16) (Z.of_nat (length data)))
          as [Hin|Hout].
        -- destruct (parse_icy_metadata_ok w rest' (L * 16))
             as (w1 & E & Hss).
           fold rest'. rewrite E. simpl rbind.
           destruct Hss as (S1 & S2 & S3 & S4 & S5 & S6 & S7).
           destruct (meta_block N rest' (L * 16) ltac:(lia)) as [M1 M2].
           rewrite M1 in Hfit |- *. rewrite M2 in Hmeta |- *.
           assert (drop (Z.to_nat (pos + 1 + L * 16)) data
                   = drop (Z.to_nat (L * 16)) rest') as Hd.
           { subst rest'. rewrite drop_drop. f_equal. lia. }
           set (w2 := set_radio _ w1).
           destruct (IH w2 data (pos + 1 + L * 16) rb Hbytes
                       ltac:(lia) ltac:(lia))
             as (w' & rb' & E' & Hst' & Hc' & Hp' & Hs' & Hf').
           ++ subst w2. streaming_tac.
           ++ subst w2. simpl. rewrite S3, HN, phase_of_pos by lia.
              rewrite Hd. exact Hmeta.
           ++ subst w2. simpl. rewrite S3, HN, phase_of_pos by lia.
              rewrite Hd. exact Hfit.
           ++ exists w', rb'. split; [exact E'|]. split; [exact Hst'|].
              subst w2. simpl in Hc', Hp', Hs', Hf'.
              rewrite S3, HN, (phase_of_pos N), Hd in Hc', Hp', Hf' by lia.
              split; [exact Hc'|]. split; [exact Hp'|].
              split; [congruence|exact Hf'].
        -- (* the frame is cut by the end of the chunk *)
           rewrite meta_short in Hmeta by lia. discriminate.
      * (* no metadata this cycle *)
        assert (L = 0) as HL1 by lia. rewrite HL1 in Hmeta, Hfit |- *.
        simpl in Hmeta, Hfit |- *.
        set (w2 := set_radio _ w).
        destruct (IH w2 data (pos + 1) rb Hbytes ltac:(lia) ltac:(lia))
          as (w' & rb' & E' & Hst' & Hc' & Hp' & Hs' & Hf').
        -- subst w2. streaming_tac.
        -- subst w2. simpl. rewrite HN, phase_of_pos by lia. exact Hmeta.
        -- subst w2. simpl. rewrite HN, phase_of_pos by lia. exact Hfit.
        -- exists w', rb'. split; [exact E'|]. split; [exact Hst'|].
           subst w2. simpl in Hc', Hp', Hs', Hf'.
           rewrite HN, (phase_of_pos N) in Hc', Hp', Hf' by lia.
           split; [exact Hc'|]. split; [exact Hp'|].
           split; [exact Hs'|exact Hf'].
  - exists w, rb. subst rest ph. rewrite drop_ge in * by lia. simpl.
    rewrite app_nil_r. split; [reflexivity|]. split; [streaming_tac|].
    repeat split. lia.
Qed.

(** One data event of a live session. *)
Lemma on_data_ok w rb data :
  Forall is_byte data -> streaming N w rb ->
  let ph := phase_of (bytesUntilMeta (s_radio w)) in
  in_meta (icy_phase_after N ph data) = false ->
  Z.of_nat (length (icy_audio N ph data)) <= RingBuffer.free_space rb ->
  exists w' rb',
    http_event_handler e w (HTTP_EVENT_ON_DATA data) = Ok (w', ESP_OK) /\
    streaming N w' rb' /\
    RingBuffer.contents rb' = RingBuffer.contents rb ++ icy_audio N ph data /\
    phase_of (bytesUntilMeta (s_radio w')) = icy_phase_after N ph data /\
    state (s_radio w') = state (s_radio w) /\
    RingBuffer.free_space rb'
      = RingBuffer.free_space rb - Z.of_nat (length (icy_audio N ph data)).
Proof.
  intros Hbytes Hst ph Hmeta Hfit.
  destruct (icy_loop_ok (length data) w data 0 rb Hbytes
              ltac:(lia) ltac:(lia) Hst Hmeta Hfit)
    as (w1 & rb1 & E1 & Hst1 & Hc1 & Hp1 & Hs1 & Hf1).
  destruct Hst as (HN & Hid & Hstop & Hrb & Hwf & Hk).
  destruct Hst1 as (HN1 & Hid1 & Hstop1 & Hrb1 & Hwf1 & Hk1).
  destruct (update_buffer_percent_ok w1 rb1 Hrb1 (RingBuffer.wf_mutex _ Hwf1))
    as (w2 & E2 & (S1 & S2 & S3 & S4 & S5 & S6 & S7) & _).
  unfold http_event_handler.
  rewrite Hstop, Hid, Z.eqb_refl, HN. simpl negb. cbv iota.
  destruct (Z.ltb_spec 0 N) as [_|?]; [|lia].
  rewrite E1. simpl rbind. rewrite E2. simpl rbind.
  exists w2, rb1. split; [reflexivity|].
  split; [streaming_tac|].
  change (Z.to_nat 0) with 0%nat in Hc1, Hp1, Hf1.
  rewrite drop_0 in Hc1, Hp1, Hf1. subst ph.
  split; [exact Hc1|]. split; [congruence|]. split; [congruence|exact Hf1].
Qed.

(** The chunks of a live session, one data event each. *)
Lemma feed_ok chunks :
  forall w rb,
    Forall (Forall is_byte) chunks -> streaming N w rb ->
    let ph := phase_of (bytesUntilMeta (s_radio w)) in
    frames_unsplit N ph chunks = true ->
    Z.of_nat (length (icy_audio N ph (concat chunks)))
      <= RingBuffer.free_space rb ->
    exists w' rb',
      feed e w chunks = Ok w' /\ streaming N w' rb' /\
      RingBuffer.contents rb'
        = RingBuffer.contents rb ++ icy_audio N ph (concat chunks) /\
      phase_of (bytesUntilMeta (s_radio w'))
        = icy_phase_after N ph (concat chunks) /\
      state (s_radio w') = state (s_radio w).
Proof.
  induction chunks as [|c chunks IH]; intros w rb Hbytes Hst ph Hwhole Hfit.
  - exists w, rb. simpl. rewrite app_nil_r. repeat split; try apply Hst.
  - inversion Hbytes as [|? ? Hc Hcs]; subst.
    simpl in Hwhole. apply andb_true_iff in Hwhole as [Hw1 Hw2].
    apply negb_true_iff in Hw1.
    simpl concat in *. rewrite icy_audio_app in Hfit |- *.
    rewrite icy_phase_after_app. rewrite length_app in Hfit.
    destruct (on_data_ok w rb c Hc Hst Hw1 ltac:(fold ph; lia))
      as (w1 & rb1 & E1 & Hst1 & Hc1 & Hp1 & Hs1 & Hf1).
    fold ph in Hc1, Hp1, Hf1.
    destruct (IH w1 rb1 Hcs Hst1) as (w2 & rb2 & E2 & Hst2 & Hc2 & Hp2 & Hs2).
    + rewrite Hp1. exact Hw2.
    + rewrite Hp1. lia.
    + exists w2, rb2. cbn [feed]. rewrite E1. cbn [rbind].
      split; [exact E2|]. split; [exact Hst2|].
      rewrite Hp1 in Hc2, Hp2.
      split; [rewrite Hc2, Hc1, app_assoc; reflexivity|].
      split; [exact Hp2|congruence].
Qed.

End IcyHandler.

(* ---------------------------------------------------------------------- *)
(** ** ICY extraction: the properties                                      *)
(* ---------------------------------------------------------------------- *)

Lemma wf_rb_full : RingBuffer.wf rb_full.
Proof.
  assert (0 < RING_BUFFER_SIZE < SIZE_WIDTH)
    by (unfold RING_BUFFER_SIZE, SIZE_WIDTH; lia).
  constructor; unfold rb_full;
    cbn [RingBuffer.buffer RingBuffer.size RingBuffer.writePos
         RingBuffer.readPos RingBuffer.dataAvailable RingBuffer.mutex];
    try lia.
  - rewrite repeat_length. lia.
  - rewrite Z.add_0_l, Z.mod_same; lia.
Qed.

(** The handler on a full ring buffer.  The stream of the example
    ([icy-metaint = 100], frame [StreamTitle='A - B';] at byte 100)
    arrives while the buffer is full: the title is parsed, [write] returns
    0 for both runs of audio bytes, the warning is logged (once, it is
    rate limited) and the ring buffer afterwards is the one from before. *)
Lemma full_buffer_drops_audio :
  icy_audio 100 (phase_of 100) example_stream
  = example_audio1 ++ example_audio2 /\
  rmap seen_sink
    (http_event_handler env_later (live_world 100 100 rb_full)
       (HTTP_EVENT_ON_DATA example_stream))
  = Ok (ESP_OK, true, bytes "A - B",
        [WarnRingBufferFull 100; InfoNowPlaying (bytes "A - B")]).
Proof. split; vm_compute; reflexivity. Qed.

(** The handler on frames that arrive whole.  For every interval [N > 0]
    and every sequence of body chunks in which no metadata frame is cut by
    a chunk boundary, and whenever the ring buffer takes what it is given
    (its mutex is taken and it has room), the handler queues exactly the
    non-metadata bytes in their order: [icy_audio] copies bytes while the
    counter is positive, reads the length byte [L] when it is zero, drops
    [16 * L] bytes ([L = 0]: none, audio resumes at once) and sets the
    counter back to [N]; the counter after the chunks is the one of that
    reference.  In particular, for [icy-metaint = 100] and the frame
    [StreamTitle='A - B';] at byte 100, delivered in two chunks that meet
    inside the audio bytes, after a real start, the buffer holds exactly
    the 150 audio bytes and the title is [A - B]. *)
Theorem icy_deinterleave_unsplit :
  (forall (e : Env) (N : Z) (w : World) (rb : RingBuffer.t)
          (chunks : list (list Z)),
      0 < N ->
      xSemaphoreTake (rb_holder e) RingBuffer.lock_wait = Some true ->
      streaming N w rb ->
      Forall (Forall is_byte) chunks ->
      let ph := phase_of (bytesUntilMeta (s_radio w)) in
      frames_unsplit N ph chunks = true ->
      Z.of_nat (length (icy_audio N ph (concat chunks)))
        <= RingBuffer.free_space rb ->
      exists w',
        feed e w chunks = Ok w' /\
        queued w' = queued w ++ icy_audio N ph (concat chunks) /\
        phase_of (bytesUntilMeta (s_radio w'))
          = icy_phase_after N ph (concat chunks) /\
        icyMetaInt (s_radio w') = N)
  /\
  rmap seen
    (sys_run env_free system0
       (live_session 100 ++
        [HttpEvent 1 (HTTP_EVENT_ON_DATA (take 60 example_stream));
         HttpEvent 1 (HTTP_EVENT_ON_DATA (drop 60 example_stream))]))
  = Ok (example_audio1 ++ example_audio2, bytes "A - B", bytes "A - B", 50)
  /\
  icy_audio 100 (phase_of 100) example_stream
  = example_audio1 ++ example_audio2.
Proof.
  split; [|split].
  - intros e N w rb chunks HN Hlock Hst Hbytes ph Hwhole Hfit.
    destruct (feed_ok e N HN Hlock chunks w rb Hbytes Hst Hwhole Hfit)
      as (w' & rb' & E & Hst' & Hc & Hp & _).
    exists w'. split; [exact E|].
    destruct Hst as (_ & _ & _ & Hrb & _).
    destruct Hst' as (HN' & _ & _ & Hrb' & _).
    unfold queued. rewrite Hrb, Hrb'. auto.
  - vm_compute. reflexivity.
  - vm_compute. reflexivity.
Qed.

Lemma icy_deinterleave_unsplit_example :
  streaming 2 (live_world 2 2 (rb_empty 8)) (rb_empty 8) /\
  frames_unsplit 2 (phase_of 2) [[1; 2; 0; 3]; [4; 1] ++ repeat 7 16 ++ [5]]
    = true /\
  exists w',
    feed env_free (live_world 2 2 (rb_empty 8))
         [[1; 2; 0; 3]; [4; 1] ++ repeat 7 16 ++ [5]] = Ok w' /\
    queued w' = [1; 2; 3; 4; 5].
Proof.
  assert (streaming 2 (live_world 2 2 (rb_empty 8)) (rb_empty 8)) as Hst.
  { unfold streaming. simpl. repeat (split; [reflexivity || lia|]).
    split; [|lia]. apply wf_rb_empty. unfold SIZE_WIDTH. simpl. lia. }
  split; [exact Hst|]. split; [reflexivity|].
  destruct (proj1 icy_deinterleave_unsplit env_free 2 _ _
              [[1; 2; 0; 3]; [4; 1] ++ repeat 7 16 ++ [5]]
              ltac:(lia) eq_refl Hst) as (w' & E & Hq & _).
  - repeat constructor; unfold is_byte; lia.
  - reflexivity.
  - vm_compute. discriminate.
  - exists w'. split; [exact E|]. rewrite Hq. reflexivity.
Defined.

(** C1: the handler on the stream of the example when a chunk boundary
    falls inside the metadata frame.  The claim is for every sequence of
    chunks: the sink gets exactly the non-metadata bytes, here the 150
    audio bytes, and the title is [A - B].  With the 183 bytes
    ([icy-metaint = 100], the length byte 2 and the frame
    [StreamTitle='A - B';] at byte 100) delivered as 110 bytes and then
    73, after a real start and with room in the ring buffer, the handler
    skips the nine frame bytes of the first chunk and sets the counter
    back to 100: the 23 frame bytes of the second chunk are queued as
    audio between the two runs of audio bytes, the title stays empty, and
    the counter ends at 27 where the framing stands at 50.  The same bytes
    cut inside the audio run give what the claim says. *)
Lemma C1_split_example_evaluation :
  frames_unsplit 100 (phase_of 100)
    [take 110 example_stream; drop 110 example_stream] = false /\
  icy_audio 100 (phase_of 100) example_stream
  = example_audio1 ++ example_audio2 /\
  icy_phase_after 100 (phase_of 100) example_stream = phase_of 50 /\
  rmap seen (sys_run env_free system0 (example_run 110))
  = Ok (example_audio1 ++ drop 9 example_frame ++ example_audio2, [], [], 27) /\
  rmap seen_log (sys_run env_free system0 (example_run 110))
  = Ok [InfoMsg "Starting radio stream"; InfoMsg "Stopping radio stream";
        InfoMsg "Starting stream"; InfoMsg "HTTP stream task started";
        InfoIcyMetaInt 100; WarnIcySpansChunks 32] /\
  rmap seen (sys_run env_free system0 (example_run 60))
  = Ok (example_audio1 ++ example_audio2, bytes "A - B", bytes "A - B", 50).
Proof.
  do 5 (split; [vm_compute; reflexivity|]).
  vm_compute; reflexivity.
Qed.

(* ---------------------------------------------------------------------- *)
(** ** Frame synchronisation                                               *)
(* ---------------------------------------------------------------------- *)

Section FrameSync.

Lemma in_all_bytes b : is_byte b -> In b all_bytes.
Proof.
  intros Hb. unfold all_bytes. apply List.in_map_iff.
  exists (Z.to_nat b). unfold is_byte in Hb. split; [lia|].
  apply List.in_seq. lia.
Qed.

(** A boolean property checked on the 256 bytes holds of every byte. *)
Lemma forall_bytes (f : Z -> bool) :
  forallb f all_bytes = true -> forall b, is_byte b -> f b = true.
Proof.
  intros H b Hb. rewrite List.forallb_forall in H.
  apply H, in_all_bytes, Hb.
Qed.

Lemma forall_bytes2 (f : Z -> Z -> bool) :
  forallb (fun a => forallb (f a) all_bytes) all_bytes = true ->
  forall a b, is_byte a -> is_byte b -> f a b = true.
Proof.
  intros H a b Ha Hb.
  apply (forall_bytes (f a)); [|exact Hb].
  apply (forall_bytes (fun a => forallb (f a) all_bytes)); assumption.
Qed.

(** The bit tests of the code are the field tests of the specification. *)
Lemma valid_frame_header_spec b0 b1 b2 :
  is_byte b0 -> is_byte b1 -> is_byte b2 ->
  valid_frame_header b0 b1 b2 = spec_header_b b0 b1 b2.
Proof.
  intros H0 H1 H2.
  assert (forall b1 b2, is_byte b1 -> is_byte b2 ->
            Bool.eqb (valid_frame_header 255 b1 b2) (spec_header_b 255 b1 b2)
            = true) as H255.
  { apply (forall_bytes2
             (fun b1 b2 => Bool.eqb (valid_frame_header 255 b1 b2)
                                    (spec_header_b 255 b1 b2))).
    vm_compute. reflexivity. }
  destruct (Z.eqb_spec b0 255) as [->|Hne].
  - apply Bool.eqb_prop, H255; assumption.
  - unfold valid_frame_header, spec_header_b.
    destruct (Z.eqb_spec b0 255); [contradiction|]. reflexivity.
Qed.

Lemma spec_header_b_iff b0 b1 b2 :
  spec_header_b b0 b1 b2 = true <-> spec_header b0 b1 b2.
Proof.
  unfold spec_header_b, spec_header.
  rewrite !andb_true_iff, !negb_true_iff, !Z.eqb_eq, !Z.eqb_neq. tauto.
Qed.

(** On a window of bytes, [header_at] decides [spec_header_at]. *)
Lemma header_at_spec (hb : list Z) (i : nat) :
  Forall is_byte hb ->
  header_at hb (Z.of_nat i) = true <-> spec_header_at hb i.
Proof.
  intros Hb. unfold header_at, spec_header_at.
  replace (Z.to_nat (Z.of_nat i + 1)) with (i + 1)%nat by lia.
  replace (Z.to_nat (Z.of_nat i + 2)) with (i + 2)%nat by lia.
  rewrite Nat2Z.id.
  pose proof (proj1 (List.Forall_forall _ _) Hb) as Hin.
  assert (forall k b, hb !! k = Some b -> is_byte b) as Hk.
  { intros k b E. apply Hin, list_elem_of_In, list_elem_of_lookup. eauto. }
  split.
  - destruct (hb !! i) as [b0|] eqn:E0; [|discriminate].
    destruct (hb !! (i + 1)%nat) as [b1|] eqn:E1; [|discriminate].
    destruct (hb !! (i + 2)%nat) as [b2|] eqn:E2; [|discriminate].
    intros Hv. exists b0, b1, b2. do 3 (split; [reflexivity|]).
    apply spec_header_b_iff. rewrite <- valid_frame_header_spec; eauto.
  - intros (b0 & b1 & b2 & E0 & E1 & E2 & Hs).
    rewrite E0, E1, E2. rewrite valid_frame_header_spec by eauto.
    apply spec_header_b_iff, Hs.
Qed.

Lemma sync_scan_unfold fuel hb bound i :
  sync_scan fuel hb bound i =
  if i <? bound then
    match fuel with
    | O => OutOfFuel
    | S fuel' =>
        match hb !! Z.to_nat i, hb !! Z.to_nat (i + 1), hb !! Z.to_nat (i + 2) with
        | Some b0, Some b1, Some b2 =>
            if valid_frame_header b0 b1 b2 then Ok i
            else sync_scan fuel' hb bound (i + 1)
        | _, _, _ => Fault
        end
    end
  else Ok (-1).
Proof. destruct fuel; reflexivity. Qed.

(** The scan loop ends, without a read outside the buffer, at the first
    offset below [bound] that passes the test, or with -1. *)
Lemma sync_scan_first (hb : list Z) (bound : Z) (fuel : nat) :
  forall i,
    0 <= i -> bound + 2 <= Z.of_nat (length hb) ->
    bound - i <= Z.of_nat fuel ->
    exists r,
      sync_scan fuel hb bound i = Ok r /\
      ((r = -1 /\ forall j, i <= j < bound -> header_at hb j = false) \/
       (i <= r < bound /\ header_at hb r = true /\
        forall j, i <= j < r -> header_at hb j = false)).
Proof.
  induction fuel as [|fuel IH]; intros i Hi Hlen Hfuel;
    rewrite sync_scan_unfold;
    destruct (Z.ltb_spec i bound) as [Hlt|Hge];
    try (exists (-1); split; [reflexivity|left; split; [reflexivity|intros; lia]]).
  - lia.
  - destruct (hb !! Z.to_nat i) as [b0|] eqn:E0;
      [|apply lookup_ge_None in E0; lia].
    destruct (hb !! Z.to_nat (i + 1)) as [b1|] eqn:E1;
      [|apply lookup_ge_None in E1; lia].
    destruct (hb !! Z.to_nat (i + 2)) as [b2|] eqn:E2;
      [|apply lookup_ge_None in E2; lia].
    destruct (valid_frame_header b0 b1 b2) eqn:Hv.
    + exists i. split; [reflexivity|]. right.
      split; [lia|]. split; [|intros; lia].
      unfold header_at. rewrite E0, E1, E2. exact Hv.
    + destruct (IH (i + 1) ltac:(lia) Hlen ltac:(lia)) as (r & E & Hr).
      exists r. split; [exact E|].
      assert (header_at hb i = false) as Hi0
        by (unfold header_at; rewrite E0, E1, E2; exact Hv).
      destruct Hr as [[-> Hnone]|(Hr1 & Hr2 & Hr3)].
      * left. split; [reflexivity|]. intros j Hj.
        destruct (Z.eq_dec j i) as [->|]; [exact Hi0|apply Hnone; lia].
      * right. split; [lia|]. split; [exact Hr2|]. intros j Hj.
        destruct (Z.eq_dec j i) as [->|]; [exact Hi0|apply Hr3; lia].
Qed.

Lemma memmove_front_ok (buf : list Z) (off n : Z) :
  off + n <= Z.of_nat (length buf) ->
  memmove_front buf off n
  = Ok (take (Z.to_nat n) (drop (Z.to_nat off) buf) ++ drop (Z.to_nat n) buf).
Proof.
  intros H. unfold memmove_front.
  destruct (Z.leb_spec (off + n) (Z.of_nat (length buf))); [reflexivity|lia].
Qed.

(** [header_at] only looks at three bytes. *)
Lemma header_at_app (window stale : list Z) (i : Z) :
  0 <= i -> i + 2 < Z.of_nat (length window) ->
  header_at (window ++ stale) i = header_at window i.
Proof.
  intros Hi Hlt. unfold header_at.
  rewrite !lookup_app_l by lia. reflexivity.
Qed.

(** In replay mode the first read of the decoder is served from the start
    of the replay content. *)
Lemma header_replay_read_first (a : AudioStatics) (hb : list Z) (size : Z) :
  s_header_buffer a = Some hb ->
  s_header_replay_mode a = true -> s_header_read_pos a = 0 ->
  0 < s_header_bytes_saved a < SIZE_WIDTH ->
  0 <= size ->
  (header_replay_read a size).2
  = take (Z.to_nat (Z.min size (s_header_bytes_saved a))) (sync_window a).
Proof.
  intros Hhb Hmode Hpos Hsaved Hsize.
  unfold header_replay_read, sync_window. rewrite Hhb, Hmode, Hpos.
  rewrite Z.sub_0_r, (size_wrap_small (s_header_bytes_saved a)) by lia.
  destruct (Z.ltb_spec 0 (s_header_bytes_saved a)) as [_|?]; [|lia].
  cbn [andb snd]. change (Z.to_nat 0) with 0%nat. rewrite drop_0.
  assert ((if size <? s_header_bytes_saved a
           then size else s_header_bytes_saved a)
          = Z.min size (s_header_bytes_saved a)) as ->
    by (destruct (Z.ltb_spec size (s_header_bytes_saved a)); lia).
  rewrite take_take. f_equal. lia.
Qed.

End FrameSync.

(** C6, as stated, fails for a header in the last three bytes of the
    probe window: offset 4093 of this full window passes every check that
    the claim lists, yet the scan stops at offset 4092, finds nothing, and
    the replay content is the whole window. *)
Lemma C6_counterexample :
  Z.of_nat (length tail_window) = HEADER_BUFFER_SIZE /\
  spec_header_at tail_window 4093 /\
  sync_result (frame_sync tail_window (Z.of_nat (length tail_window)))
  = Ok (-1, tail_window) /\
  tail_window <> drop 4093 tail_window.
Proof.
  split; [reflexivity|]. split; [|split].
  - exists 255, 251, 144. repeat split; try reflexivity; vm_compute; discriminate.
  - vm_compute. reflexivity.
  - intros H. apply (f_equal length) in H. vm_compute in H. discriminate.
Qed.

(** C6 (amended).  On the bytes [window] captured in the probe window (at
    least three, followed in the header buffer by whatever it held), the
    synchroniser finds the first offset [i] with [i + 3 < length window]
    at which byte [i] is 0xFF, the top three bits of byte [i+1] are 111,
    its version field is not 01, its layer field is not 00, the bitrate
    index of byte [i+2] is neither 0000 nor 1111 and its sample-rate
    index is not 11; the replay content is the window from that offset
    on.  When no such offset exists (a header that starts in the last
    three bytes is not looked at) the replay content is the whole window.
    With 37 junk bytes before a header, [syncOffset] is 37 and the replay
    content starts with the header. *)
Theorem C6_frame_sync :
  (forall window stale : list Z,
      Forall is_byte window ->
      3 <= Z.of_nat (length window) < SIZE_WIDTH ->
      exists off hb' saved,
        frame_sync (window ++ stale) (Z.of_nat (length window))
          = Ok (off, hb', saved) /\
        let replay := take (Z.to_nat saved) hb' in
        (forall i : nat,
            Z.of_nat i + 3 < Z.of_nat (length window) ->
            spec_header_at window i ->
            exists o : nat,
              off = Z.of_nat o /\ (o <= i)%nat /\ spec_header_at window o /\
              (forall j : nat, (j < o)%nat -> ~ spec_header_at window j) /\
              replay = drop o window) /\
        ((forall i : nat,
             Z.of_nat i + 3 < Z.of_nat (length window) ->
             ~ spec_header_at window i) ->
         off = -1 /\ replay = window))
  /\
  sync_result (frame_sync junk37_window (Z.of_nat (length junk37_window)))
  = Ok (37, [255; 251; 144; 0; 1; 2; 3]).
Proof.
  split; [|vm_compute; reflexivity].
  intros window stale Hb Hlen.
  set (len := Z.of_nat (length window)) in *.
  set (hb := window ++ stale).
  assert (size_wrap (len - 3) = len - 3) as Hbound
    by (apply size_wrap_small; lia).
  assert (Z.of_nat (length hb) = len + Z.of_nat (length stale)) as Hhb
    by (subst hb len; rewrite length_app; lia).
  destruct (sync_scan_first hb (len - 3) (S (length hb)) 0)
    as (r & E & Hr); [lia|lia|lia|].
  assert (forall j : nat, Z.of_nat j + 3 < len ->
            (header_at hb (Z.of_nat j) = true <-> spec_header_at window j))
    as Hat.
  { intros j Hj. subst hb. rewrite header_at_app by lia.
    apply header_at_spec, Hb. }
  unfold frame_sync, find_sync. fold hb. rewrite Hbound, E. cbn [rbind].
  unfold align_header.
  destruct Hr as [[-> Hnone]|(Hr1 & Hr2 & Hr3)].
  - (* nothing found *)
    simpl. do 3 eexists. split; [reflexivity|]. cbv zeta. split.
    + intros i Hi Hs. apply Hat in Hs; [|exact Hi].
      rewrite Hnone in Hs by lia. discriminate.
    + intros _. split; [reflexivity|].
      subst hb len. rewrite Nat2Z.id. apply take_app_length.
  - (* found at r *)
    assert (exists o : nat, r = Z.of_nat o) as (o & ->)
      by (exists (Z.to_nat r); lia).
    assert (spec_header_at window o) as Hso by (apply Hat; [lia|exact Hr2]).
    assert (forall j : nat, (j < o)%nat -> ~ spec_header_at window j) as Hfirst.
    { intros j Hj Hs. apply Hat in Hs; [|lia].
      rewrite Hr3 in Hs by lia. discriminate. }
    assert (take (Z.to_nat (len - Z.of_nat o)) (drop o hb) = drop o window)
      as Htake.
    { subst hb len. rewrite drop_app_le by lia.
      replace (Z.to_nat (Z.of_nat (length window) - Z.of_nat o))
        with (length (drop o window)) by (rewrite length_drop; lia).
      apply take_app_length. }
    destruct (Z.ltb_spec 0 (Z.of_nat o)) as [Hpos|Hzero].
    + rewrite (size_wrap_small (len - Z.of_nat o)) by lia.
      rewrite memmove_front_ok by lia. cbn [rbind].
      do 3 eexists. split; [reflexivity|]. cbv zeta.
      assert (take (Z.to_nat (len - Z.of_nat o))
                (take (Z.to_nat (len - Z.of_nat o))
                   (drop (Z.to_nat (Z.of_nat o)) hb)
                 ++ drop (Z.to_nat (len - Z.of_nat o)) hb)
              = drop o window) as Hreplay.
      { rewrite Nat2Z.id, Htake.
        replace (Z.to_nat (len - Z.of_nat o))
          with (length (drop o window)) by (rewrite length_drop; lia).
        apply take_app_length. }
      split.
      * intros i Hi Hs. exists o. split; [reflexivity|].
        split; [|split; [exact Hso|split; [exact Hfirst|exact Hreplay]]].
        destruct (le_lt_dec o i) as [|Hlt]; [assumption|].
        exfalso. apply (Hfirst i Hlt Hs).
      * intros Hno. exfalso. apply (Hno o); [lia|exact Hso].
    + assert (o = 0%nat) as -> by lia.
      do 3 eexists. split; [reflexivity|]. cbv zeta.
      assert (take (Z.to_nat len) hb = drop 0 window) as Hreplay.
      { rewrite drop_0. subst hb len. rewrite Nat2Z.id.
        apply take_app_length. }
      split.
      * intros i Hi Hs. exists 0%nat. split; [reflexivity|].
        split; [lia|]. split; [exact Hso|]. split; [exact Hfirst|].
        exact Hreplay.
      * intros Hno. exfalso. apply (Hno 0%nat); [lia|exact Hso].
Qed.

Lemma C6_frame_sync_witness :
  Forall is_byte junk37_window /\
  3 <= Z.of_nat (length junk37_window) < SIZE_WIDTH /\
  spec_header_at junk37_window 37 /\
  exists off hb' saved,
    frame_sync (junk37_window ++ [9; 9; 9])
               (Z.of_nat (length junk37_window)) = Ok (off, hb', saved) /\
    exists o : nat,
      off = Z.of_nat o /\ (o <= 37)%nat /\ spec_header_at junk37_window o /\
      (forall j : nat, (j < o)%nat -> ~ spec_header_at junk37_window j) /\
      take (Z.to_nat saved) hb' = drop o junk37_window.
Proof.
  assert (Forall is_byte junk37_window) as Hb
    by (repeat constructor; unfold is_byte; lia).
  assert (3 <= Z.of_nat (length junk37_window) < SIZE_WIDTH) as Hlen
    by (unfold SIZE_WIDTH; simpl; lia).
  assert (spec_header_at junk37_window 37) as Hs.
  { exists 255, 251, 144. repeat split; try reflexivity;
      vm_compute; discriminate. }
  split; [exact Hb|]. split; [exact Hlen|]. split; [exact Hs|].
  destruct (proj1 C6_frame_sync junk37_window [9; 9; 9] Hb Hlen)
    as (off & hb' & saved & E & Hfound & _).
  exists off, hb', saved. split; [exact E|].
  apply (Hfound 37%nat); [simpl; lia|exact Hs].
Defined.

(** A probe window of fewer than three bytes.  The bound [bytesRead - 3]
    of the scan wraps, and the scan goes on into what the header buffer
    held before: a header made of one captured byte and two old ones is
    taken; a header found beyond the bytes read makes the count of the
    [memmove] wrap, and without any header the scan leaves the buffer. *)
Lemma frame_sync_short_window :
  sync_result (frame_sync ([7; 255] ++ [251; 144; 0; 0; 0; 0]) 2)
  = Ok (1, [255]) /\
  frame_sync ([1; 2] ++ [0; 0; 0; 255; 251; 144; 0; 0; 0]) 2 = Fault /\
  frame_sync ([1; 2] ++ [0; 0; 0; 0; 0; 0]) 2 = Fault.
Proof. repeat split; vm_compute; reflexivity. Qed.

(* ---------------------------------------------------------------------- *)
(** ** Controller: stop and spectrum                                       *)
(* ---------------------------------------------------------------------- *)

Lemma take_forever h :
  h <> NeverReleased -> xSemaphoreTake h portMAX_DELAY = Some true.
Proof. destruct h; simpl; congruence. Qed.

(** [stopRadioStream] ends whenever the owner of [s_radio.mutex] gives it
    back, and what it leaves does not depend on the tasks. *)
Lemma stopRadioStream_ok e se w :
  (mutex (s_radio w) = true -> radio_holder e <> NeverReleased) ->
  exists w1,
    stopRadioStream e se w = Ok w1 /\
    (mutex (s_radio w1) = true -> state (s_radio w1) = RADIO_STOPPED) /\
    mutex (s_radio w1) = mutex (s_radio w) /\
    (mutex (s_radio w) = false -> state (s_radio w1) = state (s_radio w)) /\
    _radio_state w1 = RADIO_STOPPED /\
    radioMetadata w1
      = with_bufferPercent 0 (with_title [] (radioMetadata w)) /\
    httpTask (s_radio w1) = None /\ audioTask (s_radio w1) = None /\
    stopRequested (s_radio w1) = true /\
    s_audio_ring_buffer (audio w1) = false /\
    s_stream_position (audio w1) = 0 /\
    spectrum (s_radio w1) = spectrum (s_radio w) /\
    ringBuffer (s_radio w1) = ringBuffer (s_radio w) /\
    streamId (s_radio w1) = streamId (s_radio w).
Proof.
  intros Hm. unfold stopRadioStream.
  destruct w as [r sid a l1 l2 hs m lg]. destruct r. simpl in *.
  destruct se as [ae he].
  destruct mutex0.
  - rewrite (take_forever _ (Hm eq_refl)).
    destruct httpTask0, audioTask0, ae, he; simpl;
      eexists; (split; [reflexivity|]); simpl; repeat split; congruence.
  - destruct httpTask0, audioTask0, ae, he; simpl;
      eexists; (split; [reflexivity|]); simpl; repeat split; congruence.
Qed.

Lemma Ok_inj {A : Type} (a b : A) : Ok a = Ok b -> a = b.
Proof. intros H. injection H. auto. Qed.

(** Unfolds the setters of a world down to its fields. *)
Ltac world_fields :=
  cbv [forget_log s_radio s_http_task_stream_id audio lastFullLog_icy
       lastFullLog_raw _radio_state radioMetadata log set_radio set_meta
       set_audio set_hal_state add_log set_http_task_stream_id].

(** A second [stopRadioStream] changes nothing but the log. *)
Lemma stopRadioStream_twice e se se' w w1 :
  (mutex (s_radio w) = true -> radio_holder e <> NeverReleased) ->
  stopRadioStream e se w = Ok w1 ->
  exists w2, stopRadioStream e se' w1 = Ok w2 /\ forget_log w2 = forget_log w1.
Proof.
  intros Hm. unfold stopRadioStream.
  destruct w as [r sid a l1 l2 hs m lg]. destruct r. cbn in Hm |- *.
  destruct se as [ae he], se' as [ae' he'], a, m.
  destruct mutex0.
  - rewrite (take_forever _ (Hm eq_refl)).
    destruct httpTask0, audioTask0, ae, he; cbn;
      intros E; apply Ok_inj in E; subst w1; cbn;
      rewrite ?(take_forever _ (Hm eq_refl)); cbn;
      eexists; (split; [reflexivity|world_fields; reflexivity]).
  - destruct httpTask0, audioTask0, ae, he; cbn;
      intros E; apply Ok_inj in E; subst w1; cbn;
      eexists; (split; [reflexivity|world_fields; reflexivity]).
Qed.

(** C9.  From any state, whatever the two tasks do during the waits,
    [stopRadioStream] returns (as soon as [s_radio.mutex], when it
    exists, is given back) and leaves the radio stopped:
    [getRadioState] answers [RADIO_STOPPED] on each of its paths, the
    title is empty, the buffer percentage is 0 and both task handles are
    cleared; a second [stopRadioStream] changes nothing but the log.
    Before the first start ([s_radio.mutex] not yet created) the call
    changes only the flag [stopRequested] and the log, so the state and
    the metadata read through the HAL are the ones from before. *)
Theorem C9_stop_idempotent :
  (forall (e : Env) (se se' : StopEnv) (w : World),
      (mutex (s_radio w) = true -> radio_holder e <> NeverReleased) ->
      exists w1,
        stopRadioStream e se w = Ok w1 /\
        (forall e', getRadioState e' w1 = Ok RADIO_STOPPED) /\
        title (radioMetadata w1) = [] /\
        bufferPercent (radioMetadata w1) = 0 /\
        httpTask (s_radio w1) = None /\ audioTask (s_radio w1) = None /\
        exists w2,
          stopRadioStream e se' w1 = Ok w2 /\ forget_log w2 = forget_log w1)
  /\
  (forall (e : Env) (se : StopEnv) (meta0 : RadioMetadata_t),
      title meta0 = [] -> bufferPercent meta0 = 0 ->
      exists w1,
        stopRadioStream e se (initial_world meta0) = Ok w1 /\
        forget_log w1
          = set_radio (with_stopRequested true) (initial_world meta0) /\
        (forall e', getRadioState e' w1
                    = getRadioState e' (initial_world meta0)) /\
        radioMetadata w1 = meta0 /\
        forall out len,
          getRadioSpectrum w1 out len
          = getRadioSpectrum (initial_world meta0) out len).
Proof.
  split.
  - intros e se se' w Hm.
    destruct (stopRadioStream_ok e se w Hm)
      as (w1 & E & Hst & Hmx & _ & Hhs & Hmeta & Hh & Ha & _).
    exists w1. split; [exact E|].
    split; [|split; [rewrite Hmeta; reflexivity|
             split; [rewrite Hmeta; reflexivity|
             split; [exact Hh|split; [exact Ha|]]]]].
    + intros e'. unfold getRadioState.
      destruct (mutex (s_radio w1)) eqn:Hm1; simpl; [|reflexivity].
      destruct (take_bounded (radio_holder e') 100) as [Ht|Ht]; rewrite Ht;
        simpl; [rewrite Hst by reflexivity|rewrite Hhs]; reflexivity.
    + apply (stopRadioStream_twice e se se' w w1 Hm E).
  - intros e se [t0 s0 b0 p0] Ht Hp. simpl in Ht, Hp. subst t0 p0.
    destruct se as [ae he]. eexists. split; [reflexivity|].
    split; [reflexivity|]. split; [reflexivity|]. split; reflexivity.
Qed.

Lemma C9_stop_idempotent_witness :
  radio_holder env_free <> NeverReleased /\
  exists w1,
    stopRadioStream env_free (mkStopEnv false false)
      (live_world 100 40 rb_one_byte) = Ok w1 /\
    (forall e', getRadioState e' w1 = Ok RADIO_STOPPED) /\
    title (radioMetadata w1) = [] /\
    bufferPercent (radioMetadata w1) = 0.
Proof.
  assert (radio_holder env_free <> NeverReleased) as H by discriminate.
  split; [exact H|].
  destruct (proj1 C9_stop_idempotent env_free (mkStopEnv false false)
              (mkStopEnv true true) (live_world 100 40 rb_one_byte)
              (fun _ => H))
    as (w1 & E & Hs & Ht & Hp & _).
  exists w1. auto.
Defined.

(** C10.  [getRadioSpectrum(out, len)] copies exactly [min(len, 32)]
    bands: the first [min(len, 32)] bytes of [out] become the first bands
    of the spectrum, every byte of [out] from index [min(len, 32)] on is
    left as it was (for [len < 32] those at index [len] and above, for
    [len > 32] those at index 32 and above), and the length of [out] does
    not change. *)
Theorem C10_spectrum_frame (w : World) (out : list Z) (len : Z) :
  Z.of_nat (length (spectrum (s_radio w))) = SPECTRUM_BANDS ->
  0 <= len <= Z.of_nat (length out) ->
  let n := Z.to_nat (Z.min len SPECTRUM_BANDS) in
  let out' := getRadioSpectrum w out len in
  length out' = length out /\
  (forall i : nat, (i < n)%nat -> out' !! i = spectrum (s_radio w) !! i) /\
  (forall i : nat, (n <= i)%nat -> out' !! i = out !! i) /\
  take n out' = take n (spectrum (s_radio w)) /\
  drop n out' = drop n out.
Proof.
  intros Hsp Hlen n out'. subst out'. unfold getRadioSpectrum.
  assert ((if len <? SPECTRUM_BANDS then len else SPECTRUM_BANDS)
          = Z.min len SPECTRUM_BANDS) as Hmin
    by (destruct (Z.ltb_spec len SPECTRUM_BANDS); lia).
  rewrite Hmin. fold n.
  assert (length (take n (spectrum (s_radio w))) = n) as Htk
    by (rewrite length_take; subst n; lia).
  assert ((n <= length out)%nat) as Hn by (subst n; lia).
  split; [|split; [|split; [|split]]].
  - rewrite length_app, length_drop, Htk. lia.
  - intros i Hi. rewrite lookup_app_l by lia. apply lookup_take_lt. exact Hi.
  - intros i Hi. rewrite lookup_app_r by lia. rewrite Htk, lookup_drop.
    f_equal. lia.
  - rewrite take_app_le by lia. rewrite take_take. f_equal. lia.
  - rewrite drop_app_ge by lia. rewrite Htk, Nat.sub_diag. reflexivity.
Qed.

Lemma C10_spectrum_frame_witness :
  Z.of_nat (length (spectrum (s_radio (initial_world meta_empty))))
    = SPECTRUM_BANDS /\
  0 <= 2 <= Z.of_nat (length [7; 8; 9; 10]) /\
  getRadioSpectrum (initial_world meta_empty) [7; 8; 9; 10] 2 = [0; 0; 9; 10] /\
  drop 2 (getRadioSpectrum (initial_world meta_empty) [7; 8; 9; 10] 2)
    = drop 2 [7; 8; 9; 10].
Proof.
  assert (Z.of_nat (length (spectrum (s_radio (initial_world meta_empty))))
          = SPECTRUM_BANDS) as H1 by reflexivity.
  assert (0 <= 2 <= Z.of_nat (length [7; 8; 9; 10])) as H2 by (simpl; lia).
  split; [exact H1|]. split; [exact H2|]. split; [reflexivity|].
  apply (C10_spectrum_frame (initial_world meta_empty) [7; 8; 9; 10] 2 H1 H2).
Defined.

(* ---------------------------------------------------------------------- *)
(** ** Split metadata frames and stale producers                           *)
(* ---------------------------------------------------------------------- *)

(** C7: the handler on a metadata frame cut by a chunk boundary.  The
    title is left alone and the warning is logged, but only the five
    frame bytes of the first chunk are skipped: the counter is set back to
    4 at the boundary, so the next four frame bytes [mTit] are queued as
    audio, the frame byte [l] is read as a length byte and the rest of the
    second chunk, audio included, is skipped.  The reference framing, and
    the handler itself on the same bytes in one chunk, give the audio
    bytes 1 to 10. *)
Lemma C7_split_frame_evaluation :
  frames_unsplit 4 (phase_of 4) [split_chunk1; split_chunk2] = false /\
  rmap seen
    (sys_run env_free system0
       (live_session 4 ++
        [HttpEvent 1 (HTTP_EVENT_ON_DATA split_chunk1);
         HttpEvent 1 (HTTP_EVENT_ON_DATA split_chunk2)]))
  = Ok ([1; 2; 3; 4; 109; 84; 105; 116], [], [], 4) /\
  rmap seen_log
    (sys_run env_free system0
       (live_session 4 ++
        [HttpEvent 1 (HTTP_EVENT_ON_DATA split_chunk1);
         HttpEvent 1 (HTTP_EVENT_ON_DATA split_chunk2)]))
  = Ok [InfoMsg "Starting radio stream"; InfoMsg "Stopping radio stream";
        InfoMsg "Starting stream"; InfoMsg "HTTP stream task started";
        InfoIcyMetaInt 4; WarnIcySpansChunks 16; WarnIcySpansChunks 1728] /\
  icy_audio 4 (phase_of 4) (split_chunk1 ++ split_chunk2)
  = [1; 2; 3; 4; 5; 6; 7; 8; 9; 10] /\
  rmap seen
    (sys_run env_free system0
       (live_session 4 ++
        [HttpEvent 1 (HTTP_EVENT_ON_DATA (split_chunk1 ++ split_chunk2))]))
  = Ok ([1; 2; 3; 4; 5; 6; 7; 8; 9; 10], bytes "X", bytes "X", 2).
Proof. repeat split; vm_compute; reflexivity. Qed.

(** The guard of the data handler: data is refused when a stop is
    requested or when the file static differs from the live id. *)
Lemma stale_static_rejected e w data :
  stopRequested (s_radio w) = true \/
  s_http_task_stream_id w <> streamId (s_radio w) ->
  http_event_handler e w (HTTP_EVENT_ON_DATA data) = Ok (w, ESP_FAIL).
Proof.
  intros [Hs|Hne]; unfold http_event_handler.
  - rewrite Hs. reflexivity.
  - destruct (stopRequested (s_radio w)); [reflexivity|].
    destruct (Z.eqb_spec (s_http_task_stream_id w) (streamId (s_radio w)));
      [contradiction|reflexivity].
Qed.

(** C2: the handler after two starts in a row.  Task 1 captured the id 1;
    after the second start the live id is 2, and the first statements of
    task 2 have stored 2 in the file static that the guard reads.  The
    next chunk that the connection of task 1 delivers passes the guard
    and its three bytes are queued in the ring buffer of session 2. *)
Lemma C2_stale_producer_evaluation :
  rmap seen_ids (sys_run env_free system0 restart_trace)
  = Ok (Some (Some 1), 2, 2, []) /\
  rmap seen_ids
    (sys_run env_free system0
       (restart_trace ++ [HttpEvent 1 (HTTP_EVENT_ON_DATA [1; 2; 3])]))
  = Ok (Some (Some 1), 2, 2, [1; 2; 3]).
Proof. split; vm_compute; reflexivity. Qed.

(* ---------------------------------------------------------------------- *)
(** ** Prebuffering                                                        *)
(* ---------------------------------------------------------------------- *)

Lemma rbind_Ok {A B : Type} (m : result A) (k : A -> result B) (b : B) :
  rbind m k = Ok b -> exists a, m = Ok a /\ k a = Ok b.
Proof. destruct m; simpl; try discriminate. eauto. Qed.

Lemma write_audio_state e w chunk w1 :
  write_audio e w chunk = Ok w1 -> state (s_radio w1) = state (s_radio w).
Proof.
  unfold write_audio. destruct (ringBuffer (s_radio w)); [|discriminate].
  intros H. apply rbind_Ok in H as ([rb' written] & _ & H).
  apply Ok_inj in H. subst w1.
  destruct (_ <? _); [destruct (_ <? _)|]; reflexivity.
Qed.

Lemma write_raw_state e w data w1 :
  write_raw e w data = Ok w1 -> state (s_radio w1) = state (s_radio w).
Proof.
  unfold write_raw. destruct (ringBuffer (s_radio w)); [|discriminate].
  intros H. apply rbind_Ok in H as ([rb' written] & _ & H).
  apply Ok_inj in H. subst w1.
  destruct (_ <? _); [destruct (_ <? _)|]; reflexivity.
Qed.

Lemma parse_icy_metadata_state e w md len w1 :
  parse_icy_metadata e w md len = Ok w1 ->
  state (s_radio w1) = state (s_radio w).
Proof.
  intros H. destruct (parse_icy_metadata_ok e w md len) as (w2 & E & Hs).
  rewrite E in H. apply Ok_inj in H. subst w2. apply Hs.
Qed.

Lemma update_buffer_percent_state e w w1 :
  update_buffer_percent e w = Ok w1 ->
  state (s_radio w1) = state (s_radio w).
Proof.
  unfold update_buffer_percent. intros H.
  apply rbind_Ok in H as (taken & _ & H).
  destruct taken; [|apply Ok_inj in H; subst; reflexivity].
  destruct (hal (s_radio w)); [|apply Ok_inj in H; subst; reflexivity].
  destruct (ringBuffer (s_radio w)); [|discriminate].
  apply rbind_Ok in H as (pct & _ & H). apply Ok_inj in H. subst.
  reflexivity.
Qed.

Lemma icy_loop_state e fuel :
  forall w data pos w',
    icy_loop e fuel w data pos = Ok w' ->
    state (s_radio w') = state (s_radio w).
Proof.
  induction fuel as [|fuel IH]; intros w data pos w';
    rewrite icy_loop_unfold; cbv zeta;
    destruct (_ && _); try discriminate;
    try (intros H; apply Ok_inj in H; subst; reflexivity).
  destruct (0 <? bytesUntilMeta (s_radio w)).
  - intros H. apply rbind_Ok in H as (w1 & E1 & H).
    apply IH in H. simpl in H. rewrite H.
    apply (write_audio_state _ _ _ _ E1).
  - intros H. apply rbind_Ok in H as ([w1 p1] & E1 & H).
    apply IH in H. simpl in H. rewrite H.
    destruct (0 <? _).
    + destruct (_ <=? _).
      * apply rbind_Ok in E1 as (w2 & E2 & E1). apply Ok_inj in E1.
        injection E1 as <- _. apply (parse_icy_metadata_state _ _ _ _ _ E2).
      * apply Ok_inj in E1. injection E1 as <- _. reflexivity.
    + apply Ok_inj in E1. injection E1 as <- _. reflexivity.
Qed.

(** The HTTP event handler never changes [s_radio.state]. *)
Lemma http_event_handler_state e w evt w' err :
  http_event_handler e w evt = Ok (w', err) ->
  state (s_radio w') = state (s_radio w).
Proof.
  unfold http_event_handler. destruct evt as [[v|v|v|]|data|].
  - intros H. apply Ok_inj in H. injection H as <- _. reflexivity.
  - intros H. apply rbind_Ok in H as (taken & _ & H).
    destruct taken; apply Ok_inj in H; injection H as <- _;
      [destruct (hal (s_radio w))|]; reflexivity.
  - intros H. apply rbind_Ok in H as (taken & _ & H).
    destruct taken; apply Ok_inj in H; injection H as <- _;
      [destruct (hal (s_radio w))|]; reflexivity.
  - intros H. apply Ok_inj in H. injection H as <- _. reflexivity.
  - destruct (stopRequested (s_radio w));
      [intros H; apply Ok_inj in H; injection H as <- _; reflexivity|].
    destruct (negb _);
      [intros H; apply Ok_inj in H; injection H as <- _; reflexivity|].
    intros H. apply rbind_Ok in H as (w1 & E1 & H).
    apply rbind_Ok in H as (w2 & E2 & H).
    apply Ok_inj in H. injection H as <- _.
    rewrite (update_buffer_percent_state _ _ _ E2).
    destruct (0 <? _);
      [apply (icy_loop_state _ _ _ _ _ _ E1)|apply (write_raw_state _ _ _ _ E1)].
  - intros H. apply Ok_inj in H. injection H as <- _. reflexivity.
Qed.

Lemma stopRadioStream_state e se w w1 :
  stopRadioStream e se w = Ok w1 ->
  state (s_radio w1) = RADIO_STOPPED \/ state (s_radio w1) = state (s_radio w).
Proof.
  intros E.
  destruct (mutex (s_radio w)) eqn:Hm.
  - assert (radio_holder e <> NeverReleased) as Hh.
    { intros Hn. revert E. unfold stopRadioStream.
      destruct w as [r sid a l1 l2 hs m lg]. destruct r. cbn in Hm |- *.
      subst mutex0. rewrite Hn.
      destruct se as [ae he], httpTask0, audioTask0, ae, he; cbn;
        discriminate. }
    destruct (stopRadioStream_ok e se w (fun _ => Hh))
      as (w2 & E2 & Hst & Hmx & _).
    rewrite E2 in E. apply Ok_inj in E. subst w2.
    left. apply Hst. congruence.
  - destruct (stopRadioStream_ok e se w) as (w2 & E2 & _ & _ & Hst & _);
      [congruence|].
    rewrite E2 in E. apply Ok_inj in E. subst w2. right. apply Hst, Hm.
Qed.

Lemma startRadioStream_state e se w url w' ok :
  startRadioStream e se w url = Ok (w', ok) ->
  state (s_radio w') = RADIO_PLAYING -> state (s_radio w) = RADIO_PLAYING.
Proof.
  unfold startRadioStream. intros H.
  apply rbind_Ok in H as (w1 & E1 & H).
  apply stopRadioStream_state in E1. simpl in E1.
  assert (forall w2, state (s_radio w2) = state (s_radio w1) ->
            state (s_radio w2) = RADIO_PLAYING ->
            state (s_radio w) = RADIO_PLAYING) as Hback.
  { intros w2 H2 Hp. destruct E1 as [E1|E1]; congruence. }
  destruct (_ && _).
  { apply Ok_inj in H. injection H as <- _. apply Hback. reflexivity. }
  destruct (init_ring_buffer se _) as [w3 ok3] eqn:E3.
  assert (state (s_radio w3) = state (s_radio w1)) as Hs3.
  { unfold init_ring_buffer in E3. cbn [set_radio s_radio ringBuffer] in E3.
    destruct (ringBuffer (s_radio w1)); [injection E3 as <- _; reflexivity|].
    destruct (RingBuffer.init _ _ _) as [o okk].
    injection E3 as <- _. reflexivity. }
  destruct ok3; cbn [negb] in H.
  2:{ apply Ok_inj in H. injection H as <- _. apply Hback. exact Hs3. }
  destruct (ringBuffer (s_radio w3)) as [rb|]; [|discriminate].
  apply rbind_Ok in H as (rb1 & _ & H).
  apply rbind_Ok in H as (taken & _ & H).
  destruct taken.
  - destruct (http_created se); [destruct (audio_created se)|];
      apply Ok_inj in H; injection H as <- _; simpl; discriminate.
  - destruct (http_created se); [destruct (audio_created se)|];
      apply Ok_inj in H; injection H as <- _; apply Hback; exact Hs3.
Qed.

Lemma http_stream_task_end_state e w err w' :
  http_stream_task_end e w err = Ok w' ->
  state (s_radio w') = RADIO_PLAYING -> state (s_radio w) = RADIO_PLAYING.
Proof.
  unfold http_stream_task_end. intros H.
  apply rbind_Ok in H as (w1 & E1 & H). apply Ok_inj in H. subst w'.
  simpl. destruct err.
  - apply Ok_inj in E1. subst w1. auto.
  - destruct (stopRequested (s_radio w)).
    + apply Ok_inj in E1. subst w1. auto.
    + apply rbind_Ok in E1 as (taken & _ & E1). apply Ok_inj in E1. subst w1.
      destruct taken; simpl; [discriminate|auto].
Qed.

(** No step of the caller or of an HTTP task sets the state to
    [RADIO_PLAYING]. *)
Lemma sys_step_playing e s ev s' :
  sys_step e s ev = Ok s' ->
  state (s_radio (world s')) = RADIO_PLAYING ->
  state (s_radio (world s)) = RADIO_PLAYING.
Proof.
  destruct ev as [se url|se|t|t evt]; simpl.
  - intros H. apply rbind_Ok in H as ([w ok] & E & H).
    apply Ok_inj in H. subst s'. simpl.
    apply (startRadioStream_state _ _ _ _ _ _ E).
  - intros H. apply rbind_Ok in H as (w & E & H).
    apply Ok_inj in H. subst s'. simpl. intros Hp.
    destruct (stopRadioStream_state _ _ _ _ E); congruence.
  - destruct (task_lookup t (http_tasks s)) as [[id|]|];
      intros H; apply Ok_inj in H; subst s'; auto.
  - destruct (task_lookup t (http_tasks s)) as [[id|]|];
      try (intros H; apply Ok_inj in H; subst s'; auto; fail).
    intros H. apply rbind_Ok in H as ([w err] & E & H).
    apply http_event_handler_state in E.
    destruct err.
    + apply Ok_inj in H. subst s'. simpl. congruence.
    + apply rbind_Ok in H as (w2 & E2 & H). apply Ok_inj in H. subst s'.
      simpl. intros Hp.
      rewrite <- E. apply (http_stream_task_end_state _ _ _ _ E2 Hp).
Qed.

Lemma available_bounded h rb :
  RingBuffer.mutex rb = true ->
  exists a, RingBuffer.available h rb = Some a.
Proof.
  intros Hmx. unfold RingBuffer.available. rewrite (take_mutex_wf _ _ _ Hmx).
  destruct (take_bounded h 100) as [Ht|Ht];
    unfold RingBuffer.lock_wait; rewrite Ht; simpl; eauto.
Qed.

(** One turn of the prebuffer loop. *)
Lemma prebuffer_poll_spec e w rb :
  ringBuffer (s_radio w) = Some rb -> RingBuffer.mutex rb = true ->
  radio_holder e <> NeverReleased ->
  (still_waiting e w -> prebuffer_poll e w = Ok KeepWaiting) /\
  (stopRequested (s_radio w) = true ->
     exists w1, prebuffer_poll e w = Ok (LeftDuringPrebuffer w1) /\
                state (s_radio w1) = state (s_radio w)) /\
  (PREBUFFER_SIZE <= seen_avail e w -> stopRequested (s_radio w) = false ->
     exists w1, prebuffer_poll e w = Ok (PrebufferComplete w1) /\
                state (s_radio w1) = RADIO_PLAYING /\
                ringBuffer (s_radio w1) = Some rb /\
                audio w1 = audio w /\
                audioTask (s_radio w1) = audioTask (s_radio w)).
Proof.
  intros Hrb Hmx Hh. unfold still_waiting, seen_avail, prebuffer_poll.
  rewrite Hrb. destruct (available_bounded (rb_holder e) rb Hmx) as (a & Ha).
  rewrite (rb_call_wf _ _ Hmx), Ha. simpl. split; [|split].
  - intros [Hlt Hs]. rewrite Hs.
    destruct (Z.ltb_spec a PREBUFFER_SIZE); [reflexivity|lia].
  - intros Hs. rewrite Hs, andb_false_r. eexists. split; reflexivity.
  - intros Hge Hs. rewrite Hs.
    destruct (Z.ltb_spec a PREBUFFER_SIZE); [lia|]. simpl.
    rewrite (take_forever _ Hh). simpl. eexists. split; [reflexivity|].
    repeat split. exact Hrb.
Qed.

(** What a completed prebuffer turn tells. *)
Lemma prebuffer_complete_inv e w w1 :
  prebuffer_poll e w = Ok (PrebufferComplete w1) ->
  PREBUFFER_SIZE <= seen_avail e w /\
  stopRequested (s_radio w) = false /\
  state (s_radio w1) = RADIO_PLAYING /\
  ringBuffer (s_radio w1) = ringBuffer (s_radio w) /\
  audio w1 = audio w /\
  mutex (s_radio w1) = mutex (s_radio w).
Proof.
  unfold prebuffer_poll, seen_avail.
  destruct (ringBuffer (s_radio w)) as [rb|] eqn:Hrb; [|discriminate].
  destruct (RingBuffer.mutex rb) eqn:Hmx;
    [|unfold rb_call; rewrite Hmx; discriminate].
  destruct (available_bounded (rb_holder e) rb Hmx) as (a & Ha).
  rewrite (rb_call_wf _ _ Hmx), Ha. simpl.
  destruct (Z.ltb_spec a PREBUFFER_SIZE) as [Hlt|Hge];
    destruct (stopRequested (s_radio w)); simpl; try discriminate.
  intros H. apply rbind_Ok in H as (taken & Ht & H).
  apply Ok_inj in H. injection H as <-.
  assert (taken = true) as ->.
  { destruct (radio_holder e); simpl in Ht; try discriminate;
      apply Ok_inj in Ht; congruence. }
  simpl. repeat split; [lia|exact Hrb].
Qed.

(** The prebuffer loop over the worlds its turns find. *)
Lemma prebuffer_wait_spec e ws :
  radio_holder e <> NeverReleased ->
  Forall ring_usable ws ->
  exists o, prebuffer_wait e ws = Ok o /\ prebuffer_outcome_ok e ws o.
Proof.
  intros Hh. induction ws as [|w ws IH]; intros Hrb.
  - exists KeepWaiting. split; [reflexivity|constructor].
  - inversion Hrb as [|? ? (rb & Hw & Hmx) Hws]; subst.
    destruct (prebuffer_poll_spec e w rb Hw Hmx Hh) as (Hwait & Hleft & Hplay).
    cbn [prebuffer_wait].
    destruct (stopRequested (s_radio w)) eqn:Hs.
    + destruct (Hleft eq_refl) as (w1 & E & Hst). rewrite E. simpl.
      exists (LeftDuringPrebuffer w1). split; [reflexivity|].
      exists [], w, ws. repeat split; auto.
    + destruct (Z.lt_ge_cases (seen_avail e w) PREBUFFER_SIZE) as [Hlt|Hge].
      * rewrite (Hwait (conj Hlt Hs)). simpl.
        destruct (IH Hws) as (o & E & Ho). exists o. split; [exact E|].
        assert (still_waiting e w) as Hsw by (split; assumption).
        destruct o as [|w1|w1]; simpl in Ho |- *.
        -- constructor; assumption.
        -- destruct Ho as (pre & w0 & post & -> & Hpre & Ho).
           exists (w :: pre), w0, post. split; [reflexivity|].
           split; [constructor; assumption|exact Ho].
        -- destruct Ho as (pre & w0 & post & -> & Hpre & Ho).
           exists (w :: pre), w0, post. split; [reflexivity|].
           split; [constructor; assumption|exact Ho].
      * destruct (Hplay Hge eq_refl) as (w1 & E & Hst & Hr & Ha & _).
        rewrite E. simpl. exists (PrebufferComplete w1).
        split; [reflexivity|]. exists [], w, ws.
        repeat split; auto. congruence.
Qed.

(** The synchroniser returns on every buffer that holds the bytes read. *)
Lemma frame_sync_total hb bytesRead :
  3 <= bytesRead <= Z.of_nat (length hb) -> bytesRead < SIZE_WIDTH ->
  exists r, frame_sync hb bytesRead = Ok r.
Proof.
  intros Hn Hw. unfold frame_sync, find_sync.
  rewrite (size_wrap_small (bytesRead - 3)) by lia.
  destruct (sync_scan_first hb (bytesRead - 3) (S (length hb)) 0)
    as (r & E & Hr); [lia|lia|lia|].
  rewrite E. cbn [rbind]. unfold align_header.
  destruct Hr as [[-> _]|(Hr1 & _)]; [simpl; eauto|].
  destruct (Z.ltb_spec 0 r); [|simpl; eauto].
  rewrite (size_wrap_small (bytesRead - r)) by lia.
  rewrite memmove_front_ok by lia. simpl. eauto.
Qed.

(** After the prebuffer, with the allocations and the player at hand, the
    decode task hands the ring buffer to the decoder. *)
Lemma audio_decode_start_attaches e pe w rb hb0 :
  ringBuffer (s_radio w) = Some rb -> RingBuffer.wf rb ->
  xSemaphoreTake (rb_holder e) RingBuffer.lock_wait = Some true ->
  HEADER_BUFFER_SIZE <= RingBuffer.dataAvailable rb ->
  header_buffer_for pe w = Some hb0 ->
  Z.of_nat (length hb0) = HEADER_BUFFER_SIZE ->
  player_new_ok pe = true -> fopencookie_ok pe = true ->
  player_play_ok pe = true ->
  exists w2,
    audio_decode_start e pe w = Ok (w2, true) /\
    state (s_radio w2) = state (s_radio w) /\
    s_audio_ring_buffer (audio w2) = true /\
    s_header_replay_mode (audio w2) = true /\
    audioTask (s_radio w2) = audioTask (s_radio w) /\
    mutex (s_radio w2) = mutex (s_radio w).
Proof.
  intros Hrb Hwf Hlock Havail Hhb Hlen Hp1 Hp2 Hp3.
  pose proof (RingBuffer.wf_mutex _ Hwf) as Hmx.
  unfold audio_decode_start. unfold header_buffer_for in Hhb.
  rewrite Hhb, Hrb. unfold rb_call, RingBuffer.available.
  rewrite (take_mutex_wf _ _ _ Hmx), Hmx, Hlock.
  cbn [mbind option_bind call rbind].
  destruct (Z.ltb_spec (RingBuffer.dataAvailable rb) HEADER_BUFFER_SIZE)
    as [?|_]; [lia|].
  assert (0 <= HEADER_BUFFER_SIZE) as H0 by (unfold HEADER_BUFFER_SIZE; lia).
  destruct (read_taken (rb_holder e) rb HEADER_BUFFER_SIZE Hwf Hlock H0)
    as (rb' & E & _).
  rewrite Z.min_l in E by lia. rewrite E. cbn [call rbind].
  set (out := take (Z.to_nat HEADER_BUFFER_SIZE) (RingBuffer.contents rb)).
  assert (Z.of_nat (length out) = HEADER_BUFFER_SIZE) as Hout.
  { subst out. rewrite length_take.
    pose proof (contents_length rb (proj1 (RingBuffer.wf_avail _ Hwf))).
    lia. }
  destruct (frame_sync_total (out ++ drop (length out) hb0) HEADER_BUFFER_SIZE)
    as ([[off hb'] saved] & Es).
  { rewrite length_app. unfold HEADER_BUFFER_SIZE in *. lia. }
  { unfold HEADER_BUFFER_SIZE, SIZE_WIDTH. lia. }
  rewrite Es. cbn [rbind]. rewrite Hp1, Hp2, Hp3. cbn [negb].
  eexists. split; [reflexivity|]. repeat split.
Qed.

(** The prebuffer loop and the playback start that succeeds.  The loop of
    the decode task, over the worlds that its turns find, goes on while
    [available()] is below [PREBUFFER_SIZE] and no stop is requested; at
    the first turn that finds the threshold reached and no stop requested
    the state becomes [RADIO_PLAYING] (a stop requested at that turn ends
    the task instead), and playback start follows: with the header buffer
    and the player at hand the decoder is given the byte source backed by
    the ring buffer.  No other step of the system (start, stop, the HTTP
    task and its handler) sets the state to [RADIO_PLAYING], so the state
    is never [RADIO_PLAYING] before the threshold was reached.  The
    threshold is a quarter of the capacity of the ring buffer. *)
Theorem prebuffer_then_playing :
  (forall (e : Env) (ws : list World),
      radio_holder e <> NeverReleased ->
      Forall ring_usable ws ->
      exists o, prebuffer_wait e ws = Ok o /\ prebuffer_outcome_ok e ws o)
  /\
  (forall (e : Env) (pe : PlayerEnv) (w w1 : World) (rb : RingBuffer.t)
          (hb0 : list Z),
      prebuffer_poll e w = Ok (PrebufferComplete w1) ->
      ringBuffer (s_radio w) = Some rb -> RingBuffer.wf rb ->
      xSemaphoreTake (rb_holder e) RingBuffer.lock_wait = Some true ->
      header_buffer_for pe w = Some hb0 ->
      Z.of_nat (length hb0) = HEADER_BUFFER_SIZE ->
      player_new_ok pe = true -> fopencookie_ok pe = true ->
      player_play_ok pe = true ->
      PREBUFFER_SIZE <= RingBuffer.dataAvailable rb /\
      stopRequested (s_radio w) = false /\
      exists w2,
        audio_decode_start e pe w1 = Ok (w2, true) /\
        state (s_radio w1) = RADIO_PLAYING /\
        state (s_radio w2) = RADIO_PLAYING /\
        s_audio_ring_buffer (audio w2) = true /\
        (forall e',
            mutex (s_radio w) = true ->
            xSemaphoreTake (radio_holder e') (pdMS_TO_TICKS 100) = Some true ->
            getRadioState e' w1 = Ok RADIO_PLAYING /\
            getRadioState e' w2 = Ok RADIO_PLAYING))
  /\
  (forall (e : Env) (s : System) (ev : sys_event) (s' : System),
      sys_step e s ev = Ok s' ->
      state (s_radio (world s')) = RADIO_PLAYING ->
      state (s_radio (world s)) = RADIO_PLAYING)
  /\
  4 * PREBUFFER_SIZE = RING_BUFFER_SIZE.
Proof.
  split; [exact prebuffer_wait_spec|].
  split; [|split; [exact sys_step_playing|reflexivity]].
  intros e pe w w1 rb hb0 Hpoll Hrb Hwf Hlock Hhb Hlen Hp1 Hp2 Hp3.
  destruct (prebuffer_complete_inv e w w1 Hpoll)
    as (Hge & Hs & Hst & Hr1 & Ha1 & Hm1).
  assert (seen_avail e w = RingBuffer.dataAvailable rb) as Hseen.
  { unfold seen_avail, RingBuffer.available.
    rewrite Hrb, (take_mutex_wf _ _ _ (RingBuffer.wf_mutex _ Hwf)), Hlock.
    reflexivity. }
  rewrite Hseen in Hge. split; [exact Hge|]. split; [exact Hs|].
  destruct (audio_decode_start_attaches e pe w1 rb hb0)
    as (w2 & E & Hst2 & Hat & _ & _ & Hm2); try assumption.
  - congruence.
  - unfold PREBUFFER_SIZE, HEADER_BUFFER_SIZE in *. lia.
  - unfold header_buffer_for in *. rewrite Ha1. exact Hhb.
  - exists w2. split; [exact E|]. split; [exact Hst|].
    split; [congruence|]. split; [exact Hat|].
    intros e' Hm Ht. unfold getRadioState.
    rewrite Hm2, Hm1, Hm, Ht. simpl. split; congruence.
Qed.

Lemma prebuffer_then_playing_example :
  radio_holder env_free <> NeverReleased /\
  (exists o,
     prebuffer_wait env_free
       [live_world 0 0 rb_one_byte; live_world 0 0 rb_full] = Ok o /\
     prebuffer_outcome_ok env_free
       [live_world 0 0 rb_one_byte; live_world 0 0 rb_full] o) /\
  prebuffer_poll env_free (live_world 0 0 rb_full)
  = Ok (PrebufferComplete
          (add_log (InfoMsg "Prebuffer complete, starting playback")
             (set_radio (with_state RADIO_PLAYING) (live_world 0 0 rb_full)))) /\
  exists w2,
    audio_decode_start env_free
      (mkPlayerEnv (Some (repeat 0 (Z.to_nat HEADER_BUFFER_SIZE))) true true true)
      (add_log (InfoMsg "Prebuffer complete, starting playback")
         (set_radio (with_state RADIO_PLAYING) (live_world 0 0 rb_full)))
    = Ok (w2, true) /\
    state (s_radio w2) = RADIO_PLAYING /\
    s_audio_ring_buffer (audio w2) = true.
Proof.
  assert (radio_holder env_free <> NeverReleased) as H by discriminate.
  assert (forall P Q R S T : Prop, P /\ Q /\ R /\ S /\ T -> P /\ R /\ S) as Hsel
    by tauto.
  assert (prebuffer_poll env_free (live_world 0 0 rb_full)
          = Ok (PrebufferComplete
                  (add_log (InfoMsg "Prebuffer complete, starting playback")
                     (set_radio (with_state RADIO_PLAYING)
                        (live_world 0 0 rb_full))))) as Hpoll
    by reflexivity.
  split; [exact H|]. split; [|split; [exact Hpoll|]].
  - apply (proj1 prebuffer_then_playing env_free _ H).
    repeat constructor; eexists; split; reflexivity.
  - refine (ex_ind (fun w2 Hw2 => ex_intro _ w2 (Hsel _ _ _ _ _ Hw2)) _).
    apply (proj1 (proj2 prebuffer_then_playing) env_free
             (mkPlayerEnv (Some (repeat 0 (Z.to_nat HEADER_BUFFER_SIZE)))
                          true true true)
             (live_world 0 0 rb_full) _ rb_full
             (repeat 0 (Z.to_nat HEADER_BUFFER_SIZE)) Hpoll eq_refl
             wf_rb_full eq_refl eq_refl);
      [rewrite repeat_length; unfold HEADER_BUFFER_SIZE; lia
      |reflexivity|reflexivity|reflexivity].
Defined.

(** C8: the decode task when playback cannot start.  The claim has the
    state become Playing together with the consumer attached to the
    decoder.  The prebuffer loop finds the threshold reached (the ring
    buffer is full) and no stop requested, and the state is set to
    [RADIO_PLAYING] before anything else is done.  When then the header
    buffer cannot be allocated, or [audio_player_new], [fopencookie] or
    [audio_player_play] fails, the task logs the error, clears its handle
    and ends: the decoder does not play from the byte source, no stop is
    requested, and the state stays [RADIO_PLAYING], which is what
    [getRadioState] answers.  When all four succeed the decoder is given
    the byte source. *)
Lemma C8_playing_without_consumer_evaluation :
  RingBuffer.available Free rb_full = Some (4 * PREBUFFER_SIZE) /\
  state (s_radio (live_world 0 0 rb_full)) = RADIO_BUFFERING /\
  stopRequested (s_radio (live_world 0 0 rb_full)) = false /\
  prebuffer_poll env_free (live_world 0 0 rb_full)
  = Ok (PrebufferComplete playing_world) /\
  rmap (seen_playback env_free)
    (audio_decode_start env_free (mkPlayerEnv None true true true)
       playing_world)
  = Ok (false, RADIO_PLAYING, None, false, Ok RADIO_PLAYING,
        ErrorMsg "Failed to allocate header buffer") /\
  rmap (seen_playback env_free)
    (audio_decode_start env_free
       (mkPlayerEnv (Some header_zeros) false true true) playing_world)
  = Ok (false, RADIO_PLAYING, None, false, Ok RADIO_PLAYING,
        ErrorMsg "Failed to create audio player") /\
  rmap (seen_playback env_free)
    (audio_decode_start env_free
       (mkPlayerEnv (Some header_zeros) true false true) playing_world)
  = Ok (false, RADIO_PLAYING, None, false, Ok RADIO_PLAYING,
        ErrorMsg "Failed to create stream FILE") /\
  rmap (seen_playback env_free)
    (audio_decode_start env_free
       (mkPlayerEnv (Some header_zeros) true true false) playing_world)
  = Ok (false, RADIO_PLAYING, None, false, Ok RADIO_PLAYING,
        ErrorMsg "Failed to start playback") /\
  rmap (seen_playback env_free)
    (audio_decode_start env_free
       (mkPlayerEnv (Some header_zeros) true true true) playing_world)
  = Ok (true, RADIO_PLAYING, Some 11%nat, false, Ok RADIO_PLAYING,
        WarnNoValidFrame 4096).
Proof.
  do 4 (split; [reflexivity|]).
  do 4 (split; [vm_compute; reflexivity|]).
  vm_compute; reflexivity.
Qed.

(* ====================================================================== *)
(** * Part III: further properties of the code                             *)
(* ====================================================================== *)

(** ** Ring buffer *)

Section RingBufferMore.
Import RingBuffer.

Lemma reset_taken h rb :
  wf rb -> h <> NeverReleased ->
  exists rb',
    reset h rb = Some rb' /\ wf rb' /\ contents rb' = [] /\
    size rb' = size rb /\ buffer rb' = buffer rb /\ dataAvailable rb' = 0.
Proof.
  intros [Hsz Hlen Hw Hr Ha Hlink Hmx] Hh.
  unfold reset. rewrite (take_mutex_wf _ _ _ Hmx), (take_forever h Hh). simpl.
  eexists. split; [reflexivity|].
  split; [|split; [|split; [|split]]]; try reflexivity.
  constructor; simpl; try lia; try assumption. rewrite Z.mod_0_l; lia.
Qed.

Lemma wf_free_space rb : wf rb -> 0 <= free_space rb <= size rb.
Proof. intros [Hsz Hlen Hw Hr Ha Hlink _]. unfold free_space. lia. Qed.

Lemma wf_contents_length rb :
  wf rb -> Z.of_nat (length (contents rb)) = dataAvailable rb.
Proof. intros H. apply contents_length. destruct H. lia. Qed.

End RingBufferMore.

(** X1.  The fill level reported by [bufferPercent] is a percentage: for a
    consistent buffer whose capacity times 100 fits [size_t], the result
    lies between 0 and 100, it is the rounded-down share of the queued
    bytes when the lock is taken (100 exactly when the buffer is full) and
    0 when the lock times out.  For a capacity of 2^26 bytes the product
    wraps: a full buffer is reported as 36 percent. *)
Theorem bufferPercent_range (h : holder) (rb : RingBuffer.t) :
  RingBuffer.wf rb -> RingBuffer.size rb * 100 < SIZE_WIDTH ->
  (exists p,
     RingBuffer.bufferPercent h rb = Some p /\ 0 <= p <= 100 /\
     (xSemaphoreTake h RingBuffer.lock_wait = Some true ->
        p = RingBuffer.dataAvailable rb * 100 / RingBuffer.size rb /\
        (p = 100 <-> RingBuffer.dataAvailable rb = RingBuffer.size rb)) /\
     (xSemaphoreTake h RingBuffer.lock_wait = Some false -> p = 0)) /\
  (forall mem : list Z,
     RingBuffer.bufferPercent Free
       (RingBuffer.mk mem (2 ^ 26) 0 0 (2 ^ 26) true)
     = Some 36).
Proof.
  intros [Hsz Hlen Hw Hr Ha Hlink Hmx] Hfit. split; [|reflexivity].
  unfold RingBuffer.bufferPercent, RingBuffer.available.
  rewrite (take_mutex_wf _ _ _ Hmx).
  destruct (take_bounded h 100) as [Ht | Ht];
    unfold RingBuffer.lock_wait; rewrite Ht; simpl.
  - eexists. split; [reflexivity|].
    rewrite size_wrap_small by nia.
    assert (0 <= RingBuffer.dataAvailable rb * 100 / RingBuffer.size rb <= 100)
      as Hp.
    { split; [apply Z.div_pos; lia|].
      apply Z.div_le_upper_bound; nia. }
    split; [exact Hp|]. split; [|discriminate].
    intros _. split; [reflexivity|]. split.
    + intros E.
      pose proof (Z.mul_div_le (RingBuffer.dataAvailable rb * 100)
                    (RingBuffer.size rb) ltac:(lia)) as Hle.
      rewrite E in Hle. lia.
    + intros E. rewrite E, (Z.mul_comm (RingBuffer.size rb) 100).
      apply Z.div_mul. lia.
  - exists 0. split; [reflexivity|]. split; [lia|]. split; [discriminate|].
    reflexivity.
Qed.

Lemma bufferPercent_range_witness :
  RingBuffer.wf rb_one_byte /\
  RingBuffer.size rb_one_byte * 100 < SIZE_WIDTH /\
  exists p,
    RingBuffer.bufferPercent Free rb_one_byte = Some p /\ 0 <= p <= 100 /\
    p = 25.
Proof.
  assert (RingBuffer.size rb_one_byte * 100 < SIZE_WIDTH) as Hfit
    by (vm_compute; reflexivity).
  split; [exact wf_rb_one_byte|]. split; [exact Hfit|].
  destruct (proj1 (bufferPercent_range Free rb_one_byte wf_rb_one_byte Hfit))
    as (p & E & Hp & Ht & _).
  exists p. split; [exact E|]. split; [exact Hp|].
  destruct (Ht eq_refl) as [-> _]. reflexivity.
Defined.

(** X2.  [reset] waits without bound: it never returns while the mutex is
    never given back.  When it returns, the queue is empty whatever it
    held, and the bytes written next are the bytes read next: nothing of
    the previous stream is handed out. *)
Theorem reset_discards_queue (h h1 h2 : holder) (rb : RingBuffer.t)
    (data : list Z) :
  RingBuffer.wf rb ->
  Z.of_nat (length data) <= RingBuffer.size rb ->
  xSemaphoreTake h1 RingBuffer.lock_wait = Some true ->
  xSemaphoreTake h2 RingBuffer.lock_wait = Some true ->
  (h = NeverReleased -> RingBuffer.reset h rb = None) /\
  (h <> NeverReleased ->
     exists rb0 rb1 rb2,
       RingBuffer.reset h rb = Some rb0 /\
       RingBuffer.contents rb0 = [] /\
       RingBuffer.available h1 rb0 = Some 0 /\
       RingBuffer.write h1 rb0 data = Some (rb1, Z.of_nat (length data)) /\
       RingBuffer.read h2 rb1 (Z.of_nat (length data))
         = Some (rb2, data, Z.of_nat (length data)) /\
       RingBuffer.contents rb2 = []).
Proof.
  intros Hwf Hlen H1 H2. split.
  { intros ->. unfold RingBuffer.reset.
    rewrite (take_mutex_wf _ _ _ (RingBuffer.wf_mutex _ Hwf)). reflexivity. }
  intros Hh.
  destruct (reset_taken h rb Hwf Hh) as (rb0 & E0 & Hwf0 & Hc0 & Hs0 & _ & Ha0).
  destruct (write_taken h1 rb0 data Hwf0 H1)
    as (rb1 & E1 & Hwf1 & Hs1 & _ & Ha1 & Hc1).
  assert (Z.min (Z.of_nat (length data)) (RingBuffer.free_space rb0)
          = Z.of_nat (length data)) as Hmin
    by (unfold RingBuffer.free_space; lia).
  rewrite Hmin in *.
  destruct (read_taken h2 rb1 (Z.of_nat (length data)) Hwf1 H2 ltac:(lia))
    as (rb2 & E2 & _ & _ & _ & Ha2 & Hc2).
  assert (Z.min (Z.of_nat (length data)) (RingBuffer.dataAvailable rb1)
          = Z.of_nat (length data)) as Hmin2 by lia.
  rewrite Hmin2 in *.
  rewrite Hc1, Hc0, Nat2Z.id, firstn_all in *. simpl in *.
  rewrite firstn_all in E2. rewrite drop_all in Hc2.
  exists rb0, rb1, rb2.
  split; [exact E0|]. split; [exact Hc0|].
  split.
  { unfold RingBuffer.available.
    rewrite (take_mutex_wf _ _ _ (RingBuffer.wf_mutex _ Hwf0)), H1.
    simpl. congruence. }
  split; [exact E1|]. split; [exact E2|exact Hc2].
Qed.

Lemma reset_discards_queue_witness :
  RingBuffer.wf rb_one_byte /\
  Z.of_nat (length [1; 2; 3; 4]) <= RingBuffer.size rb_one_byte /\
  exists rb0 rb1 rb2,
    RingBuffer.reset (ReleasedAfter 700) rb_one_byte = Some rb0 /\
    RingBuffer.write Free rb0 [1; 2; 3; 4] = Some (rb1, 4) /\
    RingBuffer.read (ReleasedAfter 100) rb1 4 = Some (rb2, [1; 2; 3; 4], 4).
Proof.
  assert (Z.of_nat (length [1; 2; 3; 4]) <= RingBuffer.size rb_one_byte)
    as Hlen by (vm_compute; discriminate).
  split; [exact wf_rb_one_byte|]. split; [exact Hlen|].
  destruct (proj2 (reset_discards_queue (ReleasedAfter 700) Free
                     (ReleasedAfter 100) rb_one_byte [1; 2; 3; 4]
                     wf_rb_one_byte Hlen eq_refl eq_refl))
    as (rb0 & rb1 & rb2 & E0 & _ & _ & E1 & E2 & _); [discriminate|].
  exists rb0, rb1, rb2. split; [exact E0|]. split; [exact E1|exact E2].
Defined.

Lemma rb_flow_inv (ops : list rb_op) :
  forall rb acc del,
    Forall rb_op_ok ops -> RingBuffer.wf rb ->
    acc = del ++ RingBuffer.contents rb ->
    exists rb' acc' del',
      rb_flow rb acc del ops = Some (rb', acc', del') /\
      RingBuffer.wf rb' /\ acc' = del' ++ RingBuffer.contents rb' /\
      RingBuffer.size rb' = RingBuffer.size rb.
Proof.
  induction ops as [|op ops IH]; intros rb acc del Hok Hwf Hinv.
  - exists rb, acc, del. simpl. auto.
  - inversion Hok as [|? ? Hop Hok']; subst.
    destruct op as [h data | h len | ms]; cbn [rb_flow].
    + destruct (take_bounded h 100) as [Ht | Ht].
      * destruct (write_taken h rb data Hwf Ht)
          as (rb1 & E & Hwf1 & Hs1 & _ & _ & Hc1).
        rewrite E. simpl.
        destruct (IH rb1
                    ((del ++ RingBuffer.contents rb)
                     ++ take (Z.to_nat (Z.min (Z.of_nat (length data))
                                          (RingBuffer.free_space rb))) data)
                    del Hok' Hwf1)
          as (rb' & acc' & del' & E' & Hwf' & Hinv' & Hs').
        { rewrite Hc1, app_assoc. reflexivity. }
        rewrite E'.
        exists rb', acc', del'.
        split; [reflexivity|]. split; [exact Hwf'|].
        split; [exact Hinv'|congruence].
      * rewrite (write_timeout h rb data (RingBuffer.wf_mutex _ Hwf) Ht).
        simpl.
        rewrite take_0, app_nil_r.
        apply IH; auto.
    + simpl in Hop.
      destruct (take_bounded h 100) as [Ht | Ht].
      * destruct (read_taken h rb len Hwf Ht ltac:(lia))
          as (rb1 & E & Hwf1 & Hs1 & _ & _ & Hc1).
        rewrite E. simpl.
        destruct (IH rb1 (del ++ RingBuffer.contents rb)
                    (del ++ take (Z.to_nat (Z.min len
                                     (RingBuffer.dataAvailable rb)))
                              (RingBuffer.contents rb)) Hok' Hwf1)
          as (rb' & acc' & del' & E' & Hwf' & Hinv' & Hs').
        { rewrite Hc1, <- app_assoc, take_drop. reflexivity. }
        rewrite E'.
        exists rb', acc', del'.
        split; [reflexivity|]. split; [exact Hwf'|].
        split; [exact Hinv'|congruence].
      * rewrite (read_timeout h rb len (RingBuffer.wf_mutex _ Hwf) Ht).
        simpl. rewrite app_nil_r.
        apply IH; auto.
    + destruct (reset_taken (ReleasedAfter ms) rb Hwf ltac:(discriminate))
        as (rb1 & E & Hwf1 & Hc1 & Hs1 & _).
      rewrite E. simpl.
      destruct (IH rb1 [] [] Hok' Hwf1)
        as (rb' & acc' & del' & E' & Hwf' & Hinv' & Hs').
      { rewrite Hc1. reflexivity. }
      rewrite E'. exists rb', acc', del'.
      split; [reflexivity|]. split; [exact Hwf'|].
      split; [exact Hinv'|congruence].
Qed.

(** X3.  The ring buffer is a faithful queue over any history of calls,
    lock timeouts included: since the most recent [reset], the bytes that
    [write] accepted are exactly the bytes that [read] handed out followed
    by the bytes still queued.  No accepted byte is lost, duplicated or
    reordered, and the queue never holds more than the capacity. *)
Theorem rb_flow_fifo (C : Z) (mem : list Z) (rb0 : RingBuffer.t)
    (ops : list rb_op) :
  0 < C < SIZE_WIDTH -> Z.of_nat (length mem) = C -> Forall rb_op_ok ops ->
  RingBuffer.init (Some mem) true C = (Some rb0, true) ->
  exists rb acc del,
    rb_flow rb0 [] [] ops = Some (rb, acc, del) /\
    acc = del ++ RingBuffer.contents rb /\
    Z.of_nat (length (RingBuffer.contents rb)) <= C.
Proof.
  intros HC Hmem Hok Hinit.
  destruct (wf_init _ _ _ _ HC Hinit) as (Hwf0 & Hs0 & Ha0 & _).
  { injection Hinit as <-. exact Hmem. }
  destruct (rb_flow_inv ops rb0 [] [] Hok Hwf0)
    as (rb & acc & del & E & Hwf & Hinv & Hs).
  { rewrite (contents_empty rb0 Ha0). reflexivity. }
  exists rb, acc, del. split; [exact E|]. split; [exact Hinv|].
  rewrite (wf_contents_length rb Hwf).
  destruct Hwf. lia.
Qed.

Lemma rb_flow_fifo_witness :
  0 < 4 < SIZE_WIDTH /\ Z.of_nat (length [0; 0; 0; 0]) = 4 /\
  Forall rb_op_ok
    [OpWrite Free [1; 2; 3]; OpRead Free 2; OpWrite Free [4; 5; 6; 7];
     OpRead NeverReleased 1; OpRead Free 3] /\
  RingBuffer.init (Some [0; 0; 0; 0]) true 4 = (Some (rb_empty 4), true) /\
  exists rb acc del,
    rb_flow (rb_empty 4) [] []
      [OpWrite Free [1; 2; 3]; OpRead Free 2; OpWrite Free [4; 5; 6; 7];
       OpRead NeverReleased 1; OpRead Free 3] = Some (rb, acc, del) /\
    acc = del ++ RingBuffer.contents rb /\
    del = [1; 2; 3; 4; 5].
Proof.
  assert (0 < 4 < SIZE_WIDTH) as HC by (split; reflexivity).
  assert (Forall rb_op_ok
            [OpWrite Free [1; 2; 3]; OpRead Free 2; OpWrite Free [4; 5; 6; 7];
             OpRead NeverReleased 1; OpRead Free 3]) as Hok.
  { repeat constructor; discriminate. }
  split; [exact HC|]. split; [reflexivity|]. split; [exact Hok|].
  split; [reflexivity|].
  destruct (rb_flow_fifo 4 [0; 0; 0; 0] (rb_empty 4) _ HC eq_refl Hok eq_refl)
    as (rb & acc & del & E & Hinv & _).
  exists rb, acc, del. split; [exact E|]. split; [exact Hinv|].
  vm_compute in E. congruence.
Defined.

Lemma read_keeps h rb len rb' out n :
  RingBuffer.read h rb len = Some (rb', out, n) ->
  RingBuffer.buffer rb' = RingBuffer.buffer rb /\
  RingBuffer.writePos rb' = RingBuffer.writePos rb /\
  RingBuffer.size rb' = RingBuffer.size rb.
Proof.
  unfold RingBuffer.read, RingBuffer.take_mutex.
  destruct (RingBuffer.mutex rb); [|discriminate].
  destruct (xSemaphoreTake h RingBuffer.lock_wait) as [[|]|]; simpl;
    [|intros E; injection E as <- _ _; auto|discriminate].
  destruct (RingBuffer.read_loop _ _ _ _) as [o r].
  intros E. injection E as <- _ _. simpl. auto.
Qed.

Lemma RingBuffer_ext (a b : RingBuffer.t) :
  RingBuffer.buffer a = RingBuffer.buffer b ->
  RingBuffer.size a = RingBuffer.size b ->
  RingBuffer.writePos a = RingBuffer.writePos b ->
  RingBuffer.readPos a = RingBuffer.readPos b ->
  RingBuffer.dataAvailable a = RingBuffer.dataAvailable b ->
  RingBuffer.mutex a = RingBuffer.mutex b ->
  a = b.
Proof. destruct a, b. simpl. intros. congruence. Qed.

(** X4.  Reading in two steps is reading once: a [read] of up to [n1]
    bytes followed by a [read] of up to [n2] bytes hands out, piece after
    piece, the bytes of one [read] of up to [n1 + n2] bytes, and leaves the
    very same buffer.  The lengths are values of [size_t], and so is their
    sum: the statement is for sums that do not wrap. *)
Theorem read_in_two_steps (h : holder) (rb : RingBuffer.t) (n1 n2 : Z) :
  RingBuffer.wf rb -> 0 <= n1 -> 0 <= n2 -> n1 + n2 < SIZE_WIDTH ->
  xSemaphoreTake h RingBuffer.lock_wait = Some true ->
  exists rb1 out1 k1 rb2 out2 k2,
    RingBuffer.read h rb n1 = Some (rb1, out1, k1) /\
    RingBuffer.read h rb1 n2 = Some (rb2, out2, k2) /\
    RingBuffer.read h rb (size_wrap (n1 + n2))
    = Some (rb2, out1 ++ out2, k1 + k2).
Proof.
  intros Hwf H1 H2 Hsum Ht.
  rewrite (size_wrap_small (n1 + n2)) by lia.
  destruct (read_taken h rb n1 Hwf Ht H1)
    as (rb1 & E1 & Hwf1 & Hs1 & Hr1 & Ha1 & Hc1).
  destruct (read_taken h rb1 n2 Hwf1 Ht H2)
    as (rb2 & E2 & Hwf2 & Hs2 & Hr2 & Ha2 & Hc2).
  destruct (read_taken h rb (n1 + n2) Hwf Ht ltac:(lia))
    as (rb12 & E12 & Hwf12 & Hs12 & Hr12 & Ha12 & Hc12).
  destruct (read_keeps _ _ _ _ _ _ E1) as (Hb1 & Hw1 & _).
  destruct (read_keeps _ _ _ _ _ _ E2) as (Hb2 & Hw2 & _).
  destruct (read_keeps _ _ _ _ _ _ E12) as (Hb12 & Hw12 & _).
  set (k1 := Z.min n1 (RingBuffer.dataAvailable rb)) in *.
  set (k2 := Z.min n2 (RingBuffer.dataAvailable rb1)) in *.
  assert (0 <= k1 /\ 0 <= k2) as [Hk1 Hk2]
    by (destruct Hwf, Hwf1; unfold k1, k2; lia).
  assert (Z.min (n1 + n2) (RingBuffer.dataAvailable rb) = k1 + k2) as Hk
    by (destruct Hwf; unfold k1, k2; lia).
  rewrite Hk in *.
  exists rb1, (take (Z.to_nat k1) (RingBuffer.contents rb)), k1,
         rb2, (take (Z.to_nat k2) (RingBuffer.contents rb1)), k2.
  split; [exact E1|]. split; [exact E2|].
  assert (rb12 = rb2) as ->.
  { apply RingBuffer_ext; try congruence.
    - rewrite Hr12, Hr2, Hr1, Hs1, Zplus_mod_idemp_l. f_equal. lia.
    - lia.
    - rewrite (RingBuffer.wf_mutex _ Hwf12), (RingBuffer.wf_mutex _ Hwf2).
      reflexivity. }
  assert (take (Z.to_nat (k1 + k2)) (RingBuffer.contents rb)
          = take (Z.to_nat k1) (RingBuffer.contents rb)
            ++ take (Z.to_nat k2) (RingBuffer.contents rb1)) as <-.
  { rewrite Hc1, Z2Nat.inj_add by lia.
    rewrite <- (take_drop (Z.to_nat k1)
                  (take (Z.to_nat k1 + Z.to_nat k2) (RingBuffer.contents rb))).
    rewrite take_take, skipn_firstn_comm.
    f_equal; f_equal; lia. }
  exact E12.
Qed.

Lemma read_in_two_steps_witness :
  RingBuffer.wf rb_one_byte /\
  exists rb1 rb2,
    RingBuffer.read Free rb_one_byte 1 = Some (rb1, [7], 1) /\
    RingBuffer.read Free rb1 2 = Some (rb2, [], 0) /\
    RingBuffer.read Free rb_one_byte (size_wrap (1 + 2))
    = Some (rb2, [7], 1).
Proof.
  split; [exact wf_rb_one_byte|].
  destruct (read_in_two_steps Free rb_one_byte 1 2 wf_rb_one_byte
              ltac:(lia) ltac:(lia) ltac:(reflexivity) eq_refl)
    as (rb1 & out1 & k1 & rb2 & out2 & k2 & E1 & E2 & E12).
  exists rb1, rb2.
  assert (out1 = [7] /\ k1 = 1
          /\ rb1 = RingBuffer.mk [7; 0; 0; 0] 4 1 1 0 true)
    as (-> & -> & ->).
  { vm_compute in E1. injection E1 as <- <- <-. auto. }
  assert (out2 = [] /\ k2 = 0) as (-> & ->).
  { vm_compute in E2. injection E2 as _ <- <-. auto. }
  split; [exact E1|]. split; [exact E2|exact E12].
Defined.

(** ** ICY metadata *)

Lemma c_str_app (a b : list Z) :
  Forall (fun x => x <> 0) a -> c_str (a ++ b) = a ++ c_str b.
Proof.
  induction a as [|x a IH]; intros H; [reflexivity|].
  inversion H as [|? ? Hx Ha]; subst. simpl.
  destruct (Z.eqb_spec x 0); [contradiction|].
  rewrite IH by exact Ha. reflexivity.
Qed.

Lemma starts_with_app (a b : list Z) : starts_with a (a ++ b) = true.
Proof.
  induction a as [|x a IH]; [reflexivity|].
  simpl. rewrite Z.eqb_refl, IH. reflexivity.
Qed.

Lemma strstr_prefix (a b : list Z) : strstr (a ++ b) a = Some (a ++ b).
Proof.
  destruct (a ++ b) eqn:E; simpl; rewrite <- E, starts_with_app; reflexivity.
Qed.

Lemma strchr_first (a b : list Z) (c : Z) :
  Forall (fun x => x <> c) a -> strchr (a ++ c :: b) c = Some (c :: b).
Proof.
  induction a as [|x a IH]; intros H; simpl.
  - rewrite Z.eqb_refl. reflexivity.
  - inversion H as [|? ? Hx Ha]; subst.
    destruct (Z.eqb_spec x c); [contradiction|]. apply IH. exact Ha.
Qed.

(** X5.  A metadata frame that starts with [StreamTitle='] yields as title
    the bytes up to the next apostrophe, whatever follows it (a title that
    holds an apostrophe is cut there).  The title is stored, copied to the
    metadata of the HAL and logged when it has between 1 and 255 bytes and
    the radio mutex is obtained within 100 ms; an empty title, a title of
    256 bytes or more, or a timeout leave everything as it was. *)
Theorem parse_icy_metadata_title (e : Env) (w : World) (T rest : list Z)
    (len : Z) :
  Forall (fun b => b <> 0) T -> Forall (fun b => b <> 39) T ->
  let frame := bytes "StreamTitle='" ++ T ++ [39] ++ rest in
  exists w1,
    parse_icy_metadata e w frame len = Ok w1 /\
    (0 < Z.of_nat (length T) < 256 ->
     xSemaphoreTake (radio_holder e) (pdMS_TO_TICKS 100) = Some true ->
       streamTitle (s_radio w1) = T /\
       title (radioMetadata w1)
         = (if hal (s_radio w) then T else title (radioMetadata w)) /\
       log w1 = log w ++ [InfoNowPlaying T]) /\
    (T = [] \/ 256 <= Z.of_nat (length T) \/
     xSemaphoreTake (radio_holder e) (pdMS_TO_TICKS 100) = Some false ->
       w1 = w).
Proof.
  intros Hnul Hquote frame.
  assert (c_str frame
          = bytes "StreamTitle='" ++ T ++ 39 :: c_str rest) as Hc.
  { unfold frame. rewrite c_str_app.
    - f_equal. rewrite c_str_app by exact Hnul. reflexivity.
    - vm_compute. repeat constructor; discriminate. }
  unfold parse_icy_metadata. rewrite Hc, strstr_prefix.
  change (drop 13 (bytes "StreamTitle='" ++ T ++ 39 :: c_str rest))
    with (T ++ 39 :: c_str rest).
  rewrite (strchr_first T (c_str rest) 39 Hquote).
  assert (Z.of_nat (length (T ++ 39 :: c_str rest))
          - Z.of_nat (length (39 :: c_str rest)) = Z.of_nat (length T)) as ->.
  { rewrite length_app. lia. }
  rewrite Nat2Z.id, take_app_length.
  destruct (Z.ltb_spec 0 (Z.of_nat (length T))) as [Hpos | Hpos]; simpl.
  - destruct (Z.ltb_spec (Z.of_nat (length T)) 256) as [Hlt | Hge]; simpl.
    + destruct (take_bounded (radio_holder e) 100) as [Ht | Ht];
        rewrite Ht; simpl.
      * eexists. split; [reflexivity|]. split.
        -- intros _ _. destruct (hal (s_radio w)); simpl; auto.
        -- intros [-> | [H | H]]; [simpl in Hpos; lia|lia|discriminate].
      * exists w. split; [reflexivity|]. split; [|reflexivity].
        intros _ H. discriminate.
    + exists w. split; [reflexivity|]. split; [lia|reflexivity].
  - exists w. split; [reflexivity|]. split; [lia|reflexivity].
Qed.

Lemma parse_icy_metadata_title_witness :
  Forall (fun b => b <> 0) (bytes "Don") /\
  Forall (fun b => b <> 39) (bytes "Don") /\
  bytes "StreamTitle='Don't Stop';" ++ [0; 0]
  = bytes "StreamTitle='" ++ bytes "Don" ++ [39] ++ bytes "t Stop';" ++ [0; 0] /\
  exists w1,
    parse_icy_metadata env_free (live_world 100 0 rb_one_byte)
      (bytes "StreamTitle='" ++ bytes "Don" ++ [39] ++ bytes "t Stop';" ++ [0; 0])
      32 = Ok w1 /\
    streamTitle (s_radio w1) = bytes "Don" /\
    title (radioMetadata w1) = bytes "Don".
Proof.
  assert (Forall (fun b => b <> 0) (bytes "Don")) as H0
    by (repeat constructor; discriminate).
  assert (Forall (fun b => b <> 39) (bytes "Don")) as H1
    by (repeat constructor; discriminate).
  split; [exact H0|]. split; [exact H1|]. split; [reflexivity|].
  destruct (parse_icy_metadata_title env_free (live_world 100 0 rb_one_byte)
              (bytes "Don") (bytes "t Stop';" ++ [0; 0]) 32 H0 H1)
    as (w1 & E & Hok & _).
  exists w1. split; [exact E|].
  destruct (Hok ltac:(vm_compute; split; reflexivity) eq_refl) as (Ht & Hm & _).
  split; [exact Ht|exact Hm].
Defined.

(** ** The HTTP data handler without ICY metadata *)

Lemma on_data_raw (e : Env) (w : World) (rb : RingBuffer.t) (data : list Z) :
  xSemaphoreTake (rb_holder e) RingBuffer.lock_wait = Some true ->
  streaming 0 w rb ->
  let n := Z.min (Z.of_nat (length data)) (RingBuffer.free_space rb) in
  exists w' rb',
    http_event_handler e w (HTTP_EVENT_ON_DATA data) = Ok (w', ESP_OK) /\
    streaming 0 w' rb' /\
    RingBuffer.contents rb' = RingBuffer.contents rb ++ take (Z.to_nat n) data /\
    RingBuffer.free_space rb' = RingBuffer.free_space rb - n /\
    state (s_radio w') = state (s_radio w) /\
    streamTitle (s_radio w') = streamTitle (s_radio w).
Proof.
  intros Hlock (Hint & Hid & Hstop & Hrb & Hwf & Hbum) n.
  destruct (write_taken (rb_holder e) rb data Hwf Hlock)
    as (rb' & E & Hwf' & Hs' & _ & Ha' & Hc').
  fold n in E, Ha', Hc'.
  unfold http_event_handler. rewrite Hstop, Hid, Z.eqb_refl, Hint. simpl.
  unfold write_raw.
  rewrite Hrb, (rb_call_wf _ _ (RingBuffer.wf_mutex _ Hwf)), E.
  cbn [call rbind].
  set (w1 := if n <? Z.of_nat (length data) then _ else _).
  assert (s_radio w1 = with_ringBuffer (Some rb') (s_radio w)) as Hr1.
  { unfold w1. destruct (n <? _); [|reflexivity].
    destruct (1000 <? _); reflexivity. }
  destruct (update_buffer_percent_ok e Hlock w1 rb')
    as (w2 & E2 & (Hi2 & Hrb2 & Hm2 & Hb2 & Hst2 & Hsid2 & Hstate2) & Ht2 & _).
  { rewrite Hr1. reflexivity. }
  { apply Hwf'. }
  rewrite E2. cbn [rbind].
  assert (s_http_task_stream_id w1 = s_http_task_stream_id w) as Hi1.
  { unfold w1. destruct (n <? _); [|reflexivity].
    destruct (1000 <? _); reflexivity. }
  exists w2, rb'. split; [reflexivity|].
  rewrite Hr1 in *. cbn [with_ringBuffer ringBuffer icyMetaInt bytesUntilMeta
                         stopRequested streamId state streamTitle] in *.
  split.
  - unfold streaming. rewrite Hm2, Hi2, Hi1, Hsid2, Hst2, Hrb2, Hb2.
    repeat (split; try assumption); lia.
  - split; [exact Hc'|]. split; [unfold RingBuffer.free_space; lia|].
    split; [exact Hstate2|exact Ht2].
Qed.

Lemma take_prefix_fits (c r : list Z) (f : Z) :
  0 <= f ->
  let n := Z.min (Z.of_nat (length c)) f in
  take (Z.to_nat n) c ++ take (Z.to_nat (f - n)) r
  = take (Z.to_nat f) (c ++ r).
Proof.
  intros Hf n. rewrite take_app.
  destruct (Z.le_gt_cases (Z.of_nat (length c)) f) as [Hle | Hgt].
  - replace n with (Z.of_nat (length c)) by (unfold n; lia).
    rewrite Nat2Z.id, firstn_all, (take_ge c) by lia.
    do 2 f_equal. lia.
  - replace n with f by (unfold n; lia).
    replace (Z.to_nat (f - f)) with 0%nat by lia.
    replace (Z.to_nat f - length c)%nat with 0%nat by lia.
    reflexivity.
Qed.

(** X6.  On a stream without ICY metadata ([icyMetaInt = 0]) the handler
    queues the body as it comes: after any number of data events the ring
    buffer holds what it held followed by the longest prefix of the
    concatenated chunks that fits its free space.  The chunk boundaries do
    not matter, bytes beyond the free space are dropped, every event
    returns [ESP_OK], and the state and the title are left alone. *)
Theorem feed_raw_prefix (e : Env) (chunks : list (list Z)) :
  xSemaphoreTake (rb_holder e) RingBuffer.lock_wait = Some true ->
  forall (w : World) (rb : RingBuffer.t),
    streaming 0 w rb ->
    exists w' rb',
      feed e w chunks = Ok w' /\ streaming 0 w' rb' /\
      queued w' = queued w
                  ++ take (Z.to_nat (RingBuffer.free_space rb)) (concat chunks) /\
      state (s_radio w') = state (s_radio w) /\
      streamTitle (s_radio w') = streamTitle (s_radio w).
Proof.
  intros Hlock. induction chunks as [|c rest IH]; intros w rb Hs.
  - exists w, rb. split; [reflexivity|]. split; [exact Hs|].
    simpl. rewrite take_nil, app_nil_r. auto.
  - destruct (on_data_raw e w rb c Hlock Hs)
      as (w1 & rb1 & E1 & Hs1 & Hc1 & Hf1 & Hst1 & Ht1).
    destruct (IH w1 rb1 Hs1) as (w' & rb' & E' & Hs' & Hq' & Hst' & Ht').
    exists w', rb'. cbn [feed]. rewrite E1. cbn [rbind].
    split; [exact E'|]. split; [exact Hs'|].
    split; [|split; congruence].
    rewrite Hq'. unfold queued.
    destruct Hs as (_ & _ & _ & Hrb & Hwf & _).
    destruct Hs1 as (_ & _ & _ & Hrb1 & _).
    rewrite Hrb, Hrb1, Hc1, Hf1, <- app_assoc. f_equal.
    cbn [concat]. apply take_prefix_fits.
    destruct Hwf. unfold RingBuffer.free_space. lia.
Qed.

Lemma feed_raw_prefix_witness :
  streaming 0 (live_world 0 0 rb_one_byte) rb_one_byte /\
  exists w',
    feed env_free (live_world 0 0 rb_one_byte) [[1; 2]; [3; 4; 5]; [6]]
      = Ok w' /\
    queued w' = [7; 1; 2; 3].
Proof.
  assert (streaming 0 (live_world 0 0 rb_one_byte) rb_one_byte) as Hs.
  { unfold streaming. repeat (split; [reflexivity|]).
    split; [exact wf_rb_one_byte|cbn; lia]. }
  split; [exact Hs|].
  destruct (feed_raw_prefix env_free [[1; 2]; [3; 4; 5]; [6]] eq_refl
              (live_world 0 0 rb_one_byte) rb_one_byte Hs)
    as (w' & rb' & E & _ & Hq & _).
  exists w'. split; [exact E|exact Hq].
Defined.

(** ** Once stop is requested *)

Lemma stopped_step (e : Env) (s : System) (ev : sys_event) :
  stopRequested (s_radio (world s)) = true -> not_start ev ->
  (mutex (s_radio (world s)) = true -> radio_holder e <> NeverReleased) ->
  exists s',
    sys_step e s ev = Ok s' /\
    stopRequested (s_radio (world s')) = true /\
    ringBuffer (s_radio (world s')) = ringBuffer (s_radio (world s)) /\
    mutex (s_radio (world s')) = mutex (s_radio (world s)).
Proof.
  intros Hstop Hev Hm.
  destruct ev as [se url | se | t | t evt]; [destruct Hev| | |];
    cbn [sys_step].
  - destruct (stopRadioStream_ok e se (world s) Hm)
      as (w1 & E & _ & Hmx & _ & _ & _ & _ & _ & Hs1 & _ & _ & _ & Hrb & _).
    rewrite E. cbn [rbind]. eexists. split; [reflexivity|]. cbn [world].
    auto.
  - destruct (task_lookup t (http_tasks s)) as [[id|]|];
      try (exists s; auto; fail).
    cbn. eexists. split; [reflexivity|]. cbn. auto.
  - destruct (task_lookup t (http_tasks s)) as [[id|]|];
      try (exists s; auto; fail).
    destruct evt as [[v | v | v |] | data |].
    + cbn. eexists. split; [reflexivity|]. cbn. auto.
    + cbn [http_event_handler].
      destruct (take_bounded (radio_holder e) 100) as [Ht | Ht]; rewrite Ht;
        cbn; [destruct (hal (s_radio (world s)))|];
        (eexists; split; [reflexivity|]; cbn; auto).
    + cbn [http_event_handler].
      destruct (take_bounded (radio_holder e) 100) as [Ht | Ht]; rewrite Ht;
        cbn; [destruct (hal (s_radio (world s)))|];
        (eexists; split; [reflexivity|]; cbn; auto).
    + cbn. eexists. split; [reflexivity|]. cbn. auto.
    + rewrite (stale_static_rejected e (world s) data (or_introl Hstop)).
      cbn [rbind]. unfold http_stream_task_end. rewrite Hstop. cbn [rbind].
      eexists. split; [reflexivity|]. cbn. auto.
    + cbn. eexists. split; [reflexivity|]. cbn. auto.
Qed.

(** X7.  Once stop is requested nothing reaches the ring buffer until the
    next start: whatever the HTTP tasks do afterwards (begin, deliver
    headers, deliver data) and however often [stopRadioStream] is called,
    every step returns, [stopRequested] stays set and the ring buffer is
    left exactly as it was; a data event of any task ends that task's
    request. *)
Theorem stopped_system_keeps_queue (e : Env) (evs : list sys_event) :
  forall s : System,
    stopRequested (s_radio (world s)) = true ->
    Forall not_start evs ->
    (mutex (s_radio (world s)) = true -> radio_holder e <> NeverReleased) ->
    exists s',
      sys_run e s evs = Ok s' /\
      stopRequested (s_radio (world s')) = true /\
      ringBuffer (s_radio (world s')) = ringBuffer (s_radio (world s)) /\
      queued (world s') = queued (world s).
Proof.
  induction evs as [|ev evs IH]; intros s Hstop Hevs Hm.
  - exists s. unfold queued. auto.
  - inversion Hevs as [|? ? Hev Hevs']; subst.
    destruct (stopped_step e s ev Hstop Hev Hm)
      as (s1 & E1 & Hstop1 & Hrb1 & Hm1).
    destruct (IH s1 Hstop1 Hevs') as (s' & E' & Hstop' & Hrb' & _).
    { rewrite Hm1. exact Hm. }
    exists s'. cbn [sys_run]. rewrite E1. cbn [rbind].
    split; [exact E'|]. split; [exact Hstop'|].
    assert (ringBuffer (s_radio (world s')) = ringBuffer (s_radio (world s)))
      as Hrb by congruence.
    split; [exact Hrb|]. unfold queued. rewrite Hrb. reflexivity.
Qed.

Lemma stopped_system_keeps_queue_witness :
  Forall not_start
    [HttpEvent 1%nat (HTTP_EVENT_ON_HEADER (icy_metaint 0));
     HttpEvent 1%nat (HTTP_EVENT_ON_DATA [1; 2; 3]);
     CallStop (mkStopEnv true true)] /\
  exists s',
    sys_run env_free
      (mkSystem (set_radio (with_stopRequested true)
                   (live_world 100 100 rb_one_byte)) [(1%nat, Some 1)])
      [HttpEvent 1%nat (HTTP_EVENT_ON_HEADER (icy_metaint 0));
       HttpEvent 1%nat (HTTP_EVENT_ON_DATA [1; 2; 3]);
       CallStop (mkStopEnv true true)] = Ok s' /\
    queued (world s') = [7].
Proof.
  assert (Forall not_start
            [HttpEvent 1%nat (HTTP_EVENT_ON_HEADER (icy_metaint 0));
             HttpEvent 1%nat (HTTP_EVENT_ON_DATA [1; 2; 3]);
             CallStop (mkStopEnv true true)]) as Hev
    by (repeat constructor).
  split; [exact Hev|].
  destruct (stopped_system_keeps_queue env_free _
              (mkSystem (set_radio (with_stopRequested true)
                           (live_world 100 100 rb_one_byte)) [(1%nat, Some 1)])
              eq_refl Hev ltac:(discriminate))
    as (s' & E & _ & _ & Hq).
  exists s'. split; [exact E|exact Hq].
Defined.

Lemma task_lookup_remove (t : nat) (ts : list (nat * option Z)) :
  task_lookup t (task_remove t ts) = None.
Proof.
  unfold task_remove.
  induction ts as [|[t' id] ts IH]; [reflexivity|].
  cbn [filter list_filter]. unfold filter in IH |- *. cbn.
  destruct (Nat.eqb_spec t t') as [Heq | Hne]; cbn.
  - destruct (decide _) as [H|H]; [cbn in H; destruct H|]. exact IH.
  - destruct (decide _) as [H|H]; [|exfalso; apply H; exact I].
    cbn. destruct (Nat.eqb_spec t t'); [contradiction|]. exact IH.
Qed.

(** X8.  A data event that the handler refuses ends the HTTP task that
    delivered it, and the exit of that task acts on the shared state
    whichever session the task belongs to: the task leaves the system and
    [s_radio.httpTask] is cleared; when stop is requested the state is left
    alone, and otherwise (the task is one of an earlier session, refused
    because the static stream id differs from the live one) the state of
    the running session is set to [RADIO_ERROR].  The ring buffer is not
    touched. *)
Theorem refused_data_ends_task (e : Env) (s : System) (t : nat) (id : Z)
    (data : list Z) :
  task_lookup t (http_tasks s) = Some (Some id) ->
  radio_holder e <> NeverReleased ->
  stopRequested (s_radio (world s)) = true \/
  s_http_task_stream_id (world s) <> streamId (s_radio (world s)) ->
  exists s',
    sys_step e s (HttpEvent t (HTTP_EVENT_ON_DATA data)) = Ok s' /\
    task_lookup t (http_tasks s') = None /\
    httpTask (s_radio (world s')) = None /\
    state (s_radio (world s'))
    = (if stopRequested (s_radio (world s)) then state (s_radio (world s))
       else RADIO_ERROR) /\
    ringBuffer (s_radio (world s')) = ringBuffer (s_radio (world s)) /\
    streamId (s_radio (world s')) = streamId (s_radio (world s)).
Proof.
  intros Ht Hh Hrefused. cbn [sys_step]. rewrite Ht.
  rewrite (stale_static_rejected e (world s) data Hrefused). cbn [rbind].
  unfold http_stream_task_end.
  destruct (stopRequested (s_radio (world s))) eqn:Hstop; cbn [rbind].
  - eexists. split; [reflexivity|]. cbn.
    split; [apply task_lookup_remove|]. auto.
  - rewrite (take_forever _ Hh). cbn [call rbind].
    eexists. split; [reflexivity|]. cbn.
    split; [apply task_lookup_remove|]. auto.
Qed.

Lemma refused_data_ends_task_witness :
  exists s1 s2,
    sys_step env_free
      (mkSystem (live_world 100 100 rb_one_byte) [(1%nat, Some 1)])
      (CallStart (mkStartEnv (mkStopEnv true false) true None false
                             (Some 2%nat) (Some 12%nat)) (bytes "http://y"))
    = Ok s1 /\
    state (s_radio (world s1)) = RADIO_BUFFERING /\
    httpTask (s_radio (world s1)) = Some 2%nat /\
    sys_step env_free s1 (HttpEvent 1 (HTTP_EVENT_ON_DATA [1; 2; 3])) = Ok s2 /\
    state (s_radio (world s2)) = RADIO_ERROR /\
    httpTask (s_radio (world s2)) = None.
Proof.
  destruct (sys_step env_free
              (mkSystem (live_world 100 100 rb_one_byte) [(1%nat, Some 1)])
              (CallStart (mkStartEnv (mkStopEnv true false) true None false
                                     (Some 2%nat) (Some 12%nat))
                         (bytes "http://y")))
    as [s1| | |] eqn:E1; try (vm_compute in E1; discriminate).
  assert (task_lookup 1 (http_tasks s1) = Some (Some 1) /\
          stopRequested (s_radio (world s1)) = false /\
          s_http_task_stream_id (world s1) = 1 /\
          streamId (s_radio (world s1)) = 2 /\
          state (s_radio (world s1)) = RADIO_BUFFERING /\
          httpTask (s_radio (world s1)) = Some 2%nat)
    as (Ht & Hstop & Hsid & Hid & Hst & Hht).
  { vm_compute in E1. injection E1 as <-. cbn. auto 10. }
  destruct (refused_data_ends_task env_free s1 1 1 [1; 2; 3] Ht
              ltac:(discriminate)
              ltac:(right; rewrite Hsid, Hid; discriminate))
    as (s2 & E2 & _ & Hh2 & Hst2 & _).
  rewrite Hstop in Hst2.
  exists s1, s2. auto 10.
Defined.

(** ** The controller *)

Lemma reset_returns h rb :
  h <> NeverReleased -> RingBuffer.mutex rb = true ->
  RingBuffer.reset h rb
  = Some (RingBuffer.mk (RingBuffer.buffer rb) (RingBuffer.size rb) 0 0 0 true).
Proof.
  intros Hh Hmx. unfold RingBuffer.reset.
  rewrite (take_mutex_wf _ _ _ Hmx), (take_forever h Hh), Hmx. reflexivity.
Qed.

(** With the ring buffer ready, "Initialize ring buffer" leaves a buffer
    that has its mutex and touches nothing else. *)
Lemma init_ring_buffer_ready se w :
  ring_ready se w ->
  exists w2 rb,
    init_ring_buffer se w = (w2, true) /\
    ringBuffer (s_radio w2) = Some rb /\ RingBuffer.mutex rb = true /\
    forall x, set_radio (with_ringBuffer x) w2 = set_radio (with_ringBuffer x) w.
Proof.
  unfold ring_ready, init_ring_buffer.
  destruct (ringBuffer (s_radio w)) as [rb|] eqn:Hrb.
  - intros Hmx. exists w, rb. auto.
  - intros [[mem Hmem] Hc]. rewrite Hmem, Hc. cbn.
    eexists. eexists. split; [reflexivity|]. split; [reflexivity|].
    split; [reflexivity|]. intros x. reflexivity.
Qed.

(** On a ring buffer whose mutex could not be created, a start is a
    fault: it calls [reset], which takes the mutex. *)
Lemma start_without_ring_mutex e se w url rb :
  radio_holder e <> NeverReleased -> mutex (s_radio w) = true ->
  ringBuffer (s_radio w) = Some rb -> RingBuffer.mutex rb = false ->
  startRadioStream e se w url = Fault.
Proof.
  intros Hh Hm Hrb Hmx.
  destruct (stopRadioStream_ok e (stop_env se)
              (add_log (InfoMsg "Starting radio stream") w) (fun _ => Hh))
    as (w1 & E1 & _ & Hm1 & _ & _ & _ & _ & _ & _ & _ & _ & _ & Hrb1 & _).
  cbn [add_log s_radio] in Hm1, Hrb1.
  unfold startRadioStream. rewrite E1. cbn [rbind].
  rewrite Hm1, Hm. cbn [negb andb]. cbv zeta.
  unfold init_ring_buffer. cbn [set_radio s_radio ringBuffer].
  rewrite Hrb1, Hrb. cbn [negb set_radio s_radio ringBuffer].
  rewrite Hrb1, Hrb. unfold rb_call. rewrite Hmx. reflexivity.
Qed.

(** X9.  A start in which the allocations and the two task creations
    succeed returns [true] and opens a fresh session, whatever ran before
    on a ring buffer that has its mutex: the state is [RADIO_BUFFERING]
    (and [getRadioState] says so whether or not it gets the lock), the
    stream id is the previous one plus one, the URL is stored,
    [stopRequested] is clear, the ICY counters, the title, the station and
    the buffer percentage are cleared, the spectrum is all zero, the ring
    buffer is empty and both task handles are set. *)
Theorem startRadioStream_success (e : Env) (se : StartEnv) (w : World)
    (url : list Z) (ht at_ : nat) :
  radio_holder e <> NeverReleased -> rb_holder e <> NeverReleased ->
  (mutex (s_radio w) = false -> mutex_created se = true) ->
  ring_ready se w ->
  http_created se = Some ht -> audio_created se = Some at_ ->
  exists w' rb',
    startRadioStream e se w url = Ok (w', true) /\
    state (s_radio w') = RADIO_BUFFERING /\
    _radio_state w' = RADIO_BUFFERING /\
    (forall e', getRadioState e' w' = Ok RADIO_BUFFERING) /\
    currentUrl (s_radio w') = url /\
    streamId (s_radio w') = size_wrap (streamId (s_radio w) + 1) /\
    stopRequested (s_radio w') = false /\
    icyMetaInt (s_radio w') = 0 /\ bytesUntilMeta (s_radio w') = 0 /\
    streamTitle (s_radio w') = [] /\
    radioMetadata w' = mkMeta [] [] (bitrate (radioMetadata w)) 0 /\
    spectrum (s_radio w') = repeat 0 (Z.to_nat SPECTRUM_BANDS) /\
    ringBuffer (s_radio w') = Some rb' /\
    RingBuffer.contents rb' = [] /\
    RingBuffer.dataAvailable rb' = 0 /\
    RingBuffer.mutex rb' = true /\
    httpTask (s_radio w') = Some ht /\ audioTask (s_radio w') = Some at_.
Proof.
  intros Hradio Hrbh Hmx Hready Hht Hat.
  destruct (stopRadioStream_ok e (stop_env se)
              (add_log (InfoMsg "Starting radio stream") w)
              (fun _ => Hradio))
    as (w1 & E1 & _ & Hm1 & _ & Hhs1 & Hmeta1 & _ & _ & _ & _ & _ & _
        & Hrb1 & Hid1).
  cbn [add_log s_radio radioMetadata] in Hm1, Hmeta1, Hrb1, Hid1.
  unfold startRadioStream. rewrite E1. cbn [rbind].
  assert (negb (mutex (s_radio w1)) && negb (mutex_created se) = false) as ->.
  { rewrite Hm1. destruct (mutex (s_radio w)) eqn:Hm; [reflexivity|].
    rewrite (Hmx eq_refl). reflexivity. }
  cbv zeta. set (wm := set_radio _ w1).
  destruct (init_ring_buffer_ready se wm) as (w2 & rb & Ei & Hrb2 & Hmx2 & Hsame).
  { unfold ring_ready in *. unfold wm. cbn [set_radio s_radio ringBuffer].
    rewrite Hrb1. exact Hready. }
  rewrite Ei. cbn [negb]. rewrite Hrb2.
  rewrite (rb_call_wf _ _ Hmx2), (reset_returns _ rb Hrbh Hmx2).
  cbn [call rbind]. rewrite Hsame. unfold wm.
  rewrite (take_forever _ Hradio). cbn [call rbind].
  rewrite Hht, Hat.
  eexists. eexists. split; [reflexivity|].
  cbn. rewrite Hid1, Hmeta1. cbn.
  repeat (split; [reflexivity|]).
  split; [|repeat (split; [reflexivity|]); reflexivity].
  intros e'. destruct (take_bounded (radio_holder e') 100) as [-> | ->];
    reflexivity.
Qed.

Lemma startRadioStream_success_witness :
  radio_holder env_free <> NeverReleased /\
  rb_holder env_free <> NeverReleased /\
  ring_ready
    (mkStartEnv (mkStopEnv true false) false None false
                (Some 2%nat) (Some 12%nat))
    (live_world 100 40 rb_one_byte) /\
  exists w' rb',
    startRadioStream env_free
      (mkStartEnv (mkStopEnv true false) false None false
                  (Some 2%nat) (Some 12%nat))
      (live_world 100 40 rb_one_byte) (bytes "http://y") = Ok (w', true) /\
    streamId (s_radio w') = 2 /\
    ringBuffer (s_radio w') = Some rb' /\
    RingBuffer.contents rb' = [].
Proof.
  assert (Free <> NeverReleased) as H by discriminate.
  split; [exact H|]. split; [exact H|]. split; [reflexivity|].
  destruct (startRadioStream_success env_free
              (mkStartEnv (mkStopEnv true false) false None false
                          (Some 2%nat) (Some 12%nat))
              (live_world 100 40 rb_one_byte) (bytes "http://y") 2 12 H H
              ltac:(discriminate) eq_refl eq_refl eq_refl)
    as (w' & rb' & E & _ & _ & _ & _ & Hid & _ & _ & _ & _ & _ & _ & Hrb
        & Hc & _).
  exists w', rb'. split; [exact E|]. split; [exact Hid|].
  split; [exact Hrb|exact Hc].
Defined.

(** X10.  When the radio mutex cannot be created, or the ring buffer has
    to be initialised and its memory or its mutex cannot be allocated,
    [startRadioStream] returns [false] after the stop it begins with: no
    task handle is set, [stopRequested] is set, the stream id is
    untouched, the HAL state is [RADIO_STOPPED], and [getRadioState]
    reports [RADIO_STOPPED] if the radio was stopped or had its mutex
    before the call.  The ring buffer is untouched when the radio mutex or
    the memory is what failed.  When the memory is there and the mutex of
    the buffer is not, [init] has set [buffer] and [size] before it
    returns [false]: the buffer stays allocated without a mutex, the next
    start finds [buffer] set, skips [init] and calls [reset], which takes
    the null mutex. *)
Theorem startRadioStream_alloc_failure (e : Env) (se : StartEnv) (w : World)
    (url : list Z) :
  (mutex (s_radio w) = true -> radio_holder e <> NeverReleased) ->
  (mutex (s_radio w) = false /\ mutex_created se = false) \/
  (ringBuffer (s_radio w) = None /\
   (ring_memory se = None \/ ring_mutex_created se = false)) ->
  exists w',
    startRadioStream e se w url = Ok (w', false) /\
    _radio_state w' = RADIO_STOPPED /\
    (mutex (s_radio w) = true \/ state (s_radio w) = RADIO_STOPPED ->
       forall e', getRadioState e' w' = Ok RADIO_STOPPED) /\
    httpTask (s_radio w') = None /\ audioTask (s_radio w') = None /\
    stopRequested (s_radio w') = true /\
    streamId (s_radio w') = streamId (s_radio w) /\
    ((mutex (s_radio w) = false /\ mutex_created se = false) \/
     ring_memory se = None ->
       ringBuffer (s_radio w') = ringBuffer (s_radio w)) /\
    (forall mem : list Z,
        mutex (s_radio w) = true \/ mutex_created se = true ->
        ring_memory se = Some mem ->
        ringBuffer (s_radio w')
        = Some (RingBuffer.mk mem RING_BUFFER_SIZE 0 0 0 false) /\
        forall (e' : Env) (se' : StartEnv) (url' : list Z),
          radio_holder e' <> NeverReleased ->
          startRadioStream e' se' w' url' = Fault).
Proof.
  intros Hradio Hfail.
  destruct (stopRadioStream_ok e (stop_env se)
              (add_log (InfoMsg "Starting radio stream") w) Hradio)
    as (w1 & E1 & Hst1 & Hm1 & Hst1' & Hhs1 & _ & Hh1 & Ha1 & Hs1 & _ & _ & _
        & Hrb1 & Hid1).
  cbn [add_log s_radio] in Hm1, Hst1', Hrb1, Hid1.
  unfold startRadioStream at 1. rewrite E1. cbn [rbind].
  destruct (negb (mutex (s_radio w1)) && negb (mutex_created se)) eqn:Hc.
  - (* the radio mutex cannot be created *)
    rewrite Hm1 in Hc. apply andb_true_iff in Hc as [Hc1 Hc2].
    apply negb_true_iff in Hc1, Hc2.
    eexists. split; [reflexivity|].
    split; [exact Hhs1|].
    split.
    { intros _ e'. unfold getRadioState. cbn. rewrite Hm1, Hc1. reflexivity. }
    do 4 (split; [cbn; congruence|]).
    split; [intros _; exact Hrb1|].
    intros mem [Hm | Hm]; congruence.
  - (* the ring buffer cannot be initialised *)
    rewrite Hm1 in Hc.
    destruct Hfail as [[Hf1 Hf2] | [Hnone Hinit]];
      [rewrite Hf1, Hf2 in Hc; discriminate|].
    cbv zeta. unfold init_ring_buffer. cbn [set_radio s_radio ringBuffer].
    rewrite Hrb1, Hnone. unfold RingBuffer.init.
    assert (mutex (s_radio w) = true \/ state (s_radio w) = RADIO_STOPPED ->
            state (s_radio w1) = RADIO_STOPPED) as Hget.
    { intros Hor. destruct (mutex (s_radio w)) eqn:Hm.
      - apply Hst1. congruence.
      - rewrite (Hst1' eq_refl). destruct Hor; congruence. }
    destruct (ring_memory se) as [mem|] eqn:Hmem.
    + assert (ring_mutex_created se = false) as Hmc
        by (destruct Hinit; congruence).
      rewrite Hmc. cbn [negb].
      eexists. split; [reflexivity|].
      split; [exact Hhs1|].
      split.
      { intros Hor e'. unfold getRadioState. cbn.
        rewrite (Hget Hor), Hhs1.
        destruct (take_bounded (radio_holder e') 100) as [-> | ->];
          reflexivity. }
      do 4 (split; [cbn; congruence|]).
      split.
      { intros [[Hx Hy] | ?]; [|discriminate].
        rewrite Hx, Hy in Hc. discriminate. }
      intros mem' _ Hmem'. injection Hmem' as <-.
      split; [reflexivity|].
      intros e' se' url' He'.
      apply (start_without_ring_mutex e' se' _ url'
               (RingBuffer.mk mem RING_BUFFER_SIZE 0 0 0 false) He');
        reflexivity.
    + cbn [negb].
      eexists. split; [reflexivity|].
      split; [exact Hhs1|].
      split.
      { intros Hor e'. unfold getRadioState. cbn.
        rewrite (Hget Hor), Hhs1.
        destruct (take_bounded (radio_holder e') 100) as [-> | ->];
          reflexivity. }
      do 4 (split; [cbn; congruence|]).
      split; [intros _; reflexivity|].
      intros mem' _ Hmem'. discriminate.
Qed.

Lemma startRadioStream_alloc_failure_witness :
  exists w',
    startRadioStream env_free
      (mkStartEnv (mkStopEnv true true) true (Some [0; 0; 0; 0]) false
                  (Some 1%nat) (Some 11%nat))
      (initial_world meta_empty) (bytes "http://x") = Ok (w', false) /\
    _radio_state w' = RADIO_STOPPED /\
    (forall e', getRadioState e' w' = Ok RADIO_STOPPED) /\
    ringBuffer (s_radio w')
    = Some (RingBuffer.mk [0; 0; 0; 0] RING_BUFFER_SIZE 0 0 0 false) /\
    startRadioStream env_free (start_ok (mkStopEnv true true) 1 11) w'
      (bytes "http://x") = Fault.
Proof.
  destruct (startRadioStream_alloc_failure env_free
              (mkStartEnv (mkStopEnv true true) true (Some [0; 0; 0; 0]) false
                          (Some 1%nat) (Some 11%nat))
              (initial_world meta_empty) (bytes "http://x")
              ltac:(discriminate)
              (or_intror (conj eq_refl (or_intror eq_refl))))
    as (w' & E & Hh & Hget & _ & _ & _ & _ & _ & Hbuf).
  destruct (Hbuf [0; 0; 0; 0] (or_intror eq_refl) eq_refl) as [Hb Hf].
  exists w'. split; [exact E|]. split; [exact Hh|].
  split; [exact (Hget (or_intror eq_refl))|].
  split; [exact Hb|]. apply Hf. discriminate.
Defined.

(** What a start leaves behind when a task cannot be created. *)
Lemma start_task_failure (e : Env) (se : StartEnv) (w : World)
    (url : list Z) :
  radio_holder e <> NeverReleased -> rb_holder e <> NeverReleased ->
  (mutex (s_radio w) = false -> mutex_created se = true) ->
  ring_ready se w ->
  http_created se = None \/ audio_created se = None ->
  exists w',
    startRadioStream e se w url = Ok (w', false) /\
    _radio_state w' = RADIO_ERROR /\
    state (s_radio w') = RADIO_BUFFERING /\
    (forall e',
        getRadioState e' w'
        = Ok (if default false
                   (xSemaphoreTake (radio_holder e') (pdMS_TO_TICKS 100))
              then RADIO_BUFFERING else RADIO_ERROR)) /\
    streamId (s_radio w') = size_wrap (streamId (s_radio w) + 1) /\
    httpTask (s_radio w') = http_created se /\
    audioTask (s_radio w') = None /\
    stopRequested (s_radio w')
    = match http_created se with Some _ => true | None => false end.
Proof.
  intros Hradio Hrbh Hmx Hready Hfail.
  destruct (stopRadioStream_ok e (stop_env se)
              (add_log (InfoMsg "Starting radio stream") w)
              (fun _ => Hradio))
    as (w1 & E1 & _ & Hm1 & _ & Hhs1 & Hmeta1 & Hh1 & Ha1 & _ & _ & _ & _
        & Hrb1 & Hid1).
  cbn [add_log s_radio radioMetadata] in Hm1, Hmeta1, Hrb1, Hid1.
  unfold startRadioStream. rewrite E1. cbn [rbind].
  assert (negb (mutex (s_radio w1)) && negb (mutex_created se) = false) as ->.
  { rewrite Hm1. destruct (mutex (s_radio w)) eqn:Hm; [reflexivity|].
    rewrite (Hmx eq_refl). reflexivity. }
  cbv zeta. set (wm := set_radio _ w1).
  destruct (init_ring_buffer_ready se wm) as (w2 & rb & Ei & Hrb2 & Hmx2 & Hsame).
  { unfold ring_ready in *. unfold wm. cbn [set_radio s_radio ringBuffer].
    rewrite Hrb1. exact Hready. }
  rewrite Ei. cbn [negb]. rewrite Hrb2.
  rewrite (rb_call_wf _ _ Hmx2), (reset_returns _ rb Hrbh Hmx2).
  cbn [call rbind]. rewrite Hsame. unfold wm.
  rewrite (take_forever _ Hradio). cbn [call rbind].
  destruct (http_created se) as [ht|] eqn:Hht.
  - destruct Hfail as [? | Hat]; [discriminate|]. rewrite Hat.
    eexists. split; [reflexivity|]. cbn.
    split; [reflexivity|]. split; [reflexivity|].
    split; [intros e'; destruct (take_bounded (radio_holder e') 100)
                        as [-> | ->]; reflexivity|].
    rewrite Hid1, Ha1. auto.
  - eexists. split; [reflexivity|]. cbn.
    split; [reflexivity|]. split; [reflexivity|].
    split; [intros e'; destruct (take_bounded (radio_holder e') 100)
                        as [-> | ->]; reflexivity|].
    rewrite Hid1, Ha1, Hh1. auto.
Qed.

(** X11.  When one of the two tasks cannot be created, [startRadioStream]
    returns [false] with the session half open: the HAL member
    [_radio_state] is [RADIO_ERROR] but [s_radio.state] stays
    [RADIO_BUFFERING], so [getRadioState] reports [RADIO_BUFFERING]
    whenever it obtains the radio mutex and [RADIO_ERROR] only when its
    wait times out.  If the HTTP task is the one that failed, no handle is
    set and [stopRequested] is clear; if the audio task failed, the HTTP
    task keeps its handle and [stopRequested] is set. *)
Theorem startRadioStream_task_failure (e : Env) (se : StartEnv) (w : World)
    (url : list Z) :
  radio_holder e <> NeverReleased -> rb_holder e <> NeverReleased ->
  (mutex (s_radio w) = false -> mutex_created se = true) ->
  ring_ready se w ->
  http_created se = None \/ audio_created se = None ->
  exists w',
    startRadioStream e se w url = Ok (w', false) /\
    _radio_state w' = RADIO_ERROR /\
    state (s_radio w') = RADIO_BUFFERING /\
    (forall e',
        getRadioState e' w'
        = Ok (if default false
                   (xSemaphoreTake (radio_holder e') (pdMS_TO_TICKS 100))
              then RADIO_BUFFERING else RADIO_ERROR)) /\
    streamId (s_radio w') = size_wrap (streamId (s_radio w) + 1) /\
    httpTask (s_radio w') = http_created se /\
    audioTask (s_radio w') = None /\
    stopRequested (s_radio w')
    = match http_created se with Some _ => true | None => false end.
Proof. exact (start_task_failure e se w url). Qed.

Lemma startRadioStream_task_failure_witness :
  exists w',
    startRadioStream env_free
      (mkStartEnv (mkStopEnv true true) true (Some [0; 0; 0; 0]) true None
                  (Some 11%nat))
      (initial_world meta_empty) (bytes "http://x") = Ok (w', false) /\
    _radio_state w' = RADIO_ERROR /\
    getRadioState env_free w' = Ok RADIO_BUFFERING /\
    getRadioState (mkEnv Free NeverReleased 0) w' = Ok RADIO_ERROR.
Proof.
  destruct (startRadioStream_task_failure env_free
              (mkStartEnv (mkStopEnv true true) true (Some [0; 0; 0; 0]) true
                          None (Some 11%nat))
              (initial_world meta_empty) (bytes "http://x")
              ltac:(discriminate) ltac:(discriminate) (fun _ => eq_refl)
              (conj (ex_intro _ _ eq_refl) eq_refl) (or_introl eq_refl))
    as (w' & E & Hh & _ & Hget & _).
  exists w'. split; [exact E|]. split; [exact Hh|].
  split; [exact (Hget env_free)|exact (Hget (mkEnv Free NeverReleased 0))].
Defined.

(** ** The byte source of the decoder *)





Lemma store_fits (buf : list Z) (off : Z) (data : list Z) :
  0 <= off -> off + Z.of_nat (length data) <= Z.of_nat (length buf) ->
  store buf off data
  = Some (take (Z.to_nat off) buf ++ data
          ++ drop (Z.to_nat off + length data) buf).
Proof.
  intros Ho H. unfold store.
  destruct (Z.leb_spec (off + Z.of_nat (length data)) (Z.of_nat (length buf)));
    [reflexivity|lia].
Qed.







Lemma header_replay_read_spec (a : AudioStatics) (hb : list Z) (size : Z) :
  s_header_buffer a = Some hb -> s_header_replay_mode a = true ->
  0 <= s_header_read_pos a < s_header_bytes_saved a ->
  s_header_bytes_saved a <= Z.of_nat (length hb) ->
  s_header_bytes_saved a < SIZE_WIDTH ->
  0 <= size ->
  let n := Z.min size (s_header_bytes_saved a - s_header_read_pos a) in
  replaying a = true /\
  (if size <? size_wrap (s_header_bytes_saved a - s_header_read_pos a)
   then size else size_wrap (s_header_bytes_saved a - s_header_read_pos a)) = n /\
  header_replay_read a size
  = (mkAudio (s_audio_ring_buffer a)
             (size_wrap (s_stream_position a + n)) (Some hb)
             (s_header_bytes_saved a) (s_header_read_pos a + n)
             (s_header_read_pos a + n <? s_header_bytes_saved a) true,
     take (Z.to_nat n) (drop (Z.to_nat (s_header_read_pos a)) hb)) /\
  Z.of_nat (length (take (Z.to_nat n)
                      (drop (Z.to_nat (s_header_read_pos a)) hb))) = n.
Proof.
  intros Hhb Hmode Hpos Hlen Hsaved Hsize n.
  assert (size_wrap (s_header_bytes_saved a - s_header_read_pos a)
          = s_header_bytes_saved a - s_header_read_pos a) as Hw
    by (apply size_wrap_small; unfold SIZE_WIDTH in *; lia).
  assert ((if size <? size_wrap (s_header_bytes_saved a - s_header_read_pos a)
           then size
           else size_wrap (s_header_bytes_saved a - s_header_read_pos a)) = n)
    as Hn.
  { rewrite Hw. unfold n.
    destruct (Z.ltb_spec size (s_header_bytes_saved a - s_header_read_pos a));
      lia. }
  split.
  { unfold replaying. rewrite Hhb, Hmode.
    destruct (Z.ltb_spec (s_header_read_pos a) (s_header_bytes_saved a));
      [reflexivity|lia]. }
  split; [exact Hn|]. split.
  - unfold header_replay_read. rewrite Hhb, Hmode.
    destruct (Z.ltb_spec (s_header_read_pos a) (s_header_bytes_saved a));
      [|lia].
    cbn [andb]. rewrite Hn.
    rewrite (size_wrap_small (s_header_read_pos a + n))
      by (unfold SIZE_WIDTH in *; lia).
    f_equal. f_equal.
    destruct (Z.leb_spec (s_header_bytes_saved a) (s_header_read_pos a + n));
      destruct (Z.ltb_spec (s_header_read_pos a + n) (s_header_bytes_saved a));
      try lia; try reflexivity; try exact Hmode.
  - rewrite length_take, length_drop. lia.
Qed.

(** The replay branch when it has bytes left. *)
Lemma read_replay_part_on (s : Source) (hb buf : list Z) (size : Z) :
  let a := audio (src_world s) in
  s_header_buffer a = Some hb -> s_header_replay_mode a = true ->
  0 <= s_header_read_pos a < s_header_bytes_saved a ->
  s_header_bytes_saved a <= Z.of_nat (length hb) ->
  s_header_bytes_saved a < SIZE_WIDTH ->
  0 <= size ->
  let n := Z.min size (s_header_bytes_saved a - s_header_read_pos a) in
  n <= Z.of_nat (length buf) -> 4 <= Z.of_nat (length buf) ->
  exists s2,
    read_replay_part s buf size
    = Ok (s2, take (Z.to_nat n) (drop (Z.to_nat (s_header_read_pos a)) hb)
              ++ drop (Z.to_nat n) buf, n, true) /\
    src_world s2
    = set_audio
        (fun _ => mkAudio (s_audio_ring_buffer a)
                    (size_wrap (s_stream_position a + n)) (Some hb)
                    (s_header_bytes_saved a) (s_header_read_pos a + n)
                    (s_header_read_pos a + n <? s_header_bytes_saved a) true)
        (src_world s).
Proof.
  intros a Hhb Hmode Hpos Hlen Hsaved Hsize n Hbuf Hbuf4.
  destruct (header_replay_read_spec a hb size Hhb Hmode Hpos Hlen Hsaved
              Hsize) as (Hrep & Hn & Hread & Hout).
  fold n in Hn, Hread, Hout.
  unfold read_replay_part. fold a. rewrite Hrep. cbn zeta.
  rewrite Hn, Hread.
  set (out := take (Z.to_nat n) (drop (Z.to_nat (s_header_read_pos a)) hb))
    in *.
  rewrite Hout, Z.eqb_refl. cbn [negb].
  rewrite store_fits by lia.
  change (Z.to_nat 0) with 0%nat. rewrite take_0. cbn [app Nat.add].
  replace (length out) with (Z.to_nat n) by lia.
  assert (Z.of_nat (length (out ++ drop (Z.to_nat n) buf))
          = Z.of_nat (length buf)) as Hlen1.
  { rewrite length_app, length_drop. lia. }
  rewrite Hlen1.
  destruct (Z.ltb_spec (Z.of_nat (length buf)) 4) as [|_]; [lia|].
  destruct (s_first_header_read_logged a); cbn [rbind];
    cbn [s_header_read_pos];
    (eexists; split; [reflexivity|]);
    destruct (s_header_bytes_saved a <=? s_header_read_pos a + n);
    reflexivity.
Qed.

(** A request that the header replay satisfies. *)
Lemma read_replay_served (re : ReadEnv) (s : Source) (hb buf : list Z)
    (size : Z) :
  let a := audio (src_world s) in
  s_audio_ring_buffer a = true ->
  stopRequested (s_radio (src_world s)) = false ->
  s_header_buffer a = Some hb -> s_header_replay_mode a = true ->
  0 <= s_header_read_pos a ->
  s_header_bytes_saved a <= Z.of_nat (length hb) ->
  s_header_bytes_saved a < SIZE_WIDTH ->
  0 < size <= s_header_bytes_saved a - s_header_read_pos a ->
  size <= Z.of_nat (length buf) -> 4 <= Z.of_nat (length buf) ->
  exists s',
    ringbuffer_read re s buf size
    = Ok (s', take (Z.to_nat size) (drop (Z.to_nat (s_header_read_pos a)) hb)
              ++ drop (Z.to_nat size) buf, size) /\
    s_radio (src_world s') = s_radio (src_world s) /\
    s_header_read_pos (audio (src_world s')) = s_header_read_pos a + size /\
    s_stream_position (audio (src_world s'))
    = size_wrap (s_stream_position a + size) /\
    s_header_replay_mode (audio (src_world s'))
    = (s_header_read_pos a + size <? s_header_bytes_saved a) /\
    s_header_buffer (audio (src_world s')) = Some hb /\
    s_header_bytes_saved (audio (src_world s')) = s_header_bytes_saved a /\
    s_audio_ring_buffer (audio (src_world s')) = true.
Proof.
  intros a Hptr Hstop Hhb Hmode Hpos Hlen Hsaved Hsize Hbuf Hbuf4.
  destruct (read_replay_part_on s hb buf size Hhb Hmode ltac:(fold a; lia)
              Hlen Hsaved ltac:(lia)) as (s2 & E & Hw2);
    fold a; try lia.
  fold a in E, Hw2.
  replace (Z.min size (s_header_bytes_saved a - s_header_read_pos a))
    with size in * by lia.
  unfold ringbuffer_read. fold a. rewrite Hptr, Hstop. cbn [negb orb].
  rewrite E. cbn [rbind]. rewrite Z.leb_refl.
  exists s2. split; [reflexivity|]. rewrite Hw2. cbn.
  repeat (split; [reflexivity|]). exact Hptr.
Qed.


Lemma seek_unsupported (s : Source) (offset whence : Z) :
  offset <> 0 \/ (whence <> SEEK_SET /\ whence <> SEEK_CUR) ->
  ringbuffer_seek s offset whence = (s, offset, -1).
Proof.
  intros H. unfold ringbuffer_seek.
  destruct (Z.eqb_spec offset 0) as [Ho|Ho];
    destruct (Z.eqb_spec whence SEEK_SET);
    destruct (Z.eqb_spec whence SEEK_CUR);
    destruct (Z.eqb_spec whence SEEK_END);
    cbn [andb]; try reflexivity; exfalso; tauto.
Qed.

(** X14.  The seek contract of the byte source.  Seeking to offset 0 from
    the start succeeds at any time once header bytes are saved, and the
    next read replays the saved window from its first byte: a request of
    up to the saved count returns exactly the first bytes of the window,
    and a following seek by 0 from the current position reports that many
    bytes as the position, without changing anything.  Every other seek
    (a non-zero offset, or an origin other than start or current) returns
    -1 and changes nothing. *)
Theorem seek_rewind_replays :
  (forall (re : ReadEnv) (s : Source) (hb buf : list Z) (size : Z),
      let a := audio (src_world s) in
      s_audio_ring_buffer a = true ->
      stopRequested (s_radio (src_world s)) = false ->
      s_header_buffer a = Some hb ->
      0 < s_header_bytes_saved a <= Z.of_nat (length hb) ->
      s_header_bytes_saved a < 2 ^ 31 ->
      0 < size <= s_header_bytes_saved a ->
      size <= Z.of_nat (length buf) -> 4 <= Z.of_nat (length buf) ->
      exists s1 s2,
        ringbuffer_seek s 0 SEEK_SET = (s1, 0, 0) /\
        ringbuffer_read re s1 buf size
        = Ok (s2, take (Z.to_nat size) (sync_window a)
                  ++ drop (Z.to_nat size) buf, size) /\
        ringbuffer_seek s2 0 SEEK_CUR = (s2, size, 0) /\
        s_radio (src_world s2) = s_radio (src_world s))
  /\
  (forall (s : Source) (offset whence : Z),
      offset <> 0 \/ (whence <> SEEK_SET /\ whence <> SEEK_CUR) ->
      ringbuffer_seek s offset whence = (s, offset, -1)).
Proof.
  split; [|exact seek_unsupported].
  intros re s hb buf size a Hptr Hstop Hhb Hsaved Hsmall Hsize Hbuf Hbuf4.
  unfold ringbuffer_seek at 1. fold a. rewrite Hhb.
  change ((SEEK_SET =? SEEK_SET) && (0 =? 0)) with true. cbn iota.
  destruct (Z.ltb_spec 0 (s_header_bytes_saved a)) as [_|]; [|lia].
  set (s1 := src_add_log _ _).
  assert (audio (src_world s1)
          = mkAudio (s_audio_ring_buffer a) 0 (Some hb)
                    (s_header_bytes_saved a) 0 true
                    (s_first_header_read_logged a)) as Ha1 by reflexivity.
  assert (s_radio (src_world s1) = s_radio (src_world s)) as Hr1
    by reflexivity.
  destruct (read_replay_served re s1 hb buf size)
    as (s2 & E & Hr & _ & Hp & _);
    rewrite ?Ha1, ?Hr1;
    cbn [s_audio_ring_buffer s_header_buffer s_header_replay_mode
         s_header_read_pos s_header_bytes_saved s_stream_position];
    try assumption; try reflexivity; try lia.
  { unfold SIZE_WIDTH. lia. }
  rewrite Ha1 in E, Hp. rewrite Hr1 in Hr.
  cbn [s_header_read_pos s_stream_position] in E, Hp.
  exists s1, s2. split; [reflexivity|]. split.
  - rewrite E. unfold sync_window. rewrite Hhb, take_take.
    change (Z.to_nat 0) with 0%nat. rewrite drop_0.
    replace (Z.to_nat size `min` Z.to_nat (s_header_bytes_saved a))%nat
      with (Z.to_nat size) by lia.
    reflexivity.
  - split; [|exact Hr].
    unfold ringbuffer_seek.
    change ((SEEK_CUR =? SEEK_SET) && (0 =? 0)) with false.
    change ((SEEK_CUR =? SEEK_CUR) && (0 =? 0)) with true. cbn iota.
    rewrite Hp. f_equal. f_equal.
    rewrite size_wrap_small by (unfold SIZE_WIDTH; lia).
    unfold off_t_of. change (0 + size) with size.
    rewrite Z.mod_small by lia. lia.
Qed.









(** X17.  After [stopRadioStream] the byte source is closed: whatever the
    tasks were doing, every later read returns -1 at once, copies nothing
    to the caller and changes nothing, for any request and any state of
    the function statics. *)
Theorem ringbuffer_read_after_stop (e : Env) (se : StopEnv) (w : World) :
  (mutex (s_radio w) = true -> radio_holder e <> NeverReleased) ->
  exists w1,
    stopRadioStream e se w = Ok w1 /\
    forall (re : ReadEnv) (lb lh : Z) (lg : list read_msg) (buf : list Z)
           (size : Z),
      ringbuffer_read re (mkSource w1 lb lh lg) buf size
      = Ok (mkSource w1 lb lh lg, buf, -1).
Proof.
  intros Hm.
  destruct (stopRadioStream_ok e se w Hm)
    as (w1 & E & _ & _ & _ & _ & _ & _ & _ & _ & Hptr & _).
  exists w1. split; [exact E|].
  intros re lb lh lg buf size. unfold ringbuffer_read.
  cbn [src_world]. rewrite Hptr. reflexivity.
Qed.

Lemma ringbuffer_read_after_stop_witness :
  exists w1,
    stopRadioStream env_free (mkStopEnv false false)
      (live_world 100 40 rb_one_byte) = Ok w1 /\
    ringbuffer_read (quiet env_free) (source_of w1) [0; 0; 0; 0] 4
    = Ok (source_of w1, [0; 0; 0; 0], -1).
Proof.
  destruct (ringbuffer_read_after_stop env_free (mkStopEnv false false)
              (live_world 100 40 rb_one_byte) ltac:(discriminate))
    as (w1 & E & H).
  exists w1. split; [exact E|]. apply H.
Defined.





(** ** Playback start and the stream of the decoder *)

(** What the synchroniser keeps of the window it scanned. *)
Lemma frame_sync_keeps (window stale : list Z) :
  3 <= Z.of_nat (length window) < SIZE_WIDTH ->
  exists off hb' saved,
    frame_sync (window ++ stale) (Z.of_nat (length window))
    = Ok (off, hb', saved) /\
    -1 <= off < Z.of_nat (length window) - 3 /\
    saved = Z.of_nat (length window) - Z.max off 0 /\
    take (Z.to_nat saved) hb' = drop (Z.to_nat (Z.max off 0)) window /\
    (0 <= off -> header_at window off = true) /\
    length hb' = length (window ++ stale).
Proof.
  intros Hn. unfold frame_sync, find_sync.
  rewrite (size_wrap_small (Z.of_nat (length window) - 3)) by lia.
  destruct (sync_scan_first (window ++ stale) (Z.of_nat (length window) - 3)
              (S (length (window ++ stale))) 0)
    as (r & E & Hr); [lia|rewrite length_app; lia|rewrite length_app; lia|].
  rewrite E. cbn [rbind]. unfold align_header.
  destruct Hr as [[-> _] | (Hr & Hh & _)].
  - cbn. eexists _, _, _. split; [reflexivity|].
    split; [lia|]. split; [lia|].
    rewrite Nat2Z.id. change (Z.to_nat (Z.max (-1) 0)) with 0%nat.
    rewrite drop_0, take_app_length.
    split; [reflexivity|]. split; [lia|reflexivity].
  - rewrite header_at_app in Hh by lia.
    destruct (Z.ltb_spec 0 r) as [Hpos | Hzero].
    + rewrite (size_wrap_small (Z.of_nat (length window) - r)) by lia.
      rewrite memmove_front_ok by (rewrite length_app; lia). cbn [rbind].
      eexists _, _, _. split; [reflexivity|].
      split; [lia|]. split; [lia|].
      split; [|split; [intros _; exact Hh|]].
      * rewrite take_app_length'
          by (rewrite length_take, length_drop, length_app; lia).
        rewrite drop_app_le by lia.
        rewrite take_app_length' by (rewrite length_drop; lia).
        f_equal. lia.
      * rewrite length_app, length_take, !length_drop, length_app. lia.
    + assert (r = 0) as -> by lia.
      eexists _, _, _. split; [reflexivity|].
      split; [lia|]. split; [lia|].
      rewrite Nat2Z.id. change (Z.to_nat (Z.max 0 0)) with 0%nat.
      rewrite drop_0, take_app_length.
      split; [reflexivity|]. split; [intros _; exact Hh|reflexivity].
Qed.

Lemma header_at_starts (l : list Z) (i : Z) :
  0 <= i -> header_at l i = true ->
  exists b0 b1 b2 rest,
    drop (Z.to_nat i) l = b0 :: b1 :: b2 :: rest /\
    valid_frame_header b0 b1 b2 = true.
Proof.
  intros Hi. unfold header_at.
  replace (Z.to_nat (i + 1)) with (S (Z.to_nat i)) by lia.
  replace (Z.to_nat (i + 2)) with (S (S (Z.to_nat i))) by lia.
  destruct (l !! Z.to_nat i) as [b0|] eqn:E0; [|discriminate].
  destruct (l !! S (Z.to_nat i)) as [b1|] eqn:E1; [|discriminate].
  destruct (l !! S (S (Z.to_nat i))) as [b2|] eqn:E2; [|discriminate].
  intros Hv. exists b0, b1, b2, (drop (S (S (S (Z.to_nat i)))) l).
  split; [|exact Hv].
  rewrite (drop_S l b0 _ E0), (drop_S l b1 _ E1), (drop_S l b2 _ E2).
  reflexivity.
Qed.

(** X19.  Playback start does not lose the stream.  When the decode task
    has scanned its probe window and handed the byte source to the
    decoder, the saved window followed by what is still queued is exactly
    what was queued before, from the sync offset on (from the start when
    no header was found): nothing after the sync point is lost, repeated
    or reordered.  When a header was found, that stream begins with a
    valid frame header, and the source starts in replay mode at the first
    byte of the window, at position 0. *)
Theorem decode_start_keeps_stream (e : Env) (pe : PlayerEnv) (w : World)
    (rb : RingBuffer.t) (hb0 : list Z) :
  ringBuffer (s_radio w) = Some rb -> RingBuffer.wf rb ->
  xSemaphoreTake (rb_holder e) RingBuffer.lock_wait = Some true ->
  HEADER_BUFFER_SIZE <= RingBuffer.dataAvailable rb ->
  header_buffer_for pe w = Some hb0 ->
  Z.of_nat (length hb0) = HEADER_BUFFER_SIZE ->
  player_new_ok pe = true -> fopencookie_ok pe = true ->
  player_play_ok pe = true ->
  exists w2 off hb',
    audio_decode_start e pe w = Ok (w2, true) /\
    -1 <= off < HEADER_BUFFER_SIZE - 3 /\
    sync_window (audio w2) ++ queued w2
    = drop (Z.to_nat (Z.max off 0)) (queued w) /\
    (0 <= off ->
       exists b0 b1 b2 rest,
         sync_window (audio w2) ++ queued w2 = b0 :: b1 :: b2 :: rest /\
         valid_frame_header b0 b1 b2 = true) /\
    audio w2
    = mkAudio true 0 (Some hb') (HEADER_BUFFER_SIZE - Z.max off 0) 0 true false /\
    Z.of_nat (length hb') = HEADER_BUFFER_SIZE.
Proof.
  intros Hrb Hwf Hlock Havail Hhb Hlen Hp1 Hp2 Hp3.
  pose proof (RingBuffer.wf_mutex _ Hwf) as Hmx.
  unfold audio_decode_start. unfold header_buffer_for in Hhb.
  rewrite Hhb, Hrb. unfold rb_call, RingBuffer.available.
  rewrite (take_mutex_wf _ _ _ Hmx), Hmx, Hlock.
  cbn [mbind option_bind call rbind].
  destruct (Z.ltb_spec (RingBuffer.dataAvailable rb) HEADER_BUFFER_SIZE)
    as [?|_]; [lia|].
  assert (0 <= HEADER_BUFFER_SIZE) as H0 by (unfold HEADER_BUFFER_SIZE; lia).
  destruct (read_taken (rb_holder e) rb HEADER_BUFFER_SIZE Hwf Hlock H0)
    as (rb' & E & _ & _ & _ & _ & Hc').
  rewrite Z.min_l in E, Hc' by lia. rewrite E. cbn [call rbind].
  set (out := take (Z.to_nat HEADER_BUFFER_SIZE) (RingBuffer.contents rb))
    in *.
  assert (Z.of_nat (length out) = HEADER_BUFFER_SIZE) as Hout.
  { subst out. rewrite length_take.
    pose proof (contents_length rb (proj1 (RingBuffer.wf_avail _ Hwf))).
    lia. }
  destruct (frame_sync_keeps out (drop (length out) hb0))
    as (off & hb' & saved & Es & Hoff & Hsaved & Hwin & Hhead & Hlen').
  { unfold HEADER_BUFFER_SIZE, SIZE_WIDTH in *. lia. }
  rewrite Hout in Es, Hoff, Hsaved. rewrite Es. cbn [rbind].
  rewrite Hp1, Hp2, Hp3. cbn [negb].
  assert (sync_window (mkAudio true 0 (Some hb') saved 0 true false)
          ++ RingBuffer.contents rb'
          = drop (Z.to_nat (Z.max off 0)) (RingBuffer.contents rb)) as Hstream.
  { unfold sync_window. cbn [s_header_buffer s_header_bytes_saved].
    rewrite Hwin, Hc'. unfold out.
    rewrite <- (take_drop (Z.to_nat HEADER_BUFFER_SIZE)
                  (RingBuffer.contents rb)) at 3.
    rewrite drop_app_le; [reflexivity|].
    fold out. lia. }
  eexists. exists off, hb'.
  split; [reflexivity|].
  split; [exact Hoff|].
  unfold queued.
  cbn [audio set_audio add_log set_radio s_radio ringBuffer with_ringBuffer].
  rewrite Hrb.
  split; [exact Hstream|]. split.
  - intros Hpos. rewrite Hstream.
    destruct (header_at_starts out off Hpos (Hhead Hpos))
      as (b0 & b1 & b2 & rest & Hd & Hv).
    exists b0, b1, b2, (rest ++ RingBuffer.contents rb').
    split; [|exact Hv].
    replace (Z.to_nat (Z.max off 0)) with (Z.to_nat off) by lia.
    rewrite <- (take_drop (Z.to_nat HEADER_BUFFER_SIZE)
                  (RingBuffer.contents rb)).
    fold out. rewrite drop_app_le by lia. rewrite Hd, Hc'. reflexivity.
  - split; [rewrite Hsaved; reflexivity|].
    rewrite Hlen', length_app, length_drop. lia.
Qed.

(** ** The byte source on concrete inputs *)






Lemma seek_rewind_replays_witness :
  exists s0 s1 s2,
    ringbuffer_read (quiet env_free) (source_of (decoding replay6 rb16))
      (repeat 0 16) 8 = Ok (s0, [101; 102; 103; 104; 105; 106; 1; 2;
                                 0; 0; 0; 0; 0; 0; 0; 0], 8) /\
    ringbuffer_seek s0 0 SEEK_SET = (s1, 0, 0) /\
    ringbuffer_read (quiet env_free) s1 (repeat 0 16) 4
    = Ok (s2, [101; 102; 103; 104; 0; 0; 0; 0; 0; 0; 0; 0; 0; 0; 0; 0], 4) /\
    ringbuffer_seek s2 0 SEEK_CUR = (s2, 4, 0) /\
    ringbuffer_seek s2 0 SEEK_END = (s2, 0, -1).
Proof.
  destruct (ringbuffer_read (quiet env_free)
              (source_of (decoding replay6 rb16)) (repeat 0 16) 8)
    as [[[s0 b0] n0]| | |] eqn:E0; try (vm_compute in E0; discriminate).
  assert (b0 = [101; 102; 103; 104; 105; 106; 1; 2;
                0; 0; 0; 0; 0; 0; 0; 0] /\ n0 = 8 /\
          audio (src_world s0)
          = mkAudio true 8 (Some [101; 102; 103; 104; 105; 106; 0; 0])
                    6 6 false true /\
          stopRequested (s_radio (src_world s0)) = false)
    as (-> & -> & Ha0 & Hs0).
  { vm_compute in E0. injection E0 as <- <- <-. auto. }
  destruct (proj1 seek_rewind_replays (quiet env_free) s0
              [101; 102; 103; 104; 105; 106; 0; 0] (repeat 0 16) 4)
    as (s1 & s2 & E1 & E2 & E3 & _);
    rewrite ?Ha0; try reflexivity; try exact Hs0; try (cbn; lia).
  exists s0, s1, s2. split; [reflexivity|]. split; [exact E1|].
  split; [rewrite E2, Ha0; reflexivity|]. split; [exact E3|].
  apply (proj2 seek_rewind_replays). right. split; discriminate.
Defined.




Lemma decode_start_keeps_stream_witness :
  RingBuffer.wf rb_full /\
  HEADER_BUFFER_SIZE <= RingBuffer.dataAvailable rb_full /\
  exists w2 off,
    audio_decode_start env_free
      (mkPlayerEnv (Some (repeat 0 (Z.to_nat HEADER_BUFFER_SIZE))) true true true)
      (live_world 0 0 rb_full) = Ok (w2, true) /\
    sync_window (audio w2) ++ queued w2
    = drop (Z.to_nat (Z.max off 0)) (queued (live_world 0 0 rb_full)).
Proof.
  assert (HEADER_BUFFER_SIZE <= RingBuffer.dataAvailable rb_full) as Hav
    by (cbn; unfold HEADER_BUFFER_SIZE, RING_BUFFER_SIZE; lia).
  split; [exact wf_rb_full|]. split; [exact Hav|].
  destruct (decode_start_keeps_stream env_free
              (mkPlayerEnv (Some (repeat 0 (Z.to_nat HEADER_BUFFER_SIZE)))
                           true true true)
              (live_world 0 0 rb_full) rb_full
              (repeat 0 (Z.to_nat HEADER_BUFFER_SIZE))
              eq_refl wf_rb_full eq_refl Hav eq_refl
              ltac:(rewrite repeat_length; unfold HEADER_BUFFER_SIZE; lia)
              eq_refl eq_refl eq_refl)
    as (w2 & off & hb' & E & _ & Hs & _).
  exists w2, off. split; [exact E|exact Hs].
Defined.

(** ** The end of the decode task *)

(** X20.  When the player goes idle by itself, the download goes on.  The
    decode task leaves its monitor loop, detaches the byte source, sets
    the state to [RADIO_STOPPED] and clears its handle, but it does not
    request a stop: [getRadioState] reports [RADIO_STOPPED] while the HTTP
    task of the session is still fed, its next data event is accepted and
    queued in the ring buffer, and no read of the detached source will
    take it out again. *)
Theorem player_idle_keeps_downloading (e : Env) (w : World)
    (rb : RingBuffer.t) (data : list Z) (lastStatusLog : Z) :
  streaming 0 w rb -> mutex (s_radio w) = true ->
  xSemaphoreTake (radio_holder e) (pdMS_TO_TICKS 100) = Some true ->
  xSemaphoreTake (rb_holder e) RingBuffer.lock_wait = Some true ->
  exists w0 w1 w2,
    monitor_poll e true lastStatusLog w = Ok (false, lastStatusLog, w0) /\
    audio_decode_task_end e w0 = Ok w1 /\
    getRadioState e w1 = Ok RADIO_STOPPED /\
    audioTask (s_radio w1) = None /\
    stopRequested (s_radio w1) = false /\
    httpTask (s_radio w1) = httpTask (s_radio w) /\
    http_event_handler e w1 (HTTP_EVENT_ON_DATA data) = Ok (w2, ESP_OK) /\
    queued w2
    = queued w ++ take (Z.to_nat (RingBuffer.free_space rb)) data /\
    (forall (re : ReadEnv) (buf : list Z) (size : Z),
        ringbuffer_read re (source_of w2) buf size
        = Ok (source_of w2, buf, -1)).
Proof.
  intros Hs Hm Hlock Hrb.
  pose proof Hs as (Hint & Hid & Hstop & Hring & Hwf & Hbum).
  unfold monitor_poll. rewrite Hstop.
  exists (add_log (InfoMsg "Audio player became idle") w).
  unfold audio_decode_task_end.
  cbn [set_audio add_log s_radio mutex]. rewrite Hm, Hlock.
  cbn [call rbind].
  eexists.
  set (w1 := set_radio (with_audioTask None) _).
  assert (streaming 0 w1 rb) as Hs1.
  { unfold streaming, w1. cbn. rewrite Hint, Hid, Hstop, Hring.
    repeat (split; [reflexivity|]). split; [exact Hwf|exact Hbum]. }
  destruct (on_data_raw e w1 rb data Hrb Hs1)
    as (w2 & rb2 & E2 & Hs2 & Hc2 & _).
  assert (s_audio_ring_buffer (audio w2) = false) as Hptr.
  { unfold http_event_handler in E2.
    destruct Hs1 as (Hint1 & Hid1 & Hstop1 & Hring1 & _).
    rewrite Hstop1, Hid1, Z.eqb_refl, Hint1 in E2. cbn in E2.
    unfold write_raw in E2. rewrite Hring1 in E2.
    destruct (rb_call rb (RingBuffer.write (rb_holder e) rb data))
      as [[rbx n]| | |]; try discriminate.
    cbn [rbind] in E2.
    match type of E2 with
    | rbind (update_buffer_percent e ?wx) _ = _ =>
        assert (s_audio_ring_buffer (audio wx) = false) as Hx
          by (destruct (n <? _); [destruct (1000 <? _)|]; reflexivity);
        set (wy := wx) in *
    end.
    unfold update_buffer_percent in E2.
    destruct (call (xSemaphoreTake (radio_holder e) (pdMS_TO_TICKS 10)))
      as [[|]| | |]; cbn [rbind] in E2; try discriminate.
    - destruct (hal (s_radio wy)).
      + destruct (ringBuffer (s_radio wy)); [|discriminate].
        destruct (rb_call t (RingBuffer.bufferPercent (rb_holder e) t))
          as [pct| | |]; cbn [rbind] in E2; try discriminate.
        injection E2 as <-. exact Hx.
      + cbn [rbind] in E2. injection E2 as <-. exact Hx.
    - injection E2 as <-. exact Hx. }
  exists w2. split; [reflexivity|]. split; [reflexivity|].
  split.
  { unfold getRadioState, w1. cbn. rewrite Hm, Hlock. reflexivity. }
  split; [reflexivity|]. split; [exact Hstop|]. split; [reflexivity|].
  split; [exact E2|]. split.
  - unfold queued. destruct Hs2 as (_ & _ & _ & Hring2 & _).
    rewrite Hring2, Hring, Hc2. f_equal.
    destruct Hwf. unfold RingBuffer.free_space in *.
    destruct (Z.le_gt_cases (Z.of_nat (length data))
                (RingBuffer.size rb - RingBuffer.dataAvailable rb)).
    + rewrite Z.min_l by lia.
      rewrite Nat2Z.id, firstn_all, (take_ge data) by lia. reflexivity.
    + rewrite Z.min_r by lia. reflexivity.
  - intros re buf size. unfold ringbuffer_read.
    cbn [source_of src_world]. rewrite Hptr. reflexivity.
Qed.

Lemma player_idle_keeps_downloading_witness :
  streaming 0 (live_world 0 0 rb_one_byte) rb_one_byte /\
  exists w0 w1 w2,
    monitor_poll env_free true 0 (live_world 0 0 rb_one_byte)
      = Ok (false, 0, w0) /\
    audio_decode_task_end env_free w0 = Ok w1 /\
    getRadioState env_free w1 = Ok RADIO_STOPPED /\
    http_event_handler env_free w1 (HTTP_EVENT_ON_DATA [1; 2; 3; 4; 5])
      = Ok (w2, ESP_OK) /\
    queued w2 = [7; 1; 2; 3].
Proof.
  assert (streaming 0 (live_world 0 0 rb_one_byte) rb_one_byte) as Hs.
  { unfold streaming. repeat (split; [reflexivity|]).
    split; [exact wf_rb_one_byte|cbn; lia]. }
  split; [exact Hs|].
  destruct (player_idle_keeps_downloading env_free
              (live_world 0 0 rb_one_byte) rb_one_byte [1; 2; 3; 4; 5] 0
              Hs eq_refl eq_refl eq_refl)
    as (w0 & w1 & w2 & E0 & E1 & Hg & _ & _ & _ & E2 & Hq & _).
  exists w0, w1, w2. auto 10.
Defined.

(** ** The view *)

(** A start returns, and leaves the ring buffer with its mutex, when the
    buffer it finds has its mutex and [init] can create one. *)
Lemma startRadioStream_returns (e : Env) (se : StartEnv) (w : World)
    (url : list Z) :
  radio_holder e <> NeverReleased -> rb_holder e <> NeverReleased ->
  ring_intact w -> ring_mutex_created se = true ->
  exists w' ok, startRadioStream e se w url = Ok (w', ok) /\ ring_intact w'.
Proof.
  intros Hradio Hrbh Hint Hmc.
  destruct (stopRadioStream_ok e (stop_env se)
              (add_log (InfoMsg "Starting radio stream") w)
              (fun _ => Hradio))
    as (w1 & E1 & _ & _ & _ & _ & _ & _ & _ & _ & _ & _ & _ & Hrb1 & _).
  cbn [add_log s_radio] in Hrb1.
  unfold startRadioStream. rewrite E1. cbn [rbind].
  destruct (negb (mutex (s_radio w1)) && negb (mutex_created se)).
  { eexists _, _. split; [reflexivity|].
    unfold ring_intact in *. cbn [add_log s_radio]. rewrite Hrb1. exact Hint. }
  cbv zeta. unfold init_ring_buffer. cbn [set_radio s_radio ringBuffer].
  rewrite Hrb1. unfold ring_intact in Hint.
  destruct (ringBuffer (s_radio w)) as [rb|] eqn:Hrb.
  - cbn [negb set_radio s_radio ringBuffer]. rewrite Hrb1.
    rewrite (rb_call_wf _ _ Hint), (reset_returns _ rb Hrbh Hint).
    cbn [call rbind].
    rewrite (take_forever _ Hradio). cbn [call rbind].
    destruct (http_created se); [destruct (audio_created se)|];
      eexists _, _; (split; [reflexivity|]); reflexivity.
  - unfold RingBuffer.init. rewrite Hmc.
    destruct (ring_memory se) as [mem|].
    + cbn [negb set_radio s_radio ringBuffer with_ringBuffer].
      unfold rb_call. cbn [RingBuffer.mutex].
      rewrite (reset_returns _ (RingBuffer.mk mem RING_BUFFER_SIZE 0 0 0 true)
                 Hrbh eq_refl).
      cbn [call rbind].
      rewrite (take_forever _ Hradio). cbn [call rbind].
      destruct (http_created se); [destruct (audio_created se)|];
        eexists _, _; (split; [reflexivity|]); reflexivity.
    + cbn [negb]. eexists _, _. split; [reflexivity|]. exact I.
Qed.

Lemma getRadioState_returns (e : Env) (w : World) :
  exists st, getRadioState e w = Ok st.
Proof.
  unfold getRadioState. destruct (mutex (s_radio w)); cbn [negb]; [|eauto].
  destruct (take_bounded (radio_holder e) 100) as [-> | ->]; cbn; eauto.
Qed.

Lemma station_lookup (i : Z) :
  0 <= i < radio.STATION_COUNT ->
  exists st, radio.STATIONS !! Z.to_nat i = Some st.
Proof.
  intros Hi. apply lookup_lt_is_Some_2. unfold radio.STATION_COUNT in Hi. lia.
Qed.

Lemma select_station_spec (v : RadioView) (index : Z) :
  selection_ok v ->
  exists v',
    select_station v index = Ok v' /\ selection_ok v' /\
    _is_playing v' = _is_playing v /\
    (0 <= index < radio.STATION_COUNT -> _selected_station v' = index) /\
    (~ 0 <= index < radio.STATION_COUNT -> v' = v).
Proof.
  intros Hv. unfold select_station.
  destruct (Z.ltb_spec index 0) as [Hneg | Hpos]; cbn [orb].
  - exists v. split; [reflexivity|]. split; [exact Hv|].
    split; [reflexivity|]. split; [lia|reflexivity].
  - destruct (Z.leb_spec radio.STATION_COUNT index) as [Hbig | Hin].
    + exists v. split; [reflexivity|]. split; [exact Hv|].
      split; [reflexivity|]. split; [lia|reflexivity].
    + destruct (station_lookup index ltac:(lia)) as [st ->].
      eexists. split; [reflexivity|]. unfold selection_ok. cbn.
      split; [lia|]. split; [reflexivity|]. split; [reflexivity|lia].
Qed.

Lemma play_selected_station_spec (ve : ViewEnv) (v : RadioView) (w : World) :
  selection_ok v -> ring_intact w -> view_env_ok ve ->
  exists v' w',
    play_selected_station ve v w = Ok (v', w') /\
    _selected_station v' = _selected_station v /\ ring_intact w'.
Proof.
  intros Hv Hint [[Hradio Hrbh] Hmc]. unfold play_selected_station.
  destruct (negb (WifiState_eqb (v_wifi ve) WIFI_CONNECTED)).
  - eexists _, _. split; [reflexivity|]. split; [reflexivity|exact Hint].
  - destruct (Z.ltb_spec (_selected_station v) 0) as [|_];
      [unfold selection_ok in Hv; lia|].
    destruct (station_lookup (_selected_station v) Hv) as [st ->].
    destruct (startRadioStream_returns (v_env ve) (v_start ve)
                (add_log (InfoMsg "Playing station") w)
                (bytes (radio.streamUrl st)) Hradio Hrbh Hint Hmc)
      as (w' & ok & -> & Hint').
    cbn [rbind]. eexists _, _. split; [reflexivity|].
    split; [reflexivity|exact Hint'].
Qed.

Lemma stop_playback_spec (ve : ViewEnv) (v : RadioView) (w : World) :
  ring_intact w -> view_env_ok ve ->
  exists v' w',
    stop_playback ve v w = Ok (v', w') /\
    _selected_station v' = _selected_station v /\ ring_intact w'.
Proof.
  intros Hint [[Hradio _] _]. unfold stop_playback.
  destruct (stopRadioStream_ok (v_env ve) (stop_env (v_start ve))
              (add_log (InfoMsg "Stopping playback") w) (fun _ => Hradio))
    as (w1 & -> & _ & _ & _ & _ & _ & _ & _ & _ & _ & _ & _ & Hrb1 & _).
  cbn [rbind]. eexists _, _. split; [reflexivity|]. split; [reflexivity|].
  unfold ring_intact in *. rewrite Hrb1. exact Hint.
Qed.

Lemma rem_next (x : Z) :
  0 <= x < radio.STATION_COUNT ->
  Z.rem (x + 1) radio.STATION_COUNT = (x + 1) mod radio.STATION_COUNT /\
  0 <= Z.rem (x + 1) radio.STATION_COUNT < radio.STATION_COUNT.
Proof.
  intros Hx. rewrite Z.rem_mod_nonneg by (unfold radio.STATION_COUNT in *; cbn in *; lia).
  split; [reflexivity|]. apply Z.mod_pos_bound. lia.
Qed.

Lemma rem_prev (x : Z) :
  0 <= x < radio.STATION_COUNT ->
  Z.rem (x - 1 + radio.STATION_COUNT) radio.STATION_COUNT
  = (x - 1) mod radio.STATION_COUNT /\
  0 <= Z.rem (x - 1 + radio.STATION_COUNT) radio.STATION_COUNT
    < radio.STATION_COUNT.
Proof.
  intros Hx.
  rewrite Z.rem_mod_nonneg by (unfold radio.STATION_COUNT in *; cbn in *; lia).
  rewrite <- (Z.mod_add (x - 1) 1 radio.STATION_COUNT) by lia.
  rewrite Z.mul_1_l.
  split; [reflexivity|]. apply Z.mod_pos_bound. lia.
Qed.

Lemma view_step_spec (ve : ViewEnv) (a : view_action) (v : RadioView)
    (w : World) :
  selection_ok v -> ring_intact w -> view_env_ok ve ->
  exists v' w',
    view_step ve a v w = Ok (v', w') /\ selection_ok v' /\ ring_intact w'.
Proof.
  intros Hv Hint Hl.
  assert (forall v0 : RadioView,
             selection_ok v0 ->
             exists v' w',
               (if _is_playing v0 then play_selected_station ve v0 w
                else Ok (v0, w)) = Ok (v', w') /\ selection_ok v' /\
               ring_intact w') as Hplay.
  { intros v0 Hv0. destruct (_is_playing v0).
    - destruct (play_selected_station_spec ve v0 w Hv0 Hint Hl)
        as (v' & w' & E & Hs & Hi).
      exists v', w'. split; [exact E|]. split; [|exact Hi].
      unfold selection_ok. rewrite Hs. exact Hv0.
    - exists v0, w. auto. }
  destruct a as [index | | | | |]; cbn [view_step].
  - destruct (select_station_spec v index Hv) as (v1 & -> & Hv1 & _).
    cbn [rbind]. apply Hplay. exact Hv1.
  - unfold prev_station.
    destruct (select_station_spec v
                (Z.rem (_selected_station v - 1 + radio.STATION_COUNT)
                       radio.STATION_COUNT) Hv) as (v1 & -> & Hv1 & _).
    cbn [rbind]. apply Hplay. exact Hv1.
  - unfold next_station.
    destruct (select_station_spec v
                (Z.rem (_selected_station v + 1) radio.STATION_COUNT) Hv)
      as (v1 & -> & Hv1 & _).
    cbn [rbind]. apply Hplay. exact Hv1.
  - unfold toggle_playback. destruct (_is_playing v).
    + destruct (stop_playback_spec ve v w Hint Hl) as (v' & w' & E & Hs & Hi).
      exists v', w'. split; [exact E|]. split; [|exact Hi].
      unfold selection_ok. rewrite Hs. exact Hv.
    + destruct (play_selected_station_spec ve v w Hv Hint Hl)
        as (v' & w' & E & Hs & Hi).
      exists v', w'. split; [exact E|]. split; [|exact Hi].
      unfold selection_ok. rewrite Hs. exact Hv.
  - unfold update_now_playing.
    destruct (getRadioState_returns (v_env ve) w) as [st ->]. cbn [rbind].
    eexists _, _. split; [reflexivity|]. split; [|exact Hint].
    unfold selection_ok. destruct st; cbn; exact Hv.
  - unfold update_spectrum.
    destruct (getRadioState_returns (v_env ve) w) as [st ->]. cbn [rbind].
    destruct st; cbn [rbind]; eexists _, _; (split; [reflexivity|]);
      (split; [exact Hv|exact Hint]).
Qed.

(** X21.  The selection never leaves the station table.  From a view whose
    selection is an index of the table, any sequence of taps (on a station
    card with any index, on previous, next, play/stop) and of updates
    returns, and leaves a selection that is again an index of the table:
    [STATIONS[_selected_station]] is never read out of bounds.  The steps
    return when the locks waited for without bound are given back and the
    ring buffer has its mutex: the one that is there has it, and a start
    that initialises the buffer can create it (after an [init] that failed
    on the mutex, the next start does not return). *)
Theorem view_selection_in_range (steps : list (ViewEnv * view_action)) :
  forall (v : RadioView) (w : World),
    selection_ok v -> ring_intact w ->
    Forall (fun p => view_env_ok p.1) steps ->
    exists v' w',
      view_run steps v w = Ok (v', w') /\ selection_ok v' /\ ring_intact w'.
Proof.
  induction steps as [|[ve a] steps IH]; intros v w Hv Hint Hl.
  - exists v, w. auto.
  - inversion Hl as [|? ? Hl1 Hl']; subst. cbn [fst] in Hl1.
    destruct (view_step_spec ve a v w Hv Hint Hl1)
      as (v1 & w1 & E & Hv1 & Hint1).
    cbn [view_run]. rewrite E. cbn [rbind]. apply IH; assumption.
Qed.

Lemma view_selection_in_range_witness :
  selection_ok view0 /\ ring_intact (live_world 0 0 rb_one_byte) /\
  Forall (fun p => view_env_ok p.1)
    [(view_env WIFI_DISCONNECTED, TapPrev);
     (view_env WIFI_CONNECTED, TapPlay);
     (view_env WIFI_CONNECTED, TapStation 42);
     (view_env WIFI_CONNECTED, TapNext)] /\
  exists v' w',
    view_run
      [(view_env WIFI_DISCONNECTED, TapPrev);
       (view_env WIFI_CONNECTED, TapPlay);
       (view_env WIFI_CONNECTED, TapStation 42);
       (view_env WIFI_CONNECTED, TapNext)] view0
      (live_world 0 0 rb_one_byte) = Ok (v', w') /\
    selection_ok v'.
Proof.
  assert (selection_ok view0) as Hv
    by (vm_compute; split; [discriminate|reflexivity]).
  assert (Forall (fun p => view_env_ok p.1)
            [(view_env WIFI_DISCONNECTED, TapPrev);
             (view_env WIFI_CONNECTED, TapPlay);
             (view_env WIFI_CONNECTED, TapStation 42);
             (view_env WIFI_CONNECTED, TapNext)]) as Hl
    by (repeat (constructor;
                [split; [split; discriminate|reflexivity]|]); constructor).
  split; [exact Hv|]. split; [reflexivity|]. split; [exact Hl|].
  destruct (view_selection_in_range _ view0 (live_world 0 0 rb_one_byte) Hv
              eq_refl Hl) as (v' & w' & E & Hv' & _).
  exists v', w'. split; [exact E|exact Hv'].
Defined.

(** X22.  Previous and next are inverse rotations of the station table.
    From a selection [x] of the table, next selects [(x + 1) mod 10] and
    shows the name and the description of that station, wrapping from the
    last station to the first; previous after next selects [x] again and
    shows its station again, whether or not a stream is playing.  Both
    steps return when the ring buffer has its mutex: the one that is there
    has it, and a start that initialises the buffer can create it. *)
Theorem next_then_prev (ve ve' : ViewEnv) (v : RadioView) (w : World) :
  selection_ok v -> ring_intact w -> view_env_ok ve -> view_env_ok ve' ->
  exists v1 w1 v2 w2 st1 st,
    next_station ve v w = Ok (v1, w1) /\
    prev_station ve' v1 w1 = Ok (v2, w2) /\
    _selected_station v1 = (_selected_station v + 1) mod radio.STATION_COUNT /\
    radio.STATIONS !! Z.to_nat (_selected_station v1) = Some st1 /\
    _station_name_label v1 = bytes (radio.name st1) /\
    _station_desc_label v1 = bytes (radio.description st1) /\
    _selected_station v2 = _selected_station v /\
    radio.STATIONS !! Z.to_nat (_selected_station v) = Some st /\
    _station_name_label v2 = bytes (radio.name st) /\
    _station_desc_label v2 = bytes (radio.description st).
Proof.
  intros Hv Hint Hl Hl'.
  assert (forall (ve0 : ViewEnv) (v0 : RadioView) (w0 : World) (i : Z),
             selection_ok v0 -> ring_intact w0 -> view_env_ok ve0 ->
             0 <= i < radio.STATION_COUNT ->
             exists v' w' st,
               (do v1 <- select_station v0 i;
                if _is_playing v1 then play_selected_station ve0 v1 w0
                else Ok (v1, w0)) = Ok (v', w') /\
               ring_intact w' /\
               _selected_station v' = i /\
               radio.STATIONS !! Z.to_nat i = Some st /\
               _station_name_label v' = bytes (radio.name st) /\
               _station_desc_label v' = bytes (radio.description st))
    as Hsel.
  { intros ve0 v0 w0 i Hv0 Hint0 Hl0 Hi. unfold select_station.
    destruct (Z.ltb_spec i 0) as [|_]; [lia|].
    destruct (Z.leb_spec radio.STATION_COUNT i) as [|_]; [lia|].
    destruct (station_lookup i Hi) as [st Est]. rewrite Est.
    cbn [orb rbind _is_playing].
    destruct (_is_playing v0).
    - unfold play_selected_station. cbn [_selected_station].
      destruct (negb (WifiState_eqb (v_wifi ve0) WIFI_CONNECTED)).
      + eexists _, _, st. split; [reflexivity|]. split; [exact Hint0|].
        cbn. auto.
      + destruct (Z.ltb_spec i 0) as [|_]; [lia|]. rewrite Est.
        destruct Hl0 as [[Hradio Hrbh] Hmc].
        destruct (startRadioStream_returns (v_env ve0) (v_start ve0)
                    (add_log (InfoMsg "Playing station") w0)
                    (bytes (radio.streamUrl st)) Hradio Hrbh Hint0 Hmc)
          as (w' & ok & -> & Hint').
        cbn [rbind]. eexists _, _, st. split; [reflexivity|].
        split; [exact Hint'|]. cbn. auto.
    - eexists _, _, st. split; [reflexivity|]. split; [exact Hint0|].
      cbn. auto. }
  destruct (rem_next (_selected_station v) Hv) as [En Hn].
  destruct (Hsel ve v w _ Hv Hint Hl Hn)
    as (v1 & w1 & st1 & E1 & Hint1 & Hi1 & Hs1 & Hn1 & Hd1).
  assert (selection_ok v1) as Hv1 by (unfold selection_ok; rewrite Hi1; exact Hn).
  destruct (rem_prev (_selected_station v1) Hv1) as [Ep Hp].
  destruct (Hsel ve' v1 w1 _ Hv1 Hint1 Hl' Hp)
    as (v2 & w2 & st & E2 & _ & Hi2 & Hs2 & Hn2 & Hd2).
  assert (Z.rem (_selected_station v1 - 1 + radio.STATION_COUNT)
                radio.STATION_COUNT = _selected_station v) as Hback.
  { rewrite Ep, Hi1, En.
    rewrite Zminus_mod_idemp_l.
    replace (_selected_station v + 1 - 1) with (_selected_station v) by lia.
    apply Z.mod_small. exact Hv. }
  rewrite Hback in *.
  exists v1, w1, v2, w2, st1, st.
  unfold next_station, prev_station. rewrite E1.
  split; [reflexivity|]. rewrite Hback.
  split; [exact E2|]. rewrite Hi1 at 1.
  split; [exact En|]. rewrite Hi1. auto 10.
Qed.

Lemma next_then_prev_witness :
  selection_ok (mkView 9 false [] false [] [] [] [] true LabelPlay []) /\
  exists v1 v2,
    next_station (view_env WIFI_CONNECTED)
      (mkView 9 false [] false [] [] [] [] true LabelPlay [])
      (initial_world meta_empty) = Ok (v1, initial_world meta_empty) /\
    _selected_station v1 = 0 /\
    _station_name_label v1 = bytes "Groove Salad" /\
    prev_station (view_env WIFI_CONNECTED) v1 (initial_world meta_empty)
    = Ok (v2, initial_world meta_empty) /\
    _selected_station v2 = 9 /\
    _station_name_label v2 = bytes "cliqhop idm".
Proof.
  assert (selection_ok (mkView 9 false [] false [] [] [] [] true LabelPlay []))
    as Hv by (vm_compute; split; [discriminate|reflexivity]).
  assert (view_env_ok (view_env WIFI_CONNECTED)) as Hl
    by (split; [split; discriminate|reflexivity]).
  split; [exact Hv|].
  destruct (next_then_prev (view_env WIFI_CONNECTED) (view_env WIFI_CONNECTED)
              (mkView 9 false [] false [] [] [] [] true LabelPlay [])
              (initial_world meta_empty) Hv I Hl Hl)
    as (v1 & w1 & v2 & w2 & st1 & st & E1 & E2 & Hi1 & Hs1 & Hn1 & _ & Hi2
        & Hs2 & Hn2 & _).
  assert (w1 = initial_world meta_empty) as ->.
  { cbv [next_station select_station] in E1. cbn in E1.
    injection E1 as _ <-. reflexivity. }
  assert (w2 = initial_world meta_empty) as ->.
  { assert (_is_playing v1 = false) as Hp.
    { cbv [next_station select_station] in E1. cbn in E1.
      injection E1 as <-. reflexivity. }
    unfold prev_station, select_station in E2.
    destruct ((_ <? 0) || _) in E2; cbn [rbind] in E2.
    - rewrite Hp in E2. injection E2 as _ <-. reflexivity.
    - destruct (radio.STATIONS !! _) in E2; [|discriminate].
      cbn [rbind _is_playing] in E2. rewrite Hp in E2.
      injection E2 as _ <-. reflexivity. }
  cbn in Hi1. rewrite Hi1 in Hs1. cbn in Hs1. injection Hs1 as <-.
  cbn in Hi2. cbn in Hs2. injection Hs2 as <-.
  exists v1, v2. auto 10.
Defined.

Lemma no_wifi_step (ve : ViewEnv) (a : view_action) (v : RadioView)
    (w : World) :
  selection_ok v -> _is_playing v = false -> v_wifi ve <> WIFI_CONNECTED ->
  exists v',
    view_step ve a v w = Ok (v', w) /\ _is_playing v' = false /\
    selection_ok v'.
Proof.
  intros Hv Hp Hwifi.
  assert (forall i, exists v',
             (do v1 <- select_station v i;
              if _is_playing v1 then play_selected_station ve v1 w
              else Ok (v1, w)) = Ok (v', w) /\
             _is_playing v' = false /\ selection_ok v') as Hsel.
  { intros i.
    destruct (select_station_spec v i Hv) as (v1 & -> & Hv1 & Hp1 & _).
    cbn [rbind]. rewrite Hp1, Hp. exists v1.
    split; [reflexivity|]. split; [congruence|exact Hv1]. }
  destruct a as [index | | | | |]; cbn [view_step].
  - apply Hsel.
  - apply Hsel.
  - apply Hsel.
  - unfold toggle_playback, play_selected_station. rewrite Hp.
    assert (negb (WifiState_eqb (v_wifi ve) WIFI_CONNECTED) = true) as ->
      by (destruct (v_wifi ve); try reflexivity; contradiction).
    eexists. split; [reflexivity|]. split; [reflexivity|exact Hv].
  - unfold update_now_playing.
    destruct (getRadioState_returns (v_env ve) w) as [st ->]. cbn [rbind].
    eexists. split; [reflexivity|].
    destruct st; cbn; (split; [first [exact Hp | reflexivity]|exact Hv]).
  - unfold update_spectrum.
    destruct (getRadioState_returns (v_env ve) w) as [st ->]. cbn [rbind].
    destruct st; cbn [rbind]; eexists; (split; [reflexivity|]);
      (split; [exact Hp|exact Hv]).
Qed.

(** X23.  Without WiFi the view never touches the radio.  From a view that
    is not playing, as long as [getWifiState] does not answer
    [WIFI_CONNECTED], no sequence of taps and updates starts or stops a
    stream: every step returns, whatever the mutexes do, the world of the
    radio is left exactly as it was, and the view stays not playing. *)
Theorem no_wifi_no_stream (steps : list (ViewEnv * view_action)) :
  forall (v : RadioView) (w : World),
    selection_ok v -> _is_playing v = false ->
    Forall (fun p => v_wifi p.1 <> WIFI_CONNECTED) steps ->
    exists v',
      view_run steps v w = Ok (v', w) /\ _is_playing v' = false /\
      selection_ok v'.
Proof.
  induction steps as [|[ve a] steps IH]; intros v w Hv Hp Hs.
  - exists v. auto.
  - inversion Hs as [|? ? Hs1 Hs']; subst. cbn [fst] in Hs1.
    destruct (no_wifi_step ve a v w Hv Hp Hs1) as (v1 & E & Hp1 & Hv1).
    cbn [view_run]. rewrite E. cbn [rbind]. apply IH; assumption.
Qed.

Lemma no_wifi_no_stream_witness :
  selection_ok view0 /\
  exists v',
    view_run
      [(mkViewEnv (mkEnv NeverReleased NeverReleased 0)
                  (v_start (view_env WIFI_FAILED)) WIFI_FAILED, TapPlay);
       (view_env WIFI_CONNECTING, TapNext);
       (view_env WIFI_DISCONNECTED, UpdateNowPlaying)] view0
      (initial_world meta_empty) = Ok (v', initial_world meta_empty) /\
    _is_playing v' = false.
Proof.
  assert (selection_ok view0) as Hv
    by (vm_compute; split; [discriminate|reflexivity]).
  split; [exact Hv|].
  destruct (no_wifi_no_stream
              [(mkViewEnv (mkEnv NeverReleased NeverReleased 0)
                          (v_start (view_env WIFI_FAILED)) WIFI_FAILED,
                TapPlay);
               (view_env WIFI_CONNECTING, TapNext);
               (view_env WIFI_DISCONNECTED, UpdateNowPlaying)] view0
              (initial_world meta_empty) Hv eq_refl
              ltac:(repeat constructor; discriminate))
    as (v' & E & Hp & _).
  exists v'. split; [exact E|exact Hp].
Defined.

(** X24.  The view does not look at the result of [startRadioStream].
    With WiFi connected, a tap on play marks the view as playing and shows
    the stop button even when no task could be created; the next update
    that obtains the radio mutex then finds [RADIO_BUFFERING], shows
    "Buffering..." with the spinner and keeps the view playing, although
    no audio task exists that could ever leave that state. *)
Theorem play_ignores_failed_start (ve ve' : ViewEnv) (v : RadioView)
    (w : World) :
  selection_ok v -> locks_return ve -> v_wifi ve = WIFI_CONNECTED ->
  (mutex (s_radio w) = false -> mutex_created (v_start ve) = true) ->
  ring_ready (v_start ve) w ->
  http_created (v_start ve) = None \/ audio_created (v_start ve) = None ->
  xSemaphoreTake (radio_holder (v_env ve')) (pdMS_TO_TICKS 100) = Some true ->
  exists v1 w1 v2,
    play_selected_station ve v w = Ok (v1, w1) /\
    _is_playing v1 = true /\ _btn_play_label v1 = LabelStop /\
    audioTask (s_radio w1) = None /\
    _radio_state w1 = RADIO_ERROR /\
    update_now_playing ve' v1 w1 = Ok v2 /\
    _is_playing v2 = true /\
    _status_label v2 = bytes "Buffering..." /\
    _buffering_spinner_hidden v2 = false.
Proof.
  intros Hv [Hradio Hrbh] Hwifi Hmx Hmem Hfail Hlock.
  unfold play_selected_station. rewrite Hwifi. cbn [WifiState_eqb negb].
  destruct (Z.ltb_spec (_selected_station v) 0) as [|_];
    [unfold selection_ok in Hv; lia|].
  destruct (station_lookup (_selected_station v) Hv) as [st ->].
  destruct (start_task_failure (v_env ve) (v_start ve)
              (add_log (InfoMsg "Playing station") w)
              (bytes (radio.streamUrl st)) Hradio Hrbh Hmx Hmem Hfail)
    as (w1 & E & Hhal & Hst & Hget & _ & _ & Hat & _).
  rewrite E. cbn [rbind].
  eexists _, w1, _. split; [reflexivity|]. cbn [_is_playing _btn_play_label].
  split; [reflexivity|]. split; [reflexivity|]. split; [exact Hat|].
  split; [exact Hhal|].
  unfold update_now_playing. rewrite (Hget (v_env ve')), Hlock.
  cbn [default rbind]. split; [reflexivity|].
  destruct (title (radioMetadata w1)); cbn; auto.
Qed.

Lemma play_ignores_failed_start_witness :
  selection_ok view0 /\ locks_return view_env_no_task /\
  exists v1 w1 v2,
    play_selected_station view_env_no_task view0 (initial_world meta_empty)
      = Ok (v1, w1) /\
    _is_playing v1 = true /\
    update_now_playing (view_env WIFI_CONNECTED) v1 w1 = Ok v2 /\
    _is_playing v2 = true /\
    _status_label v2 = bytes "Buffering...".
Proof.
  assert (selection_ok view0) as Hv
    by (vm_compute; split; [discriminate|reflexivity]).
  assert (locks_return view_env_no_task) as Hl by (split; discriminate).
  split; [exact Hv|]. split; [exact Hl|].
  destruct (play_ignores_failed_start view_env_no_task
              (view_env WIFI_CONNECTED) view0 (initial_world meta_empty)
              Hv Hl eq_refl (fun _ => eq_refl)
              (conj (ex_intro _ _ eq_refl) eq_refl) (or_introl eq_refl)
              eq_refl)
    as (v1 & w1 & v2 & E1 & Hp1 & _ & _ & _ & E2 & Hp2 & Hs2 & _).
  exists v1, w1, v2. auto 10.
Defined.
